(** * nqm-iot-database-utils: schema-typed batch write and query engine

    A shallow embedding of
    - [lib/sqlite-schema-converter.js] (module [Converter]),
    - [lib/sqlite-helper.js], function [executeMany] (module [Helper]),
    - [lib/sqlite-manager.js], functions [pick], [warn], [findCollectionKeys],
      [createDataset], [getGeneralSchema], [addData] and [getDataQuery]
      (module [Manager]), [updateData] and [deleteData] (module [Updates]),
    - the earlier [executeInsert] and [addData] kept with the sources
      (module [Legacy]),
    together with the fragment of JavaScript they rely on (module [Js]).

    JavaScript numbers are modelled by [Z] (integer-valued numbers), strings by
    [string] (one [ascii] per character), objects by association lists in
    key-enumeration order.  Rows, schemas and options are plain objects: what
    they inherit from [Object.prototype] is modelled where the code looks a
    key from the data up with [in] or reads it to a string, and lodash's
    walk of an object with a numeric [length] as an array is modelled in
    [forEach_entries]. *)

From Stdlib Require Import ZArith NArith String Ascii List Bool Lia.
From Stdlib Require Import DecimalString DecimalN DecimalPos.
From stdpp Require Import base strings list gmap.

Open Scope string_scope.
Open Scope list_scope.

(* ================================================================== *)
(** * Part I: definitions *)
(* ================================================================== *)

(** ** Exceptions and fallible computations *)

Inductive JsError : Type :=
| TypeError (msg : string)
| SyntaxError (msg : string)
| Error (msg : string).

Inductive outcome (A : Type) : Type :=
| Ok (a : A)
| Throw (e : JsError).

Arguments Ok {A} a.
Arguments Throw {A} e.

Definition obind {A B : Type} (m : outcome A) (k : A -> outcome B) : outcome B :=
  match m with
  | Ok a => k a
  | Throw e => Throw e
  end.

Notation "'do' x <- m ; k" := (obind m (fun x => k))
  (at level 10, x name, m at level 100, k at level 200).

Fixpoint omap {A B : Type} (f : A -> outcome B) (l : list A) : outcome (list B) :=
  match l with
  | [] => Ok []
  | x :: l' => do y <- f x; do ys <- omap f l'; Ok (y :: ys)
  end.

(* ------------------------------------------------------------------ *)
(** ** The JavaScript fragment *)
(* ------------------------------------------------------------------ *)

Module Js.

(** JavaScript values that rows, schemas and options are made of. *)
#[local] Set Warnings "-register-all".
Inductive value : Type :=
| VUndefined
| VNull
| VBool (b : bool)
| VNum (n : Z)
| VStr (s : string)
| VArr (items : list value)
| VObj (fields : list (string * value)).

Definition dquote : ascii := "034"%char.
Definition backslash : ascii := "092"%char.

(** [if (v)], [v || d], [!v]. *)
Definition truthy (v : value) : bool :=
  match v with
  | VUndefined | VNull => false
  | VBool b => b
  | VNum n => negb (n =? 0)%Z
  | VStr s => negb (String.eqb s "")
  | VArr _ | VObj _ => true
  end.

(** [v || d] *)
Definition or_default (v d : value) : value := if truthy v then v else d.

(** *** Objects as association lists *)

Definition object : Type := list (string * value).

Fixpoint lookup_field {A : Type} (k : string) (fields : list (string * A)) : option A :=
  match fields with
  | [] => None
  | (k', v) :: rest => if String.eqb k k' then Some v else lookup_field k rest
  end.

(** [obj[k]]: [undefined] for a missing key. *)
Definition get (fields : object) (k : string) : value :=
  match lookup_field k fields with
  | Some v => v
  | None => VUndefined
  end.

(** [obj.hasOwnProperty(k)] *)
Definition hasOwnProperty {A : Type} (fields : list (string * A)) (k : string) : bool :=
  match lookup_field k fields with
  | Some _ => true
  | None => false
  end.

(** [obj[k] = v]: an existing key keeps its place, a new key goes last. *)
Fixpoint set_field {A : Type} (fields : list (string * A)) (k : string) (v : A)
  : list (string * A) :=
  match fields with
  | [] => [(k, v)]
  | (k', v') :: rest =>
      if String.eqb k k' then (k, v) :: rest else (k', v') :: set_field rest k v
  end.

Definition Object_keys {A : Type} (fields : list (string * A)) : list string :=
  map fst fields.

Definition Object_values {A : Type} (fields : list (string * A)) : list A :=
  map snd fields.

(** [_.isEmpty] on the values used here. *)
Definition isEmpty (v : value) : bool :=
  match v with
  | VArr items => match items with [] => true | _ => false end
  | VObj fields => match fields with [] => true | _ => false end
  | VStr s => String.eqb s ""
  | _ => true
  end.

(** *** Strings *)

Definition lower_char (c : ascii) : ascii :=
  let n := nat_of_ascii c in
  if (65 <=? n)%nat && (n <=? 90)%nat then ascii_of_nat (n + 32) else c.

Definition upper_char (c : ascii) : ascii :=
  let n := nat_of_ascii c in
  if (97 <=? n)%nat && (n <=? 122)%nat then ascii_of_nat (n - 32) else c.

Fixpoint map_string (f : ascii -> ascii) (s : string) : string :=
  match s with
  | EmptyString => EmptyString
  | String c s' => String (f c) (map_string f s')
  end.

Definition toLowerCase (s : string) : string := map_string lower_char s.
Definition toUpperCase (s : string) : string := map_string upper_char s.

(** [hay.indexOf(needle) >= 0] *)
Definition includes (hay needle : string) : bool :=
  match String.index 0 needle hay with
  | Some _ => true
  | None => false
  end.

(** [s.replace(/Q/g, QQ)] where Q is the double-quote character: every
    double quote is doubled. *)
Fixpoint double_quotes (s : string) : string :=
  match s with
  | EmptyString => EmptyString
  | String c s' =>
      if Ascii.eqb c dquote
      then String dquote (String dquote (double_quotes s'))
      else String c (double_quotes s')
  end.

(** The template literal that puts [s] between two double quotes. *)
Definition delimit (s : string) : string :=
  String dquote (s +:+ String dquote EmptyString).

(** [arr.join()] on an array of strings. *)
Definition join (l : list string) : string := String.concat "," l.

(** Decimal form of an integer-valued number. *)
Definition string_of_N (n : N) : string := NilEmpty.string_of_uint (N.to_uint n).

Definition string_of_Z (z : Z) : string :=
  match z with
  | Z0 => "0"
  | Zpos p => string_of_N (Npos p)
  | Zneg p => String "-" (string_of_N (Npos p))
  end.

(** [String(v)] *)
Fixpoint toString (v : value) : string :=
  match v with
  | VUndefined => "undefined"
  | VNull => "null"
  | VBool true => "true"
  | VBool false => "false"
  | VNum n => string_of_Z n
  | VStr s => s
  | VArr items =>
      join (map (fun x => match x with
                          | VUndefined | VNull => ""
                          | _ => toString x
                          end) items)
  | VObj _ => "[object Object]"
  end.

(** [_.isEqual]: deep equality; the order of an object's keys is immaterial. *)
Fixpoint isEqual (a b : value) : bool :=
  match a, b with
  | VUndefined, VUndefined => true
  | VNull, VNull => true
  | VBool x, VBool y => Bool.eqb x y
  | VNum x, VNum y => (x =? y)%Z
  | VStr x, VStr y => String.eqb x y
  | VArr xs, VArr ys =>
      (fix all2 (l : list value) (r : list value) : bool :=
         match l, r with
         | [], [] => true
         | x :: l', y :: r' => isEqual x y && all2 l' r'
         | _, _ => false
         end) xs ys
  | VObj fa, VObj fb =>
      Nat.eqb (length fa) (length fb) &&
      (fix all (l : list (string * value)) : bool :=
         match l with
         | [] => true
         | (k, x) :: l' =>
             match lookup_field k fb with
             | Some y => isEqual x y
             | None => false
             end && all l'
         end) fa
  | _, _ => false
  end.

(** *** JSON.stringify *)

Definition hex_digit (n : nat) : ascii :=
  if (n <? 10)%nat then ascii_of_nat (48 + n) else ascii_of_nat (87 + n).

Definition escape_char (c : ascii) : string :=
  let n := nat_of_ascii c in
  if Ascii.eqb c dquote then String backslash (String dquote EmptyString)
  else if Ascii.eqb c backslash then String backslash (String backslash EmptyString)
  else if (n =? 8)%nat then String backslash "b"
  else if (n =? 12)%nat then String backslash "f"
  else if (n =? 10)%nat then String backslash "n"
  else if (n =? 13)%nat then String backslash "r"
  else if (n =? 9)%nat then String backslash "t"
  else if (n <? 32)%nat
       then String backslash
              ("u00" +:+ String (hex_digit (n / 16)) (String (hex_digit (n mod 16)) EmptyString))
  else String c EmptyString.

Fixpoint escape (s : string) : string :=
  match s with
  | EmptyString => EmptyString
  | String c s' => escape_char c +:+ escape s'
  end.

Definition quote (s : string) : string := delimit (escape s).

(** The text of a value inside an array or at top level ([undefined] in an
    array prints as [null]; an object member holding [undefined] is left out). *)
Fixpoint stringify (v : value) : string :=
  match v with
  | VUndefined => "null"
  | VNull => "null"
  | VBool true => "true"
  | VBool false => "false"
  | VNum n => string_of_Z n
  | VStr s => quote s
  | VArr items => "[" +:+ join (map stringify items) +:+ "]"
  | VObj fields =>
      let fix members (l : list (string * value)) : list string :=
        match l with
        | [] => []
        | (k, x) :: l' =>
            match x with
            | VUndefined => members l'
            | _ => (quote k +:+ ":" +:+ stringify x) :: members l'
            end
        end in
      "{" +:+ join (members fields) +:+ "}"
  end.

Fixpoint distinct_strings (l : list string) : bool :=
  match l with
  | [] => true
  | x :: l' => negb (existsb (String.eqb x) l') && distinct_strings l'
  end.

Definition MAX_SAFE_INTEGER : Z := 9007199254740991.

(** The values JSON text can hold in this model: no [undefined], numbers
    that are safe integers, objects with distinct keys. *)
Fixpoint is_json (v : value) : bool :=
  match v with
  | VUndefined => false
  | VNull | VBool _ | VStr _ => true
  | VNum n => (- MAX_SAFE_INTEGER <=? n)%Z && (n <=? MAX_SAFE_INTEGER)%Z
  | VArr items => forallb is_json items
  | VObj fields =>
      distinct_strings (map fst fields)
      && forallb (fun kv => is_json (snd kv)) fields
  end.

(** [JSON.stringify(v)]: [None] stands for the result [undefined]. *)
Definition JSON_stringify (v : value) : option string :=
  match v with
  | VUndefined => None
  | _ => Some (stringify v)
  end.

(** *** JSON.parse *)

Definition is_ws (c : ascii) : bool :=
  let n := nat_of_ascii c in
  (n =? 32)%nat || (n =? 9)%nat || (n =? 10)%nat || (n =? 13)%nat.

Fixpoint skip_ws (s : string) : string :=
  match s with
  | EmptyString => EmptyString
  | String c s' => if is_ws c then skip_ws s' else s
  end.

Definition is_digit (c : ascii) : bool :=
  let n := nat_of_ascii c in (48 <=? n)%nat && (n <=? 57)%nat.

Fixpoint span_digits (s : string) : string * string :=
  match s with
  | EmptyString => (EmptyString, EmptyString)
  | String c s' =>
      if is_digit c
      then let (d, r) := span_digits s' in (String c d, r)
      else (EmptyString, s)
  end.

(** A fraction or an exponent follows: not an integer-valued literal. *)
Definition continues_number (rest : string) : bool :=
  match rest with
  | EmptyString => false
  | String c _ => Ascii.eqb c "." || Ascii.eqb c "e" || Ascii.eqb c "E"
  end.

(** An integer literal: an optional minus sign, then [0] or a digit string
    without leading zero.  [None] also for a literal with a fraction or an
    exponent, which the integer model of numbers does not hold. *)
Definition parse_number (s : string) : option (Z * string) :=
  let (neg, body) :=
    match s with
    | String c s' => if Ascii.eqb c "-" then (true, s') else (false, s)
    | EmptyString => (false, s)
    end in
  let (ds, rest) := span_digits body in
  if continues_number rest then None
  else
    match NilEmpty.uint_of_string ds with
    | Some u =>
        let n := N.of_uint u in
        if String.eqb (string_of_N n) ds
        then Some (if neg : bool then (- Z.of_N n)%Z else Z.of_N n, rest)
        else None
    | None => None
    end.

Definition hex_val (c : ascii) : option nat :=
  let n := nat_of_ascii c in
  if (48 <=? n)%nat && (n <=? 57)%nat then Some (n - 48)
  else if (97 <=? n)%nat && (n <=? 102)%nat then Some (n - 87)
  else if (65 <=? n)%nat && (n <=? 70)%nat then Some (n - 55)
  else None.

Definition hex4 (h1 h2 h3 h4 : ascii) : option nat :=
  match hex_val h1, hex_val h2, hex_val h3, hex_val h4 with
  | Some a, Some b, Some c, Some d => Some (((a * 16 + b) * 16 + c) * 16 + d)
  | _, _, _, _ => None
  end.

Definition unescape (e : ascii) : option ascii :=
  if Ascii.eqb e dquote then Some dquote
  else if Ascii.eqb e backslash then Some backslash
  else if Ascii.eqb e "/" then Some "/"%char
  else if Ascii.eqb e "b" then Some "008"%char
  else if Ascii.eqb e "f" then Some "012"%char
  else if Ascii.eqb e "n" then Some "010"%char
  else if Ascii.eqb e "r" then Some "013"%char
  else if Ascii.eqb e "t" then Some "009"%char
  else None.

Definition cons_char (c : ascii) (r : option (string * string)) : option (string * string) :=
  match r with
  | Some (s, rest) => Some (String c s, rest)
  | None => None
  end.

(** The characters of a string literal after its opening quote, up to and
    including the closing quote.  Escapes above [ÿ] have no character in
    this model and give [None]. *)
Fixpoint parse_chars (s : string) : option (string * string) :=
  match s with
  | EmptyString => None
  | String c s' =>
      if Ascii.eqb c dquote then Some (EmptyString, s')
      else if Ascii.eqb c backslash then
        match s' with
        | EmptyString => None
        | String e s'' =>
            if Ascii.eqb e "u" then
              match s'' with
              | String h1 (String h2 (String h3 (String h4 s5))) =>
                  match hex4 h1 h2 h3 h4 with
                  | Some n =>
                      if (n <? 256)%nat then cons_char (ascii_of_nat n) (parse_chars s5)
                      else None
                  | None => None
                  end
              | _ => None
              end
            else
              match unescape e with
              | Some c' => cons_char c' (parse_chars s'')
              | None => None
              end
        end
      else if (nat_of_ascii c <? 32)%nat then None
      else cons_char c (parse_chars s')
  end.

Fixpoint strip_prefix (p s : string) : option string :=
  match p with
  | EmptyString => Some s
  | String a p' =>
      match s with
      | EmptyString => None
      | String b s' => if Ascii.eqb a b then strip_prefix p' s' else None
      end
  end.

(** Members of a parsed object, in text order: a repeated key overwrites. *)
Definition object_of_members (l : list (string * value)) : list (string * value) :=
  fold_left (fun acc kv => set_field acc (fst kv) (snd kv)) l [].

(** Recursive descent; [fuel] bounds the nesting and the number of items. *)
Fixpoint parse_value (fuel : nat) (s : string) : option (value * string) :=
  match fuel with
  | 0 => None
  | S fuel' =>
      match skip_ws s with
      | EmptyString => None
      | String c s' =>
          if Ascii.eqb c "[" then
            match skip_ws s' with
            | String c' s'' =>
                if Ascii.eqb c' "]" then Some (VArr [], s'')
                else match parse_elements fuel' s' with
                     | Some (l, rest) => Some (VArr l, rest)
                     | None => None
                     end
            | EmptyString => None
            end
          else if Ascii.eqb c "{" then
            match skip_ws s' with
            | String c' s'' =>
                if Ascii.eqb c' "}" then Some (VObj [], s'')
                else match parse_members fuel' s' with
                     | Some (l, rest) => Some (VObj (object_of_members l), rest)
                     | None => None
                     end
            | EmptyString => None
            end
          else if Ascii.eqb c dquote then
            match parse_chars s' with
            | Some (str, rest) => Some (VStr str, rest)
            | None => None
            end
          else if Ascii.eqb c "-" || is_digit c then
            match parse_number (String c s') with
            | Some (n, rest) => Some (VNum n, rest)
            | None => None
            end
          else
            match strip_prefix "true" (String c s') with
            | Some rest => Some (VBool true, rest)
            | None =>
                match strip_prefix "false" (String c s') with
                | Some rest => Some (VBool false, rest)
                | None =>
                    match strip_prefix "null" (String c s') with
                    | Some rest => Some (VNull, rest)
                    | None => None
                    end
                end
            end
      end
  end
with parse_elements (fuel : nat) (s : string) : option (list value * string) :=
  match fuel with
  | 0 => None
  | S fuel' =>
      match parse_value fuel' s with
      | Some (v, s1) =>
          match skip_ws s1 with
          | String c s2 =>
              if Ascii.eqb c "," then
                match parse_elements fuel' s2 with
                | Some (l, rest) => Some (v :: l, rest)
                | None => None
                end
              else if Ascii.eqb c "]" then Some ([v], s2)
              else None
          | EmptyString => None
          end
      | None => None
      end
  end
with parse_members (fuel : nat) (s : string) : option (list (string * value) * string) :=
  match fuel with
  | 0 => None
  | S fuel' =>
      match skip_ws s with
      | String q s0 =>
          if Ascii.eqb q dquote then
            match parse_chars s0 with
            | Some (k, s1) =>
                match skip_ws s1 with
                | String c s2 =>
                    if Ascii.eqb c ":" then
                      match parse_value fuel' s2 with
                      | Some (v, s3) =>
                          match skip_ws s3 with
                          | String d s4 =>
                              if Ascii.eqb d "," then
                                match parse_members fuel' s4 with
                                | Some (l, rest) => Some ((k, v) :: l, rest)
                                | None => None
                                end
                              else if Ascii.eqb d "}" then Some ([(k, v)], s4)
                              else None
                          | EmptyString => None
                          end
                      | None => None
                      end
                    else None
                | EmptyString => None
                end
            | None => None
            end
          else None
      | EmptyString => None
      end
  end.

(** [JSON.parse(text)]: the whole text must be one value. *)
Definition JSON_parse_text (text : string) : outcome value :=
  match parse_value (S (String.length text)) text with
  | Some (v, rest) =>
      match skip_ws rest with
      | EmptyString => Ok v
      | String _ _ => Throw (SyntaxError "Unexpected token in JSON")
      end
  | None => Throw (SyntaxError "Unexpected token in JSON")
  end.

(** [JSON.parse(v)]: the argument is first turned into a string. *)
Definition JSON_parse (v : value) : outcome value := JSON_parse_text (toString v).

(** *** Notions the properties of the parser are stated with *)

(** What may follow an integer literal. *)
Definition number_ends (rest : string) : bool :=
  match rest with
  | EmptyString => true
  | String c _ => negb (is_digit c) && negb (continues_number rest)
  end.

(** The characters a printed value can start with. *)
Definition value_start (c : ascii) : bool :=
  Ascii.eqb c "n" || Ascii.eqb c "t" || Ascii.eqb c "f" || Ascii.eqb c "-" || is_digit c
  || Ascii.eqb c dquote || Ascii.eqb c "[" || Ascii.eqb c "{".

(** The printed members of an object none of whose members is [undefined]. *)
Definition members_text (fields : list (string * value)) : list string :=
  map (fun kv => quote (fst kv) +:+ String ":" (stringify (snd kv))) fields.

(** The parser reads back the text of [v], whatever follows it. *)
Definition roundtrips (v : value) : Prop :=
  is_json v = true ->
  forall fuel rest,
    String.length (stringify v) <= fuel -> number_ends rest = true ->
    parse_value fuel (stringify v +:+ rest) = Some (v, rest).

(** *** Inherited members, array-like objects *)


(** The text [String] gives for a built-in function. *)
Definition native_code (name : string) : string :=
  "function " +:+ name +:+ "() { [native code] }".

(** The members a plain object inherits from [Object.prototype], each with
    the text [String] gives for its value. *)
Definition Object_prototype : list (string * string) :=
  [("constructor", native_code "Object");
   ("__defineGetter__", native_code "__defineGetter__");
   ("__defineSetter__", native_code "__defineSetter__");
   ("hasOwnProperty", native_code "hasOwnProperty");
   ("__lookupGetter__", native_code "__lookupGetter__");
   ("__lookupSetter__", native_code "__lookupSetter__");
   ("isPrototypeOf", native_code "isPrototypeOf");
   ("propertyIsEnumerable", native_code "propertyIsEnumerable");
   ("toString", native_code "toString");
   ("valueOf", native_code "valueOf");
   ("__proto__", "[object Object]");
   ("toLocaleString", native_code "toLocaleString")].

(** The name is the name of a member of [Object.prototype]. *)
Definition inherited (k : string) : bool := hasOwnProperty Object_prototype k.

(** [k in obj] for a plain object: an own field or an inherited member. *)
Definition key_in {A : Type} (k : string) (fields : list (string * A)) : bool :=
  hasOwnProperty fields k || inherited k.

(** [String(obj[k])] for a plain object whose fields hold strings; [None]
    when [obj[k]] is [undefined]. *)
Definition member_text (fields : list (string * string)) (k : string) : option string :=
  match lookup_field k fields with
  | Some text => Some text
  | None => lookup_field k Object_prototype
  end.

(** [obj[k] = v] on an object that started as [{}], for a key that comes
    from data: [__proto__] names the accessor of the prototype, and the
    assignment gives the object no field. *)
Definition assign {A : Type} (fields : list (string * A)) (k : string) (v : A)
  : list (string * A) :=
  if String.eqb k "__proto__" then fields else set_field fields k v.

(** The key lodash hands to a callback: the index (a number) when the
    collection is walked as an array, else the name of the field. *)
Inductive key : Type :=
| Index (i : nat)
| Name (s : string).

(** The property a key names. *)
Definition property_name (k : key) : string :=
  match k with
  | Index i => string_of_N (N.of_nat i)
  | Name s => s
  end.

(** [_.isArrayLike] on an object: its [length] is a number that is an integer
    from 0 to [MAX_SAFE_INTEGER]. *)
Definition array_like (fields : object) : option nat :=
  match lookup_field "length" fields with
  | Some (VNum n) =>
      if (0 <=? n)%Z && (n <=? MAX_SAFE_INTEGER)%Z then Some (Z.to_nat n) else None
  | _ => None
  end.

(** What [_.forEach] and [_.map] hand to their callback on an object, in
    order: an array-like object is walked by index from 0 to its length, any
    other object by its own fields. *)
Definition forEach_entries (fields : object) : list (key * value) :=
  match array_like fields with
  | Some n => map (fun i => (Index i, get fields (string_of_N (N.of_nat i)))) (seq 0 n)
  | None => map (fun kv => (Name (fst kv), snd kv)) fields
  end.

End Js.

(* ------------------------------------------------------------------ *)
(** ** sqlite-constants.js *)
(* ------------------------------------------------------------------ *)

(** The general types a schema column can have.  In the sources they are the
    string constants [SQLITE_TYPE_TEXT], [SQLITE_TYPE_INTEGER],
    [SQLITE_TYPE_REAL], [SQLITE_TYPE_NUMERIC], [SQLITE_GENERAL_TYPE_OBJECT],
    [SQLITE_GENERAL_TYPE_ARRAY] and [SQLITE_GENERAL_TYPE_NDARRAY], compared
    with [===]; a type argument that is none of them is [None]. *)
Inductive GeneralType : Type :=
| TEXT | INTEGER | REAL | NUMERIC | OBJECT | ARRAY | NDARRAY.

Definition GeneralType_eqb (a b : GeneralType) : bool :=
  match a, b with
  | TEXT, TEXT | INTEGER, INTEGER | REAL, REAL | NUMERIC, NUMERIC
  | OBJECT, OBJECT | ARRAY, ARRAY | NDARRAY, NDARRAY => true
  | _, _ => false
  end.

(** Modelled from the spec: [sqlite-constants.js] is not among the sources;
    the names of the general types are the ones of the spec's data model. *)
Definition type_name (t : GeneralType) : string :=
  match t with
  | TEXT => "TEXT" | INTEGER => "INTEGER" | REAL => "REAL" | NUMERIC => "NUMERIC"
  | OBJECT => "OBJECT" | ARRAY => "ARRAY" | NDARRAY => "NDARRAY"
  end.

(** Modelled from the spec: the base types of a document type descriptor and
    the key that holds it, as the spec's schema model and the examples in the
    sources write them. *)
Definition TDX_TYPE_NAME : string := "__tdxType".
Definition TDX_TYPE_STRING : string := "string".
Definition TDX_TYPE_BOOLEAN : string := "boolean".
Definition TDX_TYPE_DATE : string := "date".
Definition TDX_TYPE_NUMBER : string := "number".

(** The constants whose values neither the sources nor the spec give. *)
Class Constants : Type := {
  (** the derived-type marker looked for with [indexOf] *)
  TDX_TYPE_INT : string;
  (** [new RegExp(TDX_TYPE_REAL).test] *)
  TDX_TYPE_REAL_test : string -> bool;
  SQLITE_QUERY_LIMIT : Z;
  SQLITE_SORT_TYPE_ASC : string;
  SQLITE_SORT_TYPE_DESC : string;
  DATABASE_DATA_TABLE_NAME : string;
  DATABASE_TABLE_INDEX_NAME : string;
  (** info-table key and the resource key it is shown under *)
  INFO_TABLE_KEYS_TO_TDX_RESOURCE_KEYS : list (string * string)
}.

(** A general schema: column name to general type, in column order. *)
Definition Schema : Type := list (string * GeneralType).

(* ------------------------------------------------------------------ *)
(** ** sqlite-schema-converter.js *)
(* ------------------------------------------------------------------ *)

Module Converter.
Import Js.

Section WithConstants.
Context `{Constants}.

(** [v[i]] *)
Definition index (v : value) (i : nat) : outcome value :=
  match v with
  | VUndefined | VNull => Throw (TypeError "Cannot read properties of undefined")
  | VBool _ | VNum _ => Ok VUndefined
  | VStr s =>
      Ok (match String.get i s with
          | Some c => VStr (String c EmptyString)
          | None => VUndefined
          end)
  | VArr items => Ok (nth i items VUndefined)
  | VObj fields => Ok (get fields (string_of_N (N.of_nat i)))
  end.

(** [x === s] for a string constant [s] *)
Definition is_string (x : value) (s : string) : bool :=
  match x with
  | VStr x' => String.eqb x' s
  | _ => false
  end.

(** [d.indexOf(needle) >= 0], on a string or on an array *)
Definition indexOf_found (d : value) (needle : string) : outcome bool :=
  match d with
  | VStr s => Ok (includes s needle)
  | VArr items => Ok (existsb (fun x => is_string x needle) items)
  | _ => Throw (TypeError "tdxDerivedType.indexOf is not a function")
  end.

Definition getBasicType (tdxTypes : value) : outcome GeneralType :=
  do t0 <- index tdxTypes 0;
  do t1 <- index tdxTypes 1;
  let tdxBaseType := or_default t0 (VStr "") in
  let tdxDerivedType := or_default t1 (VStr "") in
  let tdxBaseType :=
    match tdxBaseType with VStr s => VStr (toLowerCase s) | v => v end in
  let tdxDerivedType :=
    match tdxDerivedType with VStr s => VStr (toUpperCase s) | v => v end in
  if is_string tdxBaseType TDX_TYPE_STRING then Ok TEXT
  else if is_string tdxBaseType TDX_TYPE_BOOLEAN then Ok NUMERIC
  else if is_string tdxBaseType TDX_TYPE_DATE then Ok NUMERIC
  else if is_string tdxBaseType TDX_TYPE_NUMBER then
    do found <- indexOf_found tdxDerivedType TDX_TYPE_INT;
    if found : bool then Ok INTEGER
    else if TDX_TYPE_REAL_test (toString tdxDerivedType) then Ok REAL
    else Ok NUMERIC
  else Ok TEXT.

Definition mapSchema_type (value : GeneralType) : GeneralType :=
  match value with
  | OBJECT => TEXT
  | ARRAY => TEXT
  | _ => value
  end.

Definition mapSchema (types : Schema) : Schema :=
  fold_left (fun sqliteSchema kv => set_field sqliteSchema (fst kv) (mapSchema_type (snd kv)))
            types [].

(** The body of the loop of [convertSchema]: the general type of one schema
    entry, [None] when the entry is left out.  [value.hasOwnProperty] is the
    inherited method unless the entry has a field of that name, which is no
    function and cannot be called. *)
Definition convertSchema_entry (value : Js.value) : outcome (option GeneralType) :=
  match value with
  | VArr _ => Ok (Some ARRAY)
  | VObj fields =>
      if hasOwnProperty fields "hasOwnProperty"
      then Throw (TypeError "value.hasOwnProperty is not a function")
      else if hasOwnProperty fields TDX_TYPE_NAME
      then do t <- getBasicType (get fields TDX_TYPE_NAME); Ok (Some t)
      else Ok (Some OBJECT)
  | _ => Ok None
  end.

Fixpoint convertSchema_loop (entries : list (string * Js.value)) (sqliteSchema : Schema)
  : outcome Schema :=
  match entries with
  | [] => Ok sqliteSchema
  | (key, value) :: rest =>
      do t <- convertSchema_entry value;
      convertSchema_loop rest
        (match t with
         | Some ty => assign sqliteSchema key ty
         | None => sqliteSchema
         end)
  end.

(** The entries [_.forEach] visits, each under the name of its key. *)
Definition entries_of (schema : Js.value) : list (string * Js.value) :=
  match schema with
  | VObj fields => map (fun kv => (property_name (fst kv), snd kv)) (forEach_entries fields)
  | VArr items =>
      combine (map (fun i => string_of_N (N.of_nat i)) (seq 0 (length items))) items
  | VStr s =>
      combine (map (fun i => string_of_N (N.of_nat i)) (seq 0 (String.length s)))
              (map (fun c => VStr (String c EmptyString)) (list_ascii_of_string s))
  | _ => []
  end.

Definition convertSchema (schema : Js.value) : outcome Schema :=
  convertSchema_loop (entries_of schema) [].

(** [options[k]] once [options] is known not to be [undefined] or [null] *)
Definition property (v : Js.value) (k : string) : Js.value :=
  match v with
  | VObj fields => get fields k
  | _ => VUndefined
  end.

Definition convertToSqlite (type : option GeneralType) (value options : Js.value)
  : outcome Js.value :=
  let options := or_default options (VObj []) in
  let onlyStringify := or_default (property options "onlyStringify") (VBool false) in
  match type with
  | Some OBJECT | Some ARRAY =>
      match JSON_stringify value with
      | Some text =>
          if truthy onlyStringify then Ok (VStr text)
          else Ok (VStr (delimit (double_quotes text)))
      | None =>
          if truthy onlyStringify then Ok VUndefined
          else Throw (TypeError "Cannot read properties of undefined")
      end
  | Some NUMERIC | Some INTEGER | Some REAL => Ok value
  | Some TEXT =>
      if truthy onlyStringify then Ok value
      else match value with
           | VStr s => Ok (VStr (delimit (double_quotes s)))
           | _ => Throw (TypeError "value.replace is not a function")
           end
  | _ => Ok VNull
  end.

Definition convertToTdx (type : option GeneralType) (value : Js.value) : outcome Js.value :=
  match type with
  | Some OBJECT | Some ARRAY => JSON_parse value
  | Some NUMERIC | Some INTEGER | Some REAL => Ok value
  | Some TEXT => Ok value
  | _ => Ok VNull
  end.

End WithConstants.
End Converter.

(* ------------------------------------------------------------------ *)
(** ** sqlite-helper.js *)
(* ------------------------------------------------------------------ *)

Module Helper.
Import Js.

(** What is submitted to the connection.  A prepared statement is named by
    the number of statements prepared before it in the same call. *)
Inductive Cmd : Type :=
| Run (sql : string)
| Prepare (statement : nat) (sql : string)
| StatementRun (statement : nat) (params : list value)
| Finalize (statement : nat).

Definition BEGIN_TRANSACTION : string := "BEGIN IMMEDIATE TRANSACTION;".
Definition COMMIT_TRANSACTION : string := "COMMIT TRANSACTION;".

(** [SQLiteStatementCreator]: from the columns of a row to statement text. *)
Definition SQLiteStatementCreator : Type := list string -> outcome string.

(** The state of the synchronous part: the [Map] of cached statements in
    insertion order, what was submitted so far, and the key lists the
    statement creator was called with. *)
Record Issued : Type := {
  cachedStatements : list (string * nat);
  commands : list Cmd;
  creatorCalls : list (list string)
}.

Definition submit (st : Issued) (cmds : list Cmd) : Issued :=
  {| cachedStatements := cachedStatements st;
     commands := commands st ++ cmds;
     creatorCalls := creatorCalls st |}.

(** The [for (const dataRow of data)] loop inside [try]; the second
    component is the exception that ended it, if any. *)
Fixpoint rows_loop (sqliteStatementCreator : SQLiteStatementCreator)
  (data : list object) (st : Issued) : Issued * option JsError :=
  match data with
  | [] => (st, None)
  | dataRow :: rest =>
      let dataRowKeys := Object_keys dataRow in
      match lookup_field (join dataRowKeys) (cachedStatements st) with
      | Some statement =>
          rows_loop sqliteStatementCreator rest
            (submit st [StatementRun statement (Object_values dataRow)])
      | None =>
          let called :=
            {| cachedStatements := cachedStatements st;
               commands := commands st;
               creatorCalls := creatorCalls st ++ [dataRowKeys] |} in
          match sqliteStatementCreator dataRowKeys with
          | Throw error => (called, Some error)
          | Ok sqliteStatementString =>
              let statement := length (cachedStatements st) in
              rows_loop sqliteStatementCreator rest
                {| cachedStatements :=
                     set_field (cachedStatements st) (join dataRowKeys) statement;
                   commands :=
                     commands st ++ [Prepare statement sqliteStatementString;
                                     StatementRun statement (Object_values dataRow)];
                   creatorCalls := creatorCalls called |}
          end
      end
  end.

(** Everything the body of [db.serialize] submits, in order. *)
Definition issue (sqliteStatementCreator : SQLiteStatementCreator) (data : list object)
  : Issued * option JsError :=
  let st0 := {| cachedStatements := []; commands := [Run BEGIN_TRANSACTION];
                creatorCalls := [] |} in
  let (st1, thrown) := rows_loop sqliteStatementCreator data st0 in
  let st2 := submit st1 [Run COMMIT_TRANSACTION] in
  (submit st2 (map (fun kv => Finalize (snd kv)) (cachedStatements st2)), thrown).

(** The promise [executeMany] returns: the first [resolve] or [reject] wins. *)
Inductive Promise : Type :=
| Pending
| Resolved (result : list value)
| Rejected (reason : JsError).

Definition resolve (result : list value) (p : Promise) : Promise :=
  match p with Pending => Resolved result | _ => p end.

Definition reject (reason : JsError) (p : Promise) : Promise :=
  match p with Pending => Rejected reason | _ => p end.

(** The connection's answers: the error, if any, it reports to the callback
    of the command at a given place of the queue. *)
Definition Engine : Type := nat -> option string.

(** [Error(error)] on an error the connection reports. *)
Definition wrap (error : string) : JsError := Error ("Error: " +:+ error).

(** The callbacks of [db.prepare] and [statement.run], in queue order. *)
Fixpoint callbacks (engine : Engine) (pos : nat) (cmds : list Cmd) (p : Promise) : Promise :=
  match cmds with
  | [] => p
  | c :: cmds' =>
      let p' :=
        match c with
        | Prepare _ _ | StatementRun _ _ =>
            match engine pos with
            | Some error => reject (wrap error) p
            | None => p
            end
        | _ => p
        end in
      callbacks engine (S pos) cmds' p'
  end.

(** [Promise.all(promisedFinalizes)]: the first finalize that fails, or the
    results of all of them. *)
Fixpoint finalizes (engine : Engine) (pos : nat) (cmds : list Cmd)
  : JsError + list value :=
  match cmds with
  | [] => inr []
  | c :: cmds' =>
      match c with
      | Finalize _ =>
          match engine pos with
          | Some error => inl (Error error)
          | None =>
              match finalizes engine (S pos) cmds' with
              | inr results => inr (VUndefined :: results)
              | inl e => inl e
              end
          end
      | _ => finalizes engine (S pos) cmds'
      end
  end.

(** How the promise is settled: a caught exception first, then the callbacks
    in queue order, then the outcome of [Promise.all]. *)
Definition settle (engine : Engine) (cmds : list Cmd) (thrown : option JsError) : Promise :=
  let p0 := match thrown with Some error => reject error Pending | None => Pending end in
  let p1 := callbacks engine 0 cmds p0 in
  match finalizes engine 0 cmds with
  | inr results => resolve results p1
  | inl error => reject error p1
  end.

Definition executeMany (engine : Engine) (sqliteStatementCreator : SQLiteStatementCreator)
  (data : list object) : Issued * Promise :=
  let (st, thrown) := issue sqliteStatementCreator data in
  (st, settle engine (commands st) thrown).

End Helper.

(* ------------------------------------------------------------------ *)
(** ** sqlite-manager.js *)
(* ------------------------------------------------------------------ *)

Module Manager.
Import Js Helper.

(** The select query handed to the query builder. *)
Record SelectQuery : Type := {
  q_distinct : bool;
  q_table : string;
  q_type : string;
  q_where : value;
  q_limit : Z;
  q_offset : option Z;
  q_order : option (list (string * string));
  q_columns : option (list key)
}.

(** What the query builder returns: [query] and [values]. *)
Definition Translation : Type := (string * list value)%type.

(** The modules the manager calls that are not among the sources, over the
    state [Conn] of the database behind a [db] handle.  An operation that
    changes the database returns the new state next to its result. *)
Class Collaborators (Conn : Type) : Type := {
  (** sqlite-info-table.js *)
  checkInfoTable : Conn -> outcome bool;
  getInfoKeys : Conn -> list string -> outcome (list object);
  createInfoTable : Conn -> Conn * outcome unit;
  setInfoKeys : Conn -> list object -> Conn * outcome unit;
  (** node-sqlite3: [db.runAsync(sql, [])], [db.allAsync(query, values)], and
      what a serialized batch of commands does and reports to its callbacks *)
  runAsync : Conn -> string -> Conn * outcome unit;
  allAsync : Conn -> Translation -> outcome (list object);
  serialized : Conn -> list Cmd -> Conn * Engine;
  (** mongo-sql: [builder.sql(query, [])] *)
  builder_sql : SelectQuery -> outcome Translation;
  (** sqlite-ndarray.js *)
  writeNdarrayMany : Conn -> list object -> list string -> Conn * outcome (list object);
  readNdarrayMany : Conn -> list object -> list string -> outcome (list object);
  (** sqlite-statement-creator.js *)
  insertStatement : value -> Schema -> list string -> bool -> outcome string;
  (** sqlite-schema-converter.js, in the version the manager is written for *)
  convertRowToSqlite : Schema -> object -> outcome object;
  (** shortid *)
  shortid_generate : Conn -> string
}.

(** A [db] handle, the process it lives in, and what was asked of the engine. *)
Record World (Conn : Type) : Type := {
  conn : Conn;
  (** [db.generalSchema] *)
  generalSchema : option Schema;
  (** the set [warnedAlready] and the calls of [process.emitWarning] *)
  warnedAlready : gset string;
  emitted : list (string * string * string);
  (** the calls of [db.allAsync] *)
  reads : list Translation;
  (** the commands of each [executeMany] call *)
  batches : list (list Cmd)
}.

Arguments conn {Conn} w.
Arguments generalSchema {Conn} w.
Arguments warnedAlready {Conn} w.
Arguments emitted {Conn} w.
Arguments reads {Conn} w.
Arguments batches {Conn} w.

(** The [options] of a read: [skip], [limit], [sort] and [nqmMeta], each
    possibly absent. *)
Record Options : Type := {
  skip : option Z;
  limit : option Z;
  sort : option (list (string * value));
  nqmMeta : option bool
}.

Definition no_options : Options :=
  {| skip := None; limit := None; sort := None; nqmMeta := None |}.

(** What a read returns: dataset data, or the list of distinct values. *)
Inductive QueryResult : Type :=
| DatasetData (data : list object) (metaData : value) (metaDataUrl : string)
| DistinctValues (values : list value).

Section WithCollaborators.
Context `{Constants} {Conn : Type} `{Collaborators Conn}.

(** An asynchronous function of the manager: it may change the world and
    either returns or throws. *)
Definition M (A : Type) : Type := World Conn -> World Conn * outcome A.

Definition ret {A : Type} (a : A) : M A := fun w => (w, Ok a).

Definition throw {A : Type} (e : JsError) : M A := fun w => (w, Throw e).

Definition bind {A B : Type} (m : M A) (k : A -> M B) : M B :=
  fun w =>
    match m w with
    | (w', Ok a) => k a w'
    | (w', Throw e) => (w', Throw e)
    end.

Notation "'let!' x ':=' m 'in' k" := (bind m (fun x => k))
  (at level 10, x name, m at level 100, k at level 200).

Definition lift {A : Type} (o : outcome A) : M A := fun w => (w, o).

Definition with_conn (w : World Conn) (c : Conn) : World Conn :=
  {| conn := c; generalSchema := generalSchema w; warnedAlready := warnedAlready w;
     emitted := emitted w; reads := reads w; batches := batches w |}.

(** A collaborator that only reads the database. *)
Definition reading {A : Type} (f : Conn -> outcome A) : M A :=
  fun w => (w, f (conn w)).

(** A collaborator that may change the database. *)
Definition changing {A : Type} (f : Conn -> Conn * outcome A) : M A :=
  fun w => let (c, r) := f (conn w) in (with_conn w c, r).

Fixpoint mapM {A B : Type} (f : A -> M B) (l : list A) : M (list B) :=
  match l with
  | [] => ret []
  | x :: l' => let! y := f x in let! ys := mapM f l' in ret (y :: ys)
  end.

(** [obj[key]] is read as the object's own field: for a column named after
    a member of [Object.prototype] an object without that field has the
    inherited member instead, which is none of the values of [Js.value]. *)
Definition pick (obj : object) (columns : list string) : object :=
  fold_left
    (fun res key =>
       match get obj key with
       | VUndefined => res
       | value => set_field res key value
       end)
    columns [].

Definition warn (warning name code : string) : M unit :=
  fun w =>
    if decide (code ∈ warnedAlready w) then (w, Ok tt)
    else
      ({| conn := conn w; generalSchema := generalSchema w;
          warnedAlready := {[code]} ∪ warnedAlready w;
          emitted := emitted w ++ [(warning, name, code)];
          reads := reads w; batches := batches w |}, Ok tt).

Definition findCollectionKeys (collection : Schema) (searchValue : GeneralType)
  : list string :=
  map fst (List.filter (fun kv => GeneralType_eqb (snd kv) searchValue) collection).

(** [_.includes(schema, t)] *)
Definition schema_includes (schema : Schema) (t : GeneralType) : bool :=
  existsb (fun kv => GeneralType_eqb (snd kv) t) schema.

(** [obj.k = obj.k || d] under strict mode, for [obj] an object; a primitive
    cannot take a property.  (An array is outside the documented type of
    the schema options and is treated like a primitive.) *)
Definition assign_default (obj : value) (k : string) (d : value) : outcome value :=
  match obj with
  | VObj fields => Ok (VObj (set_field fields k (or_default (get fields k) d)))
  | _ => Throw (TypeError "Cannot create property")
  end.

(** [v.length] *)
Definition length_of (v : value) : value :=
  match v with
  | VArr items => VNum (Z.of_nat (length items))
  | VStr s => VNum (Z.of_nat (String.length s))
  | VObj fields => get fields "length"
  | _ => VUndefined
  end.

Definition set_generalSchema (schema : Schema) : M unit :=
  fun w =>
    ({| conn := conn w; generalSchema := Some schema; warnedAlready := warnedAlready w;
        emitted := emitted w; reads := reads w; batches := batches w |}, Ok tt).

Definition getGeneralSchema : M Schema :=
  fun w =>
    match generalSchema w with
    | Some cachedGeneralSchema => (w, Ok cachedGeneralSchema)
    | None =>
        (let! tdxSchema := reading (fun c => getInfoKeys c ["schema"]) in
         match tdxSchema with
         | [] => ret []
         | first :: _ =>
             let! schema :=
               lift (assign_default (or_default (get first "schema") (VObj []))
                                    "dataSchema" (VObj [])) in
             let! thisGeneralSchema :=
               lift (Converter.convertSchema (Converter.property schema "dataSchema")) in
             let! _ := set_generalSchema thisGeneralSchema in
             ret thisGeneralSchema
         end) w
    end.

Definition newline : string := String "010"%char EmptyString.

(** [Object.entries(v)] *)
Definition Object_entries (v : value) : outcome (list (string * value)) :=
  match v with
  | VUndefined | VNull => Throw (TypeError "Cannot convert undefined or null to object")
  | VBool _ | VNum _ => Ok []
  | VObj fields => Ok fields
  | VArr _ | VStr _ => Ok (Converter.entries_of v)
  end.

(** The callback of [options.schema.uniqueIndex.map]. *)
Definition primaryKeyStr (value : Js.value) : outcome string :=
  do entries <- Object_entries value;
  match entries with
  | [(sortOrder, sortKey)] =>
      let sqliteSortTypes :=
        [("asc", SQLITE_SORT_TYPE_ASC); ("desc", SQLITE_SORT_TYPE_DESC)] in
      match member_text sqliteSortTypes sortOrder with
      | Some sortType => Ok (toString sortKey +:+ " " +:+ sortType)
      | None =>
          Throw (Error ("[sqlite-manager]: uniqueIndex sortOrder should be in "
                        +:+ join (Object_keys sqliteSortTypes) +:+ ". "
                        +:+ "Instead got " +:+ toString value +:+ "."))
      end
  | _ =>
      Throw (Error ("[sqlite-manager]: uniqueIndex Object should have one key. "
                    +:+ "Object: " +:+ toString value +:+ " has "
                    +:+ string_of_N (N.of_nat (length entries)) +:+ " keys."))
  end.

(** The first four statements of [createDataset]: the options with [id],
    [schema], [schema.dataSchema] and [schema.uniqueIndex] filled in. *)
Definition fill_options (fresh : string) (options : object) : outcome object :=
  let options := set_field options "id" (or_default (get options "id") (VStr fresh)) in
  let schema0 := or_default (get options "schema") (VObj []) in
  do schema1 <- assign_default schema0 "dataSchema" (VObj []);
  do schema2 <- assign_default schema1 "uniqueIndex" (VArr []);
  Ok (set_field options "schema" schema2).

Definition index_without_schema (schema : value) : bool :=
  isEmpty (Converter.property schema "dataSchema")
  && truthy (length_of (Converter.property schema "uniqueIndex")).

Definition schemas_dont_coincide (stored current : value) : JsError :=
  Error ("[sqlite-manager]: schemas don't coincide"
         +:+ "Original schema was: " +:+ toString stored +:+ "." +:+ newline
         +:+ "Current schema is " +:+ toString current +:+ "." +:+ newline).

Definition index_doesnt_match : JsError :=
  Error "[sqlite-manager]: index doesn't match schema.".

(** [_.map(options, (value, key) => { const pair = {}; pair[key] = value;
    return pair; })] *)
Definition option_pairs (options : object) : list object :=
  map (fun kv => assign [] (property_name (fst kv)) (snd kv)) (forEach_entries options).

Definition createDataset (options : object) : M value :=
  fun w0 =>
  (let! options := lift (fill_options (shortid_generate (conn w0)) options) in
   let schema := get options "schema" in
   if index_without_schema schema then throw index_doesnt_match
   else
     let! infoExists := reading checkInfoTable in
     if infoExists : bool then
       let! pair := reading (fun c => getInfoKeys c ["id"; "schema"]) in
       match pair with
       | p0 :: p1 :: _ =>
           let id := or_default (get p0 "id") (VStr "") in
           let stored := or_default (get p1 "schema") (VObj []) in
           if negb (isEqual stored schema)
           then throw (schemas_dont_coincide stored schema)
           else ret id
       | _ => throw (TypeError "Cannot read properties of undefined")
       end
     else
       let! _ := changing createInfoTable in
       let! _ := changing (fun c => setInfoKeys c (option_pairs options)) in
       let! schema' := getGeneralSchema in
       let sqliteSchemaKeys :=
         map (fun kv => fst kv +:+ " " +:+ type_name (snd kv)) (Converter.mapSchema schema') in
       let tableColumnStr := join sqliteSchemaKeys in
       let! sqlitePrimaryKeyStrArr :=
         match Converter.property schema "uniqueIndex" with
         | VArr items => lift (omap primaryKeyStr items)
         | _ => throw (TypeError "options.schema.uniqueIndex.map is not a function")
         end in
       let sqlitePrimaryKeyStr := join sqlitePrimaryKeyStrArr in
       let! _ :=
         if negb (String.eqb tableColumnStr "") then
           let! _ :=
             changing (fun c => runAsync c
               ("CREATE TABLE " +:+ DATABASE_DATA_TABLE_NAME +:+ "(" +:+ tableColumnStr +:+ ")")) in
           if negb (String.eqb sqlitePrimaryKeyStr "") then
             changing (fun c => runAsync c
               ("CREATE UNIQUE INDEX " +:+ DATABASE_TABLE_INDEX_NAME +:+ " ON "
                +:+ DATABASE_DATA_TABLE_NAME +:+ "(" +:+ sqlitePrimaryKeyStr +:+ ")"))
           else ret tt
         else ret tt in
       ret (get options "id")) w0.

(** [[].concat(data)]: one row or an array of rows. *)
Inductive Data : Type :=
| OneRow (row : object)
| Rows (rows : list object).

Definition concat_data (data : Data) : list object :=
  match data with
  | OneRow row => [row]
  | Rows rows => rows
  end.

Definition extra_fields_warning (schema : Schema) (row : object) : string :=
  "Ignoring extra fields in row that were not in schema. "
  +:+ "Row was: " +:+ stringify (VObj row) +:+ " and extra keys were: "
  +:+ join (List.filter (fun col => negb (key_in col schema)) (Object_keys row)).

(** The callback of [dataToConvert.map] in [addData]. *)
Definition onlySchemaColumnRow (schema : Schema) (row : object) : M object :=
  let picked := pick row (Object_keys schema) in
  let! _ :=
    if negb (Nat.eqb (length (Object_keys row)) (length (Object_keys picked)))
    then warn (extra_fields_warning schema row) "ExtraFields" "AddDataExtraFields"
    else ret tt in
  ret picked.

(** [sqliteHelper.executeMany(db, creator, data)] on this connection. *)
Definition run_executeMany (creator : SQLiteStatementCreator) (data : list object)
  : M (list value) :=
  fun w =>
    let (st, thrown) := issue creator data in
    let (c, engine) := serialized (conn w) (commands st) in
    let w' := {| conn := c; generalSchema := generalSchema w;
                 warnedAlready := warnedAlready w; emitted := emitted w;
                 reads := reads w; batches := batches w ++ [commands st] |} in
    match settle engine (commands st) thrown with
    | Resolved result => (w', Ok result)
    | Rejected reason => (w', Throw reason)
    | Pending => (w', Throw (Error "pending"))
    end.

(** [infoTable[0].schema.uniqueIndex] *)
Definition uniqueIndex_of (infoTable : list object) : outcome value :=
  match infoTable with
  | [] => Throw (TypeError "Cannot read properties of undefined")
  | first :: _ =>
      match get first "schema" with
      | VUndefined | VNull => Throw (TypeError "Cannot read properties of undefined")
      | schema => Ok (Converter.property schema "uniqueIndex")
      end
  end.

Definition addData (data : Data) : M nat :=
  let! schema := getGeneralSchema in
  let dataToConvert := concat_data data in
  let! onlySchemaColumns := mapM (onlySchemaColumnRow schema) dataToConvert in
  let ndarrayKeys := findCollectionKeys schema NDARRAY in
  let! arrayProcData :=
    match ndarrayKeys with
    | [] => ret onlySchemaColumns
    | _ => changing (fun c => writeNdarrayMany c onlySchemaColumns ndarrayKeys)
    end in
  let! sqlData := lift (omap (convertRowToSqlite schema) arrayProcData) in
  let! infoTable := reading (fun c => getInfoKeys c ["schema"]) in
  let! uniqueIndex := lift (uniqueIndex_of infoTable) in
  let upsert := false in
  let makeSqlStatementStr :=
    fun dataRowKeys => insertStatement uniqueIndex schema dataRowKeys upsert in
  let! _ := run_executeMany makeSqlStatementStr sqlData in
  ret (length sqlData).

Definition getResource (noThrow : bool) : M value :=
  let keysToDisplayKeys := INFO_TABLE_KEYS_TO_TDX_RESOURCE_KEYS in
  if noThrow
  then throw (Error "noThrow is currently unimplemented, just try/catch your code")
  else
    let! infoKeys := reading (fun c => getInfoKeys c (Object_keys keysToDisplayKeys)) in
    let resource :=
      fold_left (fun res kd => set_field res (snd kd) VNull) keysToDisplayKeys [] in
    let display key :=
      match member_text keysToDisplayKeys key with
      | Some displayKey => displayKey
      | None => "undefined"
      end in
    ret (VObj (fold_left
                 (fun res infoKey =>
                    fold_left (fun res' kv => set_field res' (display (fst kv)) (snd kv))
                              infoKey res)
                 infoKeys resource)).

(** The limit of the select query. *)
Definition query_limit (limit : option Z) : Z :=
  let queryLimit := SQLITE_QUERY_LIMIT in
  match limit with
  | Some limit =>
      if negb (limit =? 0)%Z && ((limit <? queryLimit)%Z || (limit <? 0)%Z)
      then limit
      else queryLimit
  | None => queryLimit
  end.

(** The offset: set only for a truthy [skip]. *)
Definition query_offset (skip : option Z) : option Z :=
  match skip with
  | Some skip => if (skip =? 0)%Z then None else Some skip
  | None => None
  end.

(** The sort order: [1] ascending, [-1] descending, anything else left out. *)
Definition query_order (sort : object) : option (list (string * string)) :=
  let sortQuery :=
    fold_left
      (fun sortQuery kv =>
         let key := property_name (fst kv) in
         match snd kv with
         | VNum 1 => assign sortQuery key SQLITE_SORT_TYPE_ASC
         | VNum (-1) => assign sortQuery key SQLITE_SORT_TYPE_DESC
         | _ => sortQuery
         end)
      (forEach_entries sort) [] in
  match sortQuery with
  | [] => None
  | _ => Some sortQuery
  end.

(** [excludedColumns.splice(excludedColumns.indexOf(key), 1)] when the key is
    found. *)
Fixpoint remove_first (key : string) (excludedColumns : list string) : list string :=
  match excludedColumns with
  | [] => []
  | c :: rest => if String.eqb c key then rest else c :: remove_first key rest
  end.

(** [excludedColumns.indexOf(key)] compares with [===]: an index, which is a
    number, is none of the column names. *)
Definition exclude (key : Js.key) (excludedColumns : list string) : list string :=
  match key with
  | Name s => remove_first s excludedColumns
  | Index _ => excludedColumns
  end.

(** The loop over the projection: included columns and what is left of the
    schema's columns. *)
Definition projection_loop (schema : Schema) (projection : object)
  : list key * list string :=
  fold_left
    (fun acc kv =>
       let '(includedColumns, excludedColumns) := acc in
       if key_in (property_name (fst kv)) schema then
         if truthy (snd kv) then (includedColumns ++ [fst kv], excludedColumns)
         else (includedColumns, exclude (fst kv) excludedColumns)
       else acc)
    (forEach_entries projection) ([], Object_keys schema).

Definition query_columns (includedColumns : list key) (excludedColumns : list string)
  : option (list key) :=
  match includedColumns with
  | _ :: _ => Some includedColumns
  | [] =>
      match excludedColumns with
      | _ :: _ => Some (map Name excludedColumns)
      | [] => None
      end
  end.

(** [includedColumns[0] || ""], as the name of a property: index 0 is falsy. *)
Definition distinctKey_of (includedColumns : list key) : string :=
  match includedColumns with
  | Name s :: _ => s
  | Index (S i) :: _ => property_name (Index (S i))
  | Index 0 :: _ => ""
  | [] => ""
  end.

(** The select query of a read: lines 600 to 667 of sqlite-manager.js. *)
Definition selectQuery_of (schema : Schema) (distinct : bool) (filter : value)
  (projection : object) (options : Options) : SelectQuery :=
  let (includedColumns, excludedColumns) := projection_loop schema projection in
  {| q_distinct := distinct;
     q_table := DATABASE_DATA_TABLE_NAME;
     q_type := "select";
     q_where := filter;
     q_limit := query_limit (limit options);
     q_offset := query_offset (skip options);
     q_order := query_order (match sort options with Some s => s | None => [] end);
     q_columns := query_columns includedColumns excludedColumns |}.

(** The column list after [builder.sql]: the query builder (mongo-sql, an
    external library) gives a select query without a column list the list
    of the star alone, which the first early return tests for. *)
Definition columns_after_builder (q : SelectQuery) : list key :=
  match q_columns q with
  | Some columns => columns
  | None => [Name "*"]
  end.

Definition with_read (w : World Conn) (t : Translation) : World Conn :=
  {| conn := conn w; generalSchema := generalSchema w; warnedAlready := warnedAlready w;
     emitted := emitted w; reads := reads w ++ [t]; batches := batches w |}.

(** [db.allAsync(query, values)], recorded. *)
Definition read_rows (t : Translation) : M (list object) :=
  fun w => (with_read w t, allAsync (conn w) t).

Definition convert_row (schema : Schema) (row : object) : outcome object :=
  (fix loop (fields : list (key * value)) (convertedRow : object) : outcome object :=
     match fields with
     | [] => Ok convertedRow
     | (key, value) :: rest =>
         do v <- Converter.convertToTdx (lookup_field (property_name key) schema) value;
         loop rest (assign convertedRow (property_name key) v)
     end) (forEach_entries row) [].

(** [row[distinctKey]] is read as the row's own field (a row the engine
    answers has the columns that were selected). *)
Definition getDataQuery (distinct : bool) (filter : option value)
  (projection : option object) (options : option Options) : M QueryResult :=
  let filter := match filter with Some f => or_default f (VObj []) | None => VObj [] end in
  let projection := match projection with Some p => p | None => [] end in
  let options := match options with Some o => o | None => no_options end in
  let nqmMeta := match nqmMeta options with Some b => b | None => false end in
  let! schema := getGeneralSchema in
  let selectQuery := selectQuery_of schema distinct filter projection options in
  let includedColumns := fst (projection_loop schema projection) in
  let distinctKey := distinctKey_of includedColumns in
  let! sqliteTranslation := lift (builder_sql selectQuery) in
  let columns := columns_after_builder selectQuery in
  let! result :=
    if distinct then ret (DistinctValues [])
    else
      let! metaData := if nqmMeta then getResource false else ret (VObj []) in
      ret (DatasetData [] metaData "") in
  if match columns with [Name c] => String.eqb c "*" | _ => false end then ret result
  else if distinct && negb (Nat.eqb (length includedColumns) 1) then ret result
  else if match lookup_field distinctKey schema with
          | Some NDARRAY => distinct
          | _ => false
          end then ret result
  else
    let! rows := read_rows sqliteTranslation in
    let compound :=
      schema_includes schema NDARRAY || schema_includes schema OBJECT
      || schema_includes schema ARRAY in
    match result with
    | DistinctValues _ =>
        let! values :=
          lift (omap (fun row =>
                        if compound
                        then Converter.convertToTdx (lookup_field distinctKey schema)
                                                    (get row distinctKey)
                        else Ok (get row distinctKey)) rows) in
        ret (DistinctValues values)
    | DatasetData _ metaData metaDataUrl =>
        let! data :=
          if compound then lift (omap (convert_row schema) rows) else ret rows in
        let ndarrayKeys := findCollectionKeys schema NDARRAY in
        let! data :=
          match ndarrayKeys with
          | [] => ret data
          | _ => reading (fun c => readNdarrayMany c data ndarrayKeys)
          end in
        ret (DatasetData data metaData metaDataUrl)
    end.

Definition getDatasetData (filter : option value) (projection : option object)
  (options : option Options) : M QueryResult :=
  getDataQuery false filter projection options.

Definition getData (filter : option value) (projection : option object)
  (options : option Options) : M QueryResult :=
  getDataQuery false filter projection options.

Definition getDistinct (key : string) (filter : option value) : M QueryResult :=
  let projection := if String.eqb key "" then [] else assign [] key (VNum 1) in
  getDataQuery true filter (Some projection) (Some no_options).

End WithCollaborators.
End Manager.

(* ------------------------------------------------------------------ *)
(** ** Notions the properties are stated with *)
(* ------------------------------------------------------------------ *)

Module Properties.
Import Js.

(** *** ValueCodec *)

(** The options object whose [onlyStringify] is set. *)
Definition only_stringify : value := VObj [("onlyStringify", VBool true)].

(** [convertToTdx(t, convertToSqlite(t, v, options))] *)
Definition round_trip (options : value) (t : GeneralType) (v : value) : outcome value :=
  do stored <- Converter.convertToSqlite (Some t) v options;
  Converter.convertToTdx (Some t) stored.

(** The values a column of a general type holds. *)
Definition valid_under (t : GeneralType) (v : value) : bool :=
  match t, v with
  | TEXT, VStr _ => true
  | INTEGER, VNum _ | REAL, VNum _ => true
  | NUMERIC, VNum _ | NUMERIC, VBool _ => true
  | OBJECT, VObj _ => is_json v
  | ARRAY, VArr _ => is_json v
  | _, _ => false
  end.

Definition numeric (t : GeneralType) : bool :=
  match t with
  | INTEGER | REAL | NUMERIC => true
  | _ => false
  end.

(** *** SchemaConverter *)




(** *** BatchTransactionExecutor *)

(** The parts of what was submitted: statement text run directly, statements
    prepared, statement executions, statements finalized. *)
Definition runs (cmds : list Helper.Cmd) : list string :=
  flat_map (fun c => match c with Helper.Run sql => [sql] | _ => [] end) cmds.

Definition prepares (cmds : list Helper.Cmd) : list (nat * string) :=
  flat_map (fun c => match c with Helper.Prepare st sql => [(st, sql)] | _ => [] end) cmds.

Definition statement_runs (cmds : list Helper.Cmd) : list (nat * list value) :=
  flat_map (fun c => match c with Helper.StatementRun st params => [(st, params)] | _ => [] end)
           cmds.

Definition finalized (cmds : list Helper.Cmd) : list nat :=
  flat_map (fun c => match c with Helper.Finalize st => [st] | _ => [] end) cmds.

(** The cache key of a row: [dataRowKeys.join()]. *)
Definition key_of (row : object) : string := join (Object_keys row).

(** The number of distinct ColumnSetKeys (ordered key lists) of a batch. *)
Definition distinct_column_sets (data : list object) : nat :=
  length (nodup (List.list_eq_dec string_dec) (map Object_keys data)).

(** The first error the connection reports to a callback of [db.prepare] or
    [statement.run]. *)
Fixpoint first_row_error (engine : Helper.Engine) (pos : nat) (cmds : list Helper.Cmd)
  : option string :=
  match cmds with
  | [] => None
  | c :: cmds' =>
      match c with
      | Helper.Prepare _ _ | Helper.StatementRun _ _ =>
          match engine pos with
          | Some error => Some error
          | None => first_row_error engine (S pos) cmds'
          end
      | _ => first_row_error engine (S pos) cmds'
      end
  end.

(** The error recorded while the rows were submitted and run: the exception
    that ended the loop, else the first error reported for a row. *)
Definition recorded_error (engine : Helper.Engine) (cmds : list Helper.Cmd)
  (thrown : option JsError) : option JsError :=
  match thrown with
  | Some e => Some e
  | None =>
      match first_row_error engine 0 cmds with
      | Some error => Some (Helper.wrap error)
      | None => None
      end
  end.

(** C2 as stated: K statements are compiled, the statement creator is called
    K times, and each compiled statement is finalized exactly once. *)
Definition compiles_once_per_column_set (creator : Helper.SQLiteStatementCreator)
  (data : list object) : Prop :=
  let st := fst (Helper.issue creator data) in
  let K := distinct_column_sets data in
  length (prepares (Helper.commands st)) = K
  /\ length (Helper.creatorCalls st) = K
  /\ forall id, In id (map fst (prepares (Helper.commands st))) ->
                count_occ Nat.eq_dec (finalized (Helper.commands st)) id = 1.

(** The statements are finalized after the commit, in the block that
    submits the batch: what is submitted ends with the commit and one
    finalize for each statement prepared before it. *)
Definition finalizes_after_commit (creator : Helper.SQLiteStatementCreator)
  (data : list object) : Prop :=
  exists rows,
    Helper.commands (fst (Helper.issue creator data))
    = Helper.Run Helper.BEGIN_TRANSACTION :: rows
      ++ Helper.Run Helper.COMMIT_TRANSACTION
         :: map Helper.Finalize (map fst (prepares rows))
    /\ finalized rows = [] /\ runs rows = [].

(** The cache of a state is in order: distinct keys, statements numbered
    from 0 in insertion order. *)
Definition cache_ok (st : Helper.Issued) : Prop :=
  List.NoDup (map fst (Helper.cachedStatements st))
  /\ map snd (Helper.cachedStatements st) = seq 0 (length (Helper.cachedStatements st)).


(** The state the loop over the rows starts from. *)
Definition initial : Helper.Issued :=
  {| Helper.cachedStatements := [];
     Helper.commands := [Helper.Run Helper.BEGIN_TRANSACTION];
     Helper.creatorCalls := [] |}.

(** The number of rows whose statement was submitted. *)
Definition executed (creator : Helper.SQLiteStatementCreator) (data : list object) : nat :=
  length (statement_runs (Helper.commands (fst (Helper.issue creator data)))).


(** A statement creator that always throws, one that always answers, and
    rows for the examples. *)
Definition throwing_creator : Helper.SQLiteStatementCreator :=
  fun _ => Throw (Error "no statement").

Definition insert_creator : Helper.SQLiteStatementCreator :=
  fun dataRowKeys => Ok ("INSERT INTO data (" +:+ join dataRowKeys +:+ ") VALUES (...)").

Definition row_a : object := [("a", VNum 1)].
Definition row_b : object := [("b", VNum 2)].

(** *** QueryShaper *)

(** C6 as stated: the cap when no limit is given, the limit itself when it
    lies in (0, cap], the cap otherwise. *)
Definition limit_as_claimed (cap : Z) (limit : option Z) (result : Z) : Prop :=
  match limit with
  | None => result = cap
  | Some l => if (0 <? l)%Z && (l <=? cap)%Z then result = l else result = cap
  end.




(** The column list of a select query; none is the empty list. *)
Definition resolved_columns (q : Manager.SelectQuery) : list key :=
  match Manager.q_columns q with
  | Some columns => columns
  | None => []
  end.


(** No key of the object is the name of a member of [Object.prototype]. *)
Definition ordinary_keys {A : Type} (fields : list (string * A)) : bool :=
  forallb (fun k => negb (inherited k)) (Object_keys fields).

(** The types whose values are serialized or kept outside the row. *)
Definition compound (t : GeneralType) : bool :=
  match t with
  | ARRAY | OBJECT | NDARRAY => true
  | _ => false
  end.

(** The select query a read builds from its arguments. *)
Definition query_of `{Constants} (schema : Schema) (distinct : bool) (filter : option value)
  (projection : option object) (options : option Manager.Options) : Manager.SelectQuery :=
  Manager.selectQuery_of schema distinct
    (match filter with Some f => or_default f (VObj []) | None => VObj [] end)
    (match projection with Some p => p | None => [] end)
    (match options with Some o => o | None => Manager.no_options end).

(** The columns a read includes explicitly. *)
Definition included_columns (schema : Schema) (projection : option object) : list key :=
  fst (Manager.projection_loop schema (match projection with Some p => p | None => [] end)).

(** C8 as stated, for a distinct query on [key]: when the column has a
    compound or externalized type the result is empty and nothing is read. *)
Definition distinct_compound_reads_nothing `{Constants} {Conn : Type}
  `{Manager.Collaborators Conn} (w : Manager.World Conn) (key : string)
  (filter : option value) : Prop :=
  forall schema t,
    Manager.generalSchema w = Some schema ->
    lookup_field key schema = Some t -> compound t = true ->
    snd (Manager.getDistinct key filter w) = Ok (Manager.DistinctValues [])
    /\ Manager.reads (fst (Manager.getDistinct key filter w)) = Manager.reads w.

(** Two worlds that differ at most in the database and the cached schema. *)
Definition same_process {Conn : Type} (w w' : Manager.World Conn) : Prop :=
  Manager.warnedAlready w' = Manager.warnedAlready w
  /\ Manager.emitted w' = Manager.emitted w
  /\ Manager.reads w' = Manager.reads w
  /\ Manager.batches w' = Manager.batches w.

(** *** Datasets *)



(** *** Writes *)

(** The code of an emitted warning. *)
Definition warning_code (warning : string * string * string) : string := snd warning.

(** Every code was emitted at most once, and is remembered as warned. *)
Definition warned_once {Conn : Type} (w : Manager.World Conn) : Prop :=
  List.NoDup (map warning_code (Manager.emitted w))
  /\ forall code, In code (map warning_code (Manager.emitted w)) ->
                  code ∈ Manager.warnedAlready w.

(** Two worlds that differ at most in the warnings. *)
Definition same_but_warnings {Conn : Type} (w w' : Manager.World Conn) : Prop :=
  Manager.conn w' = Manager.conn w
  /\ Manager.generalSchema w' = Manager.generalSchema w
  /\ Manager.reads w' = Manager.reads w
  /\ Manager.batches w' = Manager.batches w.

(** A function of the manager that leaves the warnings as they are. *)
Definition keeps_warnings {Conn A : Type} (m : Manager.World Conn -> Manager.World Conn * outcome A)
  : Prop :=
  forall w, Manager.warnedAlready (fst (m w)) = Manager.warnedAlready w
            /\ Manager.emitted (fst (m w)) = Manager.emitted w.

(** A process that calls [addData] several times. *)
Fixpoint addData_all `{Constants} {Conn : Type} `{Manager.Collaborators Conn}
  (calls : list Manager.Data) (w : Manager.World Conn) : Manager.World Conn :=
  match calls with
  | [] => w
  | data :: rest => addData_all rest (fst (Manager.addData data w))
  end.

(** The step of the [reduce] in [pick]. *)
Definition pick_step (obj : object) (res : object) (key : string) : object :=
  match get obj key with
  | VUndefined => res
  | value => set_field res key value
  end.

(** What [addData] does with the rows once the extra fields are gone. *)
Definition write_rows `{Constants} {Conn : Type} `{Manager.Collaborators Conn}
  (schema : Schema) (onlySchemaColumns : list object)
  : Manager.World Conn -> Manager.World Conn * outcome nat :=
  let ndarrayKeys := Manager.findCollectionKeys schema NDARRAY in
  Manager.bind
    (match ndarrayKeys with
     | [] => Manager.ret onlySchemaColumns
     | _ => Manager.changing
              (fun c => Manager.writeNdarrayMany c onlySchemaColumns ndarrayKeys)
     end)
    (fun arrayProcData =>
       Manager.bind (Manager.lift (omap (Manager.convertRowToSqlite schema) arrayProcData))
         (fun sqlData =>
            Manager.bind (Manager.reading (fun c => Manager.getInfoKeys c ["schema"]))
              (fun infoTable =>
                 Manager.bind (Manager.lift (Manager.uniqueIndex_of infoTable))
                   (fun uniqueIndex =>
                      Manager.bind
                        (Manager.run_executeMany
                           (fun dataRowKeys =>
                              Manager.insertStatement uniqueIndex schema dataRowKeys false)
                           sqlData)
                        (fun _ => Manager.ret (length sqlData)))))).

(** The step of [addData] that hands the rows to sqlite-ndarray when the
    schema has NDARRAY columns. *)
Definition ndarray_step `{Constants} {Conn : Type} `{Manager.Collaborators Conn}
  (schema : Schema) (onlySchemaColumns : list object) (c : Conn)
  : Conn * outcome (list object) :=
  match Manager.findCollectionKeys schema NDARRAY with
  | [] => (c, Ok onlySchemaColumns)
  | ndarrayKeys => Manager.writeNdarrayMany c onlySchemaColumns ndarrayKeys
  end.

(** The statement creator answers for every row of the batch. *)
Definition answers_for (creator : Helper.SQLiteStatementCreator) (data : list object) : Prop :=
  forall row, In row data -> exists sql, creator (Object_keys row) = Ok sql.

(** C10 as stated, for one call: it resolves with the number of input rows. *)
Definition resolves_with_count `{Constants} {Conn : Type} `{Manager.Collaborators Conn}
  (data : Manager.Data) (w : Manager.World Conn) : Prop :=
  snd (Manager.addData data w) = Ok (length (Manager.concat_data data)).

(** What the loop over the rows adds to a state whose cache is in order. *)
Record LoopAdds (creator : Helper.SQLiteStatementCreator) (data : list object) (st : Helper.Issued)
  (n : nat) (rc : list Helper.Cmd) (new : list (string * nat)) : Prop := {
  adds_cache : Helper.cachedStatements (fst (Helper.rows_loop creator data st)) = Helper.cachedStatements st ++ new;
  adds_commands : Helper.commands (fst (Helper.rows_loop creator data st)) = Helper.commands st ++ rc;
  adds_ok : cache_ok (fst (Helper.rows_loop creator data st));
  adds_no_run : runs rc = [];
  adds_no_finalize : finalized rc = [];
  adds_prepares : map fst (prepares rc) = map snd new;
  adds_le : n <= length data;
  adds_all : snd (Helper.rows_loop creator data st) = None -> n = length data;
  adds_thrown : forall e, snd (Helper.rows_loop creator data st) = Some e ->
                exists row, nth_error data n = Some row /\ creator (Object_keys row) = Throw e;
  adds_runs :
    Forall2 (fun row run =>
               lookup_field (key_of row) (Helper.cachedStatements (fst (Helper.rows_loop creator data st)))
               = Some (fst run)
               /\ snd run = Object_values row)
            (firstn n data) (statement_runs rc);
  adds_keys : forall k, In k (map fst new) <->
                        In k (map key_of (firstn n data))
                        /\ ~ In k (map fst (Helper.cachedStatements st));
  adds_calls :
    length (Helper.creatorCalls (fst (Helper.rows_loop creator data st)))
    = length (Helper.creatorCalls st) + length new
      + match snd (Helper.rows_loop creator data st) with Some _ => 1 | None => 0 end
}.

End Properties.

(* ------------------------------------------------------------------ *)
(** ** Instances for the examples *)
(* ------------------------------------------------------------------ *)

Module Examples.
Import Js.

(** Values for the constants: the limit of 1000 is the default the
    documentation of [getData] states. *)
Definition constants : Constants :=
  {| TDX_TYPE_INT := "INT";
     TDX_TYPE_REAL_test := fun s => includes s "REAL";
     SQLITE_QUERY_LIMIT := 1000;
     SQLITE_SORT_TYPE_ASC := "ASC";
     SQLITE_SORT_TYPE_DESC := "DESC";
     DATABASE_DATA_TABLE_NAME := "data";
     DATABASE_TABLE_INDEX_NAME := "dataindex";
     INFO_TABLE_KEYS_TO_TDX_RESOURCE_KEYS := [("id", "id"); ("schema", "schemaDefinition")] |}.

(** An in-memory stand-in for the collaborators: the database is its info
    table (absent until created), the engine accepts every command and holds
    no rows, ndarray columns are left as they are, and a row is converted
    column by column with [onlyStringify]. *)
Definition Memory : Type := option object.

Definition memory_getInfoKeys (c : Memory) (keys : list string) : outcome (list object) :=
  match c with
  | Some info =>
      Ok (flat_map (fun k => match lookup_field k info with
                             | Some v => [[(k, v)]]
                             | None => []
                             end) keys)
  | None => Throw (Error "SQLITE_ERROR: no such table: info")
  end.

Definition memory_setInfoKeys (c : Memory) (pairs : list object) : Memory * outcome unit :=
  match c with
  | Some info =>
      (Some (fold_left
               (fun acc pair =>
                  fold_left (fun acc' kv => set_field acc' (fst kv) (snd kv)) pair acc)
               pairs info), Ok tt)
  | None => (None, Throw (Error "SQLITE_ERROR: no such table: info"))
  end.

Fixpoint memory_convertRow (schema : Schema) (row : object) : outcome object :=
  match row with
  | [] => Ok []
  | (k, v) :: rest =>
      do v' <- Converter.convertToSqlite (lookup_field k schema) v Properties.only_stringify;
      do rest' <- memory_convertRow schema rest;
      Ok ((k, v') :: rest')
  end.

Definition memory : Manager.Collaborators Memory :=
  {| Manager.checkInfoTable :=
       fun c => Ok (match c with Some _ => true | None => false end);
     Manager.getInfoKeys := memory_getInfoKeys;
     Manager.createInfoTable := fun _ => (Some [], Ok tt);
     Manager.setInfoKeys := memory_setInfoKeys;
     Manager.runAsync := fun c _ => (c, Ok tt);
     Manager.allAsync := fun _ _ => Ok [];
     Manager.serialized := fun c _ => (c, fun _ => None);
     Manager.builder_sql := fun q => Ok ("select from " +:+ Manager.q_table q, []);
     Manager.writeNdarrayMany := fun c rows _ => (c, Ok rows);
     Manager.readNdarrayMany := fun _ rows _ => Ok rows;
     Manager.insertStatement :=
       fun _ _ dataRowKeys _ =>
         Ok ("INSERT INTO data (" +:+ join dataRowKeys +:+ ") VALUES (...)");
     Manager.convertRowToSqlite := memory_convertRow;
     Manager.shortid_generate := fun _ => "generated" |}.

(** The same, over an engine that answers every read with the given rows. *)
Definition answering (rows : list object) : Manager.Collaborators Memory :=
  {| Manager.checkInfoTable := @Manager.checkInfoTable _ memory;
     Manager.getInfoKeys := @Manager.getInfoKeys _ memory;
     Manager.createInfoTable := @Manager.createInfoTable _ memory;
     Manager.setInfoKeys := @Manager.setInfoKeys _ memory;
     Manager.runAsync := @Manager.runAsync _ memory;
     Manager.allAsync := fun _ _ => Ok rows;
     Manager.serialized := @Manager.serialized _ memory;
     Manager.builder_sql := @Manager.builder_sql _ memory;
     Manager.writeNdarrayMany := @Manager.writeNdarrayMany _ memory;
     Manager.readNdarrayMany := @Manager.readNdarrayMany _ memory;
     Manager.insertStatement := @Manager.insertStatement _ memory;
     Manager.convertRowToSqlite := @Manager.convertRowToSqlite _ memory;
     Manager.shortid_generate := @Manager.shortid_generate _ memory |}.

(** The same, over an engine that, as SQLite does, refuses to prepare an
    insert that names no column. *)
Definition parsing : Manager.Collaborators Memory :=
  {| Manager.checkInfoTable := @Manager.checkInfoTable _ memory;
     Manager.getInfoKeys := @Manager.getInfoKeys _ memory;
     Manager.createInfoTable := @Manager.createInfoTable _ memory;
     Manager.setInfoKeys := @Manager.setInfoKeys _ memory;
     Manager.runAsync := @Manager.runAsync _ memory;
     Manager.allAsync := @Manager.allAsync _ memory;
     Manager.serialized :=
       fun c cmds =>
         (c, fun pos =>
               match nth_error cmds pos with
               | Some (Helper.Prepare _ sql) =>
                   if String.eqb sql "INSERT INTO data () VALUES (...)"
                   then Some "SQLITE_ERROR: syntax error"
                   else None
               | _ => None
               end);
     Manager.builder_sql := @Manager.builder_sql _ memory;
     Manager.writeNdarrayMany := @Manager.writeNdarrayMany _ memory;
     Manager.readNdarrayMany := @Manager.readNdarrayMany _ memory;
     Manager.insertStatement := @Manager.insertStatement _ memory;
     Manager.convertRowToSqlite := @Manager.convertRowToSqlite _ memory;
     Manager.shortid_generate := @Manager.shortid_generate _ memory |}.

(** A world around a database, at the start of a process. *)
Definition world (c : Memory) (schema : option Schema) : Manager.World Memory :=
  {| Manager.conn := c; Manager.generalSchema := schema;
     Manager.warnedAlready := ∅; Manager.emitted := [];
     Manager.reads := []; Manager.batches := [] |}.

End Examples.

(* ------------------------------------------------------------------ *)
(** ** sqlite-manager.js: updates and deletions *)
(* ------------------------------------------------------------------ *)

Module Updates.
Import Js Helper Manager.

(** sqlite-statement-creator.js, for the statements other than inserts. *)
Class StatementCreator : Type := {
  updateStatement : value -> Schema -> list string -> outcome string;
  deleteStatement : value -> list string -> outcome string
}.

(** A [CommandResult]: [commandId], [response], [result.commit] and
    [result.errors]. *)
Record CommandResult : Type := {
  commandId : string;
  response : value;
  commit : list value;
  errors : list JsError
}.

Section WithCollaborators.
Context `{Constants} {Conn : Type} `{Collaborators Conn} `{StatementCreator}.

Notation "'let!' x ':=' m 'in' k" := (bind m (fun x => k))
  (at level 10, x name, m at level 100, k at level 200).

(** The three identifiers are the ones [shortid.generate] gives the call. *)
Definition makeEmptyCommandResult (generated : string * string * string) : CommandResult :=
  let '(id1, id2, id3) := generated in
  {| commandId := id1 +:+ id2 +:+ id3;
     response := VNull;
     commit := [];
     errors := [] |}.

Definition updateData (generated : string * string * string) (data : Data)
  (upsert throws : option bool) : @M Conn CommandResult :=
  let upsert := match upsert with Some b => b | None => false end in
  let throws := match throws with Some b => b | None => true end in
  let! schema := getGeneralSchema in
  let dataToConvert := concat_data data in
  let! sqlData := lift (omap (convertRowToSqlite schema) dataToConvert) in
  let! infoTable := reading (fun c => getInfoKeys c ["schema"]) in
  let! uniqueIndex := lift (uniqueIndex_of infoTable) in
  let makeSqlStatementStr :=
    if upsert
    then fun dataRowKeys => insertStatement uniqueIndex schema dataRowKeys upsert
    else fun dataRowKeys => updateStatement uniqueIndex schema dataRowKeys in
  fun w =>
    let (w', promisedResult) := run_executeMany makeSqlStatementStr sqlData w in
    let commandResult := makeEmptyCommandResult generated in
    match promisedResult with
    | Throw error =>
        if throws then (w', Throw error)
        else (w', Ok {| commandId := commandId commandResult;
                        response := response commandResult;
                        commit := commit commandResult;
                        errors := errors commandResult ++ [error] |})
    | Ok _ =>
        (w', Ok {| commandId := commandId commandResult;
                   response := VStr "Success";
                   commit := commit commandResult;
                   errors := errors commandResult |})
    end.

Definition doNotThrow_unimplemented : JsError :=
  Error "doNotThrow is currently unimplemented, just try/catch your code".

Definition no_uniqueIndex : JsError :=
  Error ("Cannot use deleteData() on a dataset with no uniqueIndex."
         +:+ " Try using deleteDataByQuery() instead.").

Definition deleteData (data : Data) (doNotThrow : bool) : @M Conn unit :=
  if doNotThrow then throw doNotThrow_unimplemented
  else
    let! schema := getGeneralSchema in
    let dataToConvert := concat_data data in
    let! sqlData := lift (omap (convertRowToSqlite schema) dataToConvert) in
    let! infoTable := reading (fun c => getInfoKeys c ["schema"]) in
    let! uniqueIndex := lift (uniqueIndex_of infoTable) in
    match uniqueIndex with
    | VUndefined | VNull => throw (TypeError "Cannot read properties of undefined")
    | _ =>
        if match length_of uniqueIndex with VNum 0 => true | _ => false end
        then throw no_uniqueIndex
        else
          let makeSqlStatementStr :=
            fun dataRowKeys => deleteStatement uniqueIndex dataRowKeys in
          let! _ := run_executeMany makeSqlStatementStr sqlData in
          ret tt
    end.

End WithCollaborators.
End Updates.

(* ------------------------------------------------------------------ *)
(** ** The earlier versions kept with the sources *)
(* ------------------------------------------------------------------ *)

(** [helper.executeInsert] (the earlier sqlite-helper.js) and [manager.addData]
    of the earlier sqlite-manager.js, which binds one value per schema column
    and stores with [onlyStringify]. *)
Module Legacy.
Import Js Helper.

(** [sqliteConstants.SQLITE_NULL_VALUE], whose value the sources do not give. *)
Class NullValue : Type := {
  SQLITE_NULL_VALUE : value
}.

(** What [addData] binds for a column: a value, or the member of
    [Object.prototype] the element inherits under the column's name. *)
Inductive Bound : Type :=
| Value (v : value)
| Inherited (member : string).

(** The callbacks of [db.prepare] and [statement.run], in queue order: the
    first error rejects the promise, and every error calls
    [statement.finalize()] once more. *)
Fixpoint insert_callbacks (engine : Engine) (pos : nat) (cmds : list Cmd)
  (rejected : option JsError) (finalizeCalls : nat) : option JsError * nat :=
  match cmds with
  | [] => (rejected, finalizeCalls)
  | c :: cmds' =>
      match c with
      | Prepare _ _ | StatementRun _ _ =>
          match engine pos with
          | Some error =>
              insert_callbacks engine (S pos) cmds'
                (match rejected with Some e => Some e | None => Some (Error error) end)
                (S finalizeCalls)
          | None => insert_callbacks engine (S pos) cmds' rejected finalizeCalls
          end
      | _ => insert_callbacks engine (S pos) cmds' rejected finalizeCalls
      end
  end.

(** What is submitted inside [db.serialize], the number of calls of
    [statement.finalize] in all, and how the promise is settled
    ([Ok]: resolved, [Throw]: rejected). *)
Definition executeInsert (engine : Engine) (query : string) (data : list (list value))
  : list Cmd * nat * outcome value :=
  let cmds := Prepare 0 query :: map (StatementRun 0) data ++ [Finalize 0] in
  let (rejected, finalizeCalls) := insert_callbacks engine 0 cmds None 1 in
  (cmds, finalizeCalls,
   match rejected with
   | Some error => Throw error
   | None => Ok (VObj [("count", VNum (Z.of_nat (length data)))])
   end).

Section WithConstants.
Context `{Constants} `{NullValue}.

(** The loop over the column names: [tableColumnStr] and [sqliteValue]. *)
Definition column_strings (columnNames : list string) : string * string :=
  fold_left
    (fun acc ic =>
       let '(tableColumnStr, sqliteValue) := acc in
       let '(idx, column) := ic in
       let comma :=
         if (Z.of_nat idx <? Z.of_nat (length columnNames) - 1)%Z then "," else "" in
       (tableColumnStr +:+ (column +:+ comma), sqliteValue +:+ ("?" +:+ comma)))
    (combine (seq 0 (length columnNames)) columnNames) ("", "").

(** [convertToSqlite(type, member, {onlyStringify: true})] for a member of
    [Object.prototype]: [JSON.stringify] gives [undefined] for a function and
    the text of the empty object for the prototype itself; TEXT and the
    numeric types pass the member on. *)
Definition convertToSqlite_member (type : option GeneralType) (member : string) : Bound :=
  match type with
  | Some OBJECT | Some ARRAY =>
      Value (if String.eqb member "__proto__" then VStr "{}" else VUndefined)
  | Some NUMERIC | Some INTEGER | Some REAL | Some TEXT => Inherited member
  | _ => Value VNull
  end.

(** The inner loop: what is bound for one element, one parameter per
    column.  [element[column]] is the element's own field, else the member it
    inherits under that name, else [undefined]. *)
Definition row_of (generalSchema : Schema) (element : object) : outcome (list Bound) :=
  omap (fun column =>
          match lookup_field column element with
          | Some VUndefined => Ok (Value SQLITE_NULL_VALUE)
          | Some v =>
              do transformedValue <-
                Converter.convertToSqlite (lookup_field column generalSchema) v
                  (VObj [("onlyStringify", VBool true)]);
              Ok (Value transformedValue)
          | None =>
              if inherited column
              then Ok (convertToSqlite_member (lookup_field column generalSchema) column)
              else Ok (Value SQLITE_NULL_VALUE)
          end)
       (Object_keys generalSchema).

(** [manager.addData] up to its last line: the query and the rows it hands
    to [helper.executeInsert]. *)
Definition addData (generalSchema : Schema) (data : Manager.Data)
  : outcome (string * list (list Bound)) :=
  let columnNames := Object_keys generalSchema in
  let sqlData := Manager.concat_data data in
  let (tableColumnStr, sqliteValue) := column_strings columnNames in
  do queryData <- omap (row_of generalSchema) sqlData;
  let insertQuery :=
    "INSERT INTO " +:+ DATABASE_DATA_TABLE_NAME +:+ " (" +:+ tableColumnStr
    +:+ ") VALUES (" +:+ sqliteValue +:+ ");" in
  Ok (insertQuery, queryData).

End WithConstants.
End Legacy.

(* ------------------------------------------------------------------ *)
(** ** Notions the further properties are stated with *)
(* ------------------------------------------------------------------ *)

Module Invariants.
Import Js.

(** *** Schemas *)

(** A schema entry that describes a column: an array or an object. *)
Definition described (d : value) : bool :=
  match d with
  | VArr _ | VObj _ => true
  | _ => false
  end.

(** *** The connection protocol *)

(** The statements that are prepared and not yet finalized, and whether a
    transaction is open; [None] once a command comes out of order: a
    statement is prepared and run inside the transaction only, run only
    while it is prepared, and finalized once, outside the transaction. *)
Definition protocol_step (state : list nat * bool) (c : Helper.Cmd)
  : option (list nat * bool) :=
  let '(prepared, in_transaction) := state in
  match c with
  | Helper.Run sql =>
      if String.eqb sql Helper.BEGIN_TRANSACTION then
        if in_transaction then None else Some (prepared, true)
      else if String.eqb sql Helper.COMMIT_TRANSACTION then
        if in_transaction then Some (prepared, false) else None
      else None
  | Helper.Prepare statement _ =>
      if in_transaction && negb (existsb (Nat.eqb statement) prepared)
      then Some (prepared ++ [statement], true)
      else None
  | Helper.StatementRun statement _ =>
      if in_transaction && existsb (Nat.eqb statement) prepared
      then Some state
      else None
  | Helper.Finalize statement =>
      if negb in_transaction && existsb (Nat.eqb statement) prepared
      then Some (List.filter (fun other => negb (Nat.eqb other statement)) prepared, false)
      else None
  end.

Fixpoint protocol (state : list nat * bool) (cmds : list Helper.Cmd)
  : option (list nat * bool) :=
  match cmds with
  | [] => Some state
  | c :: cmds' =>
      match protocol_step state c with
      | Some state' => protocol state' cmds'
      | None => None
      end
  end.

(** *** Reads *)

(** The direction a value of the [sort] option stands for. *)
Definition sort_direction `{Constants} (v : value) : option string :=
  match v with
  | VNum 1 => Some SQLITE_SORT_TYPE_ASC
  | VNum (-1) => Some SQLITE_SORT_TYPE_DESC
  | _ => None
  end.

(** The keys of the [sort] option that have a direction, in their order. *)
Definition order_list `{Constants} (sort : list (string * value)) : list (string * string) :=
  flat_map (fun kv => match sort_direction (snd kv) with
                      | Some direction => [(fst kv, direction)]
                      | None => []
                      end) sort.

(** A function of the manager that leaves the database, the batches and the
    warnings as they are. *)
Definition writes_nothing {Conn A : Type}
  (m : Manager.World Conn -> Manager.World Conn * outcome A) : Prop :=
  forall w,
    Manager.conn (fst (m w)) = Manager.conn w
    /\ Manager.batches (fst (m w)) = Manager.batches w
    /\ Manager.warnedAlready (fst (m w)) = Manager.warnedAlready w
    /\ Manager.emitted (fst (m w)) = Manager.emitted w.

(** ... and asks the engine for no rows. *)
Definition reads_nothing {Conn A : Type}
  (m : Manager.World Conn -> Manager.World Conn * outcome A) : Prop :=
  writes_nothing m /\ forall w, Manager.reads (fst (m w)) = Manager.reads w.

(** ... or asks it at most once. *)
Definition reads_at_most_once {Conn A : Type}
  (m : Manager.World Conn -> Manager.World Conn * outcome A) : Prop :=
  writes_nothing m
  /\ forall w, Manager.reads (fst (m w)) = Manager.reads w
               \/ exists t, Manager.reads (fst (m w)) = Manager.reads w ++ [t].

End Invariants.

(* ------------------------------------------------------------------ *)
(** ** Further instances for the examples *)
(* ------------------------------------------------------------------ *)

Module MoreExamples.
Import Js.

(** Statement text that names the columns it binds. *)
Definition statements : Updates.StatementCreator :=
  {| Updates.updateStatement :=
       fun _ _ dataRowKeys => Ok ("UPDATE data SET (" +:+ join dataRowKeys +:+ ")");
     Updates.deleteStatement :=
       fun _ dataRowKeys => Ok ("DELETE FROM data WHERE (" +:+ join dataRowKeys +:+ ")") |}.

Definition null_value : Legacy.NullValue :=
  {| Legacy.SQLITE_NULL_VALUE := VNull |}.

(** A database whose info table holds a dataset with one TEXT column and
    no unique index. *)
Definition plain_dataset : Examples.Memory :=
  Some [("id", VStr "d1");
        ("schema", VObj [("dataSchema", VObj [("name", VObj [("__tdxType", VArr [VStr "string"])])]);
                         ("uniqueIndex", VArr [])])].

End MoreExamples.

(* ================================================================== *)
(** * Part II: theorems *)
(* ================================================================== *)

Import Properties.

(** ** The JavaScript fragment: JSON text is read back *)

#[local] Arguments String.append !s1 s2 : simpl nomatch.

Section JsFacts.
Import Js.

Lemma value_rect' (P : value -> Prop) :
  P VUndefined -> P VNull -> (forall b, P (VBool b)) -> (forall n, P (VNum n)) ->
  (forall s, P (VStr s)) ->
  (forall items, Forall P items -> P (VArr items)) ->
  (forall fields, Forall (fun kv => P (snd kv)) fields -> P (VObj fields)) ->
  forall v, P v.
Proof.
  intros HU HN HB HZ HS HA HO.
  fix IH 1.
  intros [ | | b | n | s | items | fields ];
    [exact HU | exact HN | apply HB | apply HZ | apply HS | | ].
  - apply HA. induction items as [|x items IHitems]; constructor; auto.
  - apply HO. induction fields as [|[k x] fields IHfields]; constructor; auto.
Qed.

Lemma append_assoc (a b c : string) : (a +:+ b) +:+ c = a +:+ (b +:+ c).
Proof. induction a as [|x a IHa]; simpl; congruence. Qed.

Lemma append_length (a b : string) :
  String.length (a +:+ b) = String.length a + String.length b.
Proof. induction a as [|x a IHa]; simpl; congruence. Qed.

Lemma parse_chars_escape_char (c : ascii) (s : string) :
  parse_chars (escape_char c +:+ s) = cons_char c (parse_chars s).
Proof. destruct c as [[] [] [] [] [] [] [] []]; reflexivity. Qed.

Lemma parse_chars_escape (s rest : string) :
  parse_chars (escape s +:+ String dquote rest) = Some (s, rest).
Proof.
  induction s as [|c s IHs]; simpl.
  - reflexivity.
  - rewrite append_assoc, parse_chars_escape_char, IHs. reflexivity.
Qed.

Lemma span_digits_uint (d : Decimal.uint) (rest : string) :
  number_ends rest = true ->
  span_digits (NilEmpty.string_of_uint d +:+ rest) = (NilEmpty.string_of_uint d, rest).
Proof.
  intros Hrest. induction d; simpl; try (rewrite IHd; reflexivity).
  destruct rest as [|c rest]; [reflexivity|]. simpl in *.
  destruct (is_digit c); [discriminate|reflexivity].
Qed.

Lemma number_ends_continues rest : number_ends rest = true -> continues_number rest = false.
Proof.
  destruct rest as [|c rest]; [reflexivity|]. unfold number_ends.
  destruct (continues_number (String c rest)); [rewrite andb_false_r; discriminate|reflexivity].
Qed.

Lemma uint_head (u : Decimal.uint) :
  u <> Decimal.Nil ->
  exists c s, NilEmpty.string_of_uint u = String c s /\ is_digit c = true.
Proof. destruct u; intros Hu; try congruence; eexists _, _; split; reflexivity. Qed.

Lemma digit_not_minus c : is_digit c = true -> Ascii.eqb c "-" = false.
Proof.
  destruct c as [[] [] [] [] [] [] [] []]; cbv; intros Hd;
    first [reflexivity | discriminate Hd].
Qed.

Lemma parse_digits (n : N) (rest : string) (neg : bool) :
  number_ends rest = true ->
  (let (ds, rest') := span_digits (string_of_N n +:+ rest) in
   if continues_number rest' then None
   else
     match NilEmpty.uint_of_string ds with
     | Some u =>
         let n := N.of_uint u in
         if String.eqb (string_of_N n) ds
         then Some (if neg : bool then (- Z.of_N n)%Z else Z.of_N n, rest')
         else None
     | None => None
     end) = Some (if neg then (- Z.of_N n)%Z else Z.of_N n, rest).
Proof.
  intros Hrest. unfold string_of_N. rewrite span_digits_uint by assumption.
  rewrite number_ends_continues by assumption.
  rewrite NilEmpty.usu. cbv zeta. rewrite DecimalN.Unsigned.of_to.
  unfold string_of_N. rewrite String.eqb_refl. reflexivity.
Qed.

Lemma N_to_uint_nonnil n : N.to_uint n <> Decimal.Nil.
Proof. destruct n; simpl; [discriminate|apply DecimalPos.Unsigned.to_uint_nonnil]. Qed.

Lemma parse_number_string_of_Z (z : Z) (rest : string) :
  number_ends rest = true ->
  parse_number (string_of_Z z +:+ rest) = Some (z, rest).
Proof.
  intros Hrest. destruct z as [|p|p].
  - change (string_of_Z 0) with (string_of_N 0).
    unfold parse_number. simpl (match _ with String _ _ => _ | _ => _ end).
    apply (parse_digits 0 rest false Hrest).
  - unfold string_of_Z.
    destruct (uint_head (N.to_uint (Npos p)) (N_to_uint_nonnil _)) as (c & s & Hs & Hc).
    unfold parse_number. unfold string_of_N at 1. rewrite Hs. simpl String.append.
    cbv beta iota. rewrite (digit_not_minus c Hc).
    apply (parse_digits (Npos p) rest false Hrest).
  - unfold string_of_Z, parse_number. simpl String.append.
    change (Ascii.eqb "-" "-") with true. cbv iota.
    apply (parse_digits (Npos p) rest true Hrest).
Qed.

Lemma value_start_digit c : is_digit c = true -> value_start c = true.
Proof. intros Hc. unfold value_start. rewrite Hc. rewrite !orb_true_r. reflexivity. Qed.

Lemma stringify_head (v : value) :
  exists c s, stringify v = String c s /\ value_start c = true.
Proof.
  destruct v as [ | | [] | [|p|p] | s | items | fields ];
    try (eexists _, _; split; reflexivity).
  - destruct (uint_head (N.to_uint (Npos p)) (N_to_uint_nonnil _)) as (c & s & Hs & Hc).
    exists c, s. split; [exact Hs | apply value_start_digit, Hc].
Qed.

Lemma value_start_facts c :
  value_start c = true ->
  is_ws c = false /\ Ascii.eqb c "]" = false /\ Ascii.eqb c "}" = false.
Proof.
  destruct c as [[] [] [] [] [] [] [] []]; cbv; intros Hc;
    first [discriminate Hc | repeat split].
Qed.

Lemma value_start_number c :
  value_start c = true -> Ascii.eqb c "-" || is_digit c = true ->
  Ascii.eqb c "[" = false /\ Ascii.eqb c "{" = false /\ Ascii.eqb c dquote = false.
Proof.
  destruct c as [[] [] [] [] [] [] [] []]; cbv; intros Hc Hd;
    first [discriminate Hc | discriminate Hd | repeat split].
Qed.

Lemma join_cons2 (x y : string) (l : list string) :
  join (x :: y :: l) = x +:+ String "," (join (y :: l)).
Proof. reflexivity. Qed.

Lemma parse_elements_join (items : list value) :
  items <> [] -> Forall roundtrips items -> forallb is_json items = true ->
  forall fuel rest,
    String.length (join (map stringify items)) < fuel ->
    parse_elements fuel (join (map stringify items) +:+ String "]" rest) = Some (items, rest).
Proof.
  induction items as [|x l IH]; [congruence|].
  intros _ HP Hjson fuel rest Hfuel.
  inversion HP as [|? ? Hx Hl]; subst.
  simpl in Hjson. apply andb_true_iff in Hjson as [Hjx Hjl].
  destruct fuel as [|f]; [lia|].
  destruct l as [|y l'].
  - simpl map in *. unfold join in *. simpl String.concat in *.
    simpl parse_elements.
    rewrite (Hx Hjx f (String "]" rest)); [reflexivity|lia|reflexivity].
  - simpl map in *. rewrite join_cons2 in *. rewrite append_assoc.
    simpl String.append. rewrite append_length in Hfuel. simpl String.length in Hfuel.
    simpl parse_elements.
    rewrite (Hx Hjx f (String "," (join (stringify y :: map stringify l') +:+ String "]" rest)));
      [|lia|reflexivity].
    simpl skip_ws. cbv beta iota.
    change (Ascii.eqb "," ",") with true. cbv iota.
    rewrite (IH ltac:(discriminate) Hl Hjl f rest); [reflexivity|].
    simpl map. lia.
Qed.

Lemma stringify_object (fields : list (string * value)) :
  forallb (fun kv => is_json (snd kv)) fields = true ->
  stringify (VObj fields) = String "{" (join (members_text fields) +:+ "}").
Proof.
  intros Hjson. simpl. do 3 f_equal.
  induction fields as [|[k x] fields IH]; [reflexivity|].
  simpl in Hjson. apply andb_true_iff in Hjson as [Hx Hrest].
  simpl. rewrite (IH Hrest). destruct x; try reflexivity. discriminate Hx.
Qed.

Lemma member_text_app (k : string) (sx tail : string) :
  (quote k +:+ String ":" sx) +:+ tail
  = String dquote (escape k +:+ String dquote (String ":" (sx +:+ tail))).
Proof.
  unfold quote, delimit. simpl. rewrite !append_assoc. reflexivity.
Qed.

#[local] Arguments members_text : simpl never.
#[local] Arguments join : simpl never.

Lemma members_text_cons k x l :
  members_text ((k, x) :: l) = (quote k +:+ String ":" (stringify x)) :: members_text l.
Proof. reflexivity. Qed.

Lemma join_one (x : string) : join [x] = x.
Proof. reflexivity. Qed.

Lemma join_members_cons2 k x k' y l :
  join (members_text ((k, x) :: (k', y) :: l))
  = (quote k +:+ String ":" (stringify x)) +:+ String "," (join (members_text ((k', y) :: l))).
Proof. reflexivity. Qed.

Lemma quote_length (k : string) : 2 <= String.length (quote k).
Proof. unfold quote, delimit. simpl. rewrite append_length. simpl. lia. Qed.

Lemma parse_members_join (fields : list (string * value)) :
  fields <> [] -> Forall (fun kv => roundtrips (snd kv)) fields ->
  forallb (fun kv => is_json (snd kv)) fields = true ->
  forall fuel rest,
    String.length (join (members_text fields)) < fuel ->
    parse_members fuel (join (members_text fields) +:+ String "}" rest) = Some (fields, rest).
Proof.
  induction fields as [|[k x] l IH]; [congruence|].
  intros _ HP Hjson fuel rest Hfuel.
  inversion HP as [|? ? Hx Hl]; subst. simpl in Hx.
  simpl in Hjson. apply andb_true_iff in Hjson as [Hjx Hjl].
  destruct fuel as [|f]; [lia|].
  pose proof (quote_length k) as Hq.
  destruct l as [|[k' y] l'].
  - rewrite members_text_cons, join_one in *.
    rewrite member_text_app. rewrite !append_length in Hfuel. simpl String.length in Hfuel.
    simpl parse_members. rewrite parse_chars_escape. simpl skip_ws. cbv beta iota.
    change (Ascii.eqb ":" ":") with true. cbv iota.
    rewrite (Hx Hjx f (String "}" rest)); [reflexivity|lia|reflexivity].
  - rewrite join_members_cons2 in Hfuel |- *.
    rewrite append_assoc. rewrite member_text_app.
    rewrite !append_length in Hfuel. simpl String.length in Hfuel.
    simpl parse_members. rewrite parse_chars_escape. simpl skip_ws. cbv beta iota.
    change (Ascii.eqb ":" ":") with true. cbv iota.
    simpl String.append.
    rewrite (Hx Hjx f); [|lia|reflexivity].
    simpl skip_ws. cbv beta iota. change (Ascii.eqb "," ",") with true. cbv iota.
    rewrite (IH ltac:(discriminate) Hl Hjl f rest); [reflexivity|].
    lia.
Qed.

Lemma lookup_field_None_set {A} (acc : list (string * A)) k v :
  existsb (String.eqb k) (map fst acc) = false -> set_field acc k v = acc ++ [(k, v)].
Proof.
  induction acc as [|[k' v'] acc IH]; simpl; [reflexivity|].
  intros Hk. apply orb_false_iff in Hk as [Hk Hacc].
  rewrite Hk. rewrite (IH Hacc). reflexivity.
Qed.

Lemma object_of_members_distinct (l acc : list (string * value)) :
  distinct_strings (map fst (acc ++ l)) = true ->
  fold_left (fun acc kv => set_field acc (fst kv) (snd kv)) l acc = acc ++ l.
Proof.
  revert acc. induction l as [|[k v] l IH]; intros acc Hd; simpl.
  - rewrite app_nil_r. reflexivity.
  - assert (Hk : existsb (String.eqb k) (map fst acc) = false).
    { clear IH. induction acc as [|[k' v'] acc IHacc]; [reflexivity|].
      simpl in Hd. apply andb_true_iff in Hd as [Hk' Hd].
      simpl. rewrite (IHacc Hd), orb_false_r.
      rewrite map_app, existsb_app in Hk'. simpl in Hk'.
      apply negb_true_iff in Hk'. apply orb_false_iff in Hk' as [_ Hk'].
      apply orb_false_iff in Hk' as [Hk' _].
      rewrite String.eqb_sym. exact Hk'. }
    rewrite (lookup_field_None_set acc k v Hk).
    rewrite IH; rewrite <- app_assoc; [reflexivity|exact Hd].
Qed.

Lemma stringify_roundtrips (v : value) : roundtrips v.
Proof.
  induction v using value_rect'; intros Hjson fuel rest Hfuel Hrest.
  - discriminate Hjson.
  - destruct fuel as [|f]; [simpl in Hfuel; lia|]. reflexivity.
  - destruct fuel as [|f]; [destruct b; simpl in Hfuel; lia|]. destruct b; reflexivity.
  - destruct (stringify_head (VNum n)) as (c & s & Hs & Hc).
    destruct fuel as [|f]; [rewrite Hs in Hfuel; simpl in Hfuel; lia|].
    assert (Hnum : Ascii.eqb c "-" || is_digit c = true).
    { simpl in Hs. destruct n as [|p|p]; simpl in Hs.
      - injection Hs as <- _. reflexivity.
      - destruct (uint_head (N.to_uint (Npos p)) (N_to_uint_nonnil _)) as (c' & s' & Hs' & Hc').
        unfold string_of_N in Hs. rewrite Hs' in Hs. injection Hs as <- _.
        rewrite Hc'. apply orb_true_r.
      - injection Hs as <- _. reflexivity. }
    destruct (value_start_facts c Hc) as (Hws & _ & _).
    destruct (value_start_number c Hc Hnum) as (H1 & H2 & H3).
    pose proof (parse_number_string_of_Z n rest Hrest) as Hparse.
    simpl stringify in *. rewrite Hs in *. simpl String.append in *.
    simpl parse_value. rewrite Hws. rewrite H1, H2, H3, Hnum. rewrite Hparse. reflexivity.
  - destruct fuel as [|f]; [simpl in Hfuel; lia|].
    simpl stringify. unfold quote, delimit. simpl String.append. rewrite append_assoc.
    simpl String.append. simpl parse_value. rewrite parse_chars_escape. reflexivity.
  - destruct fuel as [|f]; [simpl in Hfuel; lia|].
    simpl in Hjson. simpl stringify in *. simpl String.append in *.
    rewrite append_assoc. simpl String.append.
    simpl String.length in Hfuel. rewrite !append_length in Hfuel.
    simpl String.length in Hfuel.
    destruct items as [|x l].
    + reflexivity.
    + pose proof (parse_elements_join (x :: l) ltac:(discriminate) H Hjson f rest
                    ltac:(lia)) as Hparse.
      destruct (stringify_head x) as (c & s & Hs & Hc).
      destruct (value_start_facts c Hc) as (Hws & Hclose & _).
      assert (Hjoin : exists s', join (map stringify (x :: l)) = String c s').
      { destruct l; simpl map; [|rewrite join_cons2]; unfold join; simpl String.concat;
          rewrite Hs; simpl; eauto. }
      destruct Hjoin as (s' & Hjoin). rewrite Hjoin in *. simpl String.append in *.
      simpl parse_value. rewrite Hws, Hclose. rewrite Hparse. reflexivity.
  - destruct fuel as [|f]; [simpl in Hfuel; lia|].
    simpl in Hjson. apply andb_true_iff in Hjson as [Hdistinct Hjson].
    rewrite (stringify_object fields Hjson) in *. simpl String.append.
    rewrite append_assoc. simpl String.append.
    simpl String.length in Hfuel. rewrite !append_length in Hfuel. simpl String.length in Hfuel.
    destruct fields as [|[k x] l].
    + reflexivity.
    + pose proof (parse_members_join ((k, x) :: l) ltac:(discriminate) H Hjson f rest
                    ltac:(lia)) as Hparse.
      assert (Hjoin : exists s', join (members_text ((k, x) :: l)) = String dquote s').
      { unfold members_text. destruct l as [|[k' y] l']; simpl map; [|rewrite join_cons2];
          unfold join; simpl String.concat; unfold quote, delimit; simpl; eauto. }
      destruct Hjoin as (s' & Hjoin). rewrite Hjoin in *. simpl String.append in *.
      simpl parse_value. rewrite Hparse.
      unfold object_of_members. rewrite (object_of_members_distinct ((k, x) :: l) []).
      * reflexivity.
      * exact Hdistinct.
Qed.

Lemma append_empty_r (s : string) : s +:+ EmptyString = s.
Proof. induction s as [|c s IH]; simpl; congruence. Qed.

Theorem JSON_parse_stringify (v : value) :
  is_json v = true -> JSON_parse_text (stringify v) = Ok v.
Proof.
  intros Hjson. unfold JSON_parse_text.
  pose proof (stringify_roundtrips v Hjson (S (String.length (stringify v))) EmptyString
                ltac:(lia) eq_refl) as Hparse.
  rewrite append_empty_r in Hparse. rewrite Hparse. reflexivity.
Qed.

End JsFacts.

(* ------------------------------------------------------------------ *)
(** ** sqlite-schema-converter.js *)
(* ------------------------------------------------------------------ *)

Section ConverterFacts.
Import Js Converter Properties.
Context `{Constants}.

Lemma round_trip_numeric (options : value) (t : GeneralType) (v : value) :
  numeric t = true -> round_trip options t v = Ok v.
Proof. destruct t; intros Ht; try discriminate Ht; reflexivity. Qed.

Lemma json_round_trip (t : GeneralType) (v : value) :
  t = OBJECT \/ t = ARRAY -> is_json v = true ->
  round_trip only_stringify t v = Ok v.
Proof.
  intros Ht Hjson. unfold round_trip.
  assert (Hs : convertToSqlite (Some t) v only_stringify = Ok (VStr (stringify v))).
  { destruct Ht as [-> | ->]; destruct v; try discriminate Hjson; reflexivity. }
  rewrite Hs. cbn [obind].
  assert (Hp : convertToTdx (Some t) (VStr (stringify v)) = JSON_parse_text (stringify v)).
  { destruct Ht as [-> | ->]; reflexivity. }
  rewrite Hp. apply JSON_parse_stringify, Hjson.
Qed.

(** C4, as amended: with the option [onlyStringify] set, decoding what was
    encoded gives the value back, for TEXT, INTEGER, REAL, NUMERIC, OBJECT and
    ARRAY and every value valid under the type; with any options this holds
    for INTEGER, REAL and NUMERIC, which both directions pass through. *)
Theorem round_trip_only_stringify (t : GeneralType) (v : value) :
  valid_under t v = true ->
  round_trip only_stringify t v = Ok v
  /\ (numeric t = true -> forall options, round_trip options t v = Ok v).
Proof.
  intros Hvalid. split.
  - destruct t; try discriminate Hvalid.
    + destruct v; try discriminate Hvalid; reflexivity.
    + apply round_trip_numeric; reflexivity.
    + apply round_trip_numeric; reflexivity.
    + apply round_trip_numeric; reflexivity.
    + apply json_round_trip; [left; reflexivity|].
      destruct v; try discriminate Hvalid; exact Hvalid.
    + apply json_round_trip; [right; reflexivity|].
      destruct v; try discriminate Hvalid; exact Hvalid.
  - intros Hnum options. apply round_trip_numeric, Hnum.
Qed.

Lemma round_trip_only_stringify_witness :
  valid_under OBJECT (VObj [("a", VNum 1); ("b", VArr [VStr "x"; VNull])]) = true
  /\ round_trip only_stringify OBJECT (VObj [("a", VNum 1); ("b", VArr [VStr "x"; VNull])])
     = Ok (VObj [("a", VNum 1); ("b", VArr [VStr "x"; VNull])]).
Proof.
  split; [reflexivity|].
  exact (proj1 (round_trip_only_stringify OBJECT
                  (VObj [("a", VNum 1); ("b", VArr [VStr "x"; VNull])]) eq_refl)).
Defined.

(** C4, as stated, fails: under the default options a TEXT value comes back
    between double quotes. *)
Lemma round_trip_default_TEXT_counterexample :
  valid_under TEXT (VStr "abc") = true
  /\ round_trip VUndefined TEXT (VStr "abc") <> Ok (VStr "abc").
Proof. split; [reflexivity|]. vm_compute. discriminate. Qed.

(** Under the default options an array comes back as the string of its
    JSON text, and an object with members is not read back at all. *)
Example round_trip_default_ARRAY :
  round_trip VUndefined ARRAY (VArr [VNum 1; VNum 2]) = Ok (VStr "[1,2]").
Proof. reflexivity. Qed.

Example round_trip_default_OBJECT :
  round_trip VUndefined OBJECT (VObj [("a", VNum 1)])
  = Throw (SyntaxError "Unexpected token in JSON").
Proof. reflexivity. Qed.

(** NDARRAY is not a type of the codec: both directions give [null]. *)
Example round_trip_NDARRAY (options v : value) :
  round_trip options NDARRAY v = Ok VNull.
Proof. reflexivity. Qed.




Lemma set_field_new {A} (fields : list (string * A)) (k : string) (v : A) :
  ~ In k (Object_keys fields) -> set_field fields k v = fields ++ [(k, v)].
Proof.
  induction fields as [|[k' v'] fields IH]; simpl; intros Hk; [reflexivity|].
  destruct (String.eqb_spec k k') as [->|Hne]; [exfalso; apply Hk; now left|].
  rewrite IH; [reflexivity|]. intros Hin. apply Hk. now right.
Qed.

Lemma assign_new {A} (fields : list (string * A)) (k : string) (v : A) :
  k <> "__proto__" -> ~ In k (Object_keys fields) -> assign fields k v = fields ++ [(k, v)].
Proof.
  intros Hk Hnew. unfold assign.
  destruct (String.eqb_spec k "__proto__"); [contradiction|]. now apply set_field_new.
Qed.

(** An object that is not array-like is walked by its own fields. *)
Lemma entries_of_plain (fields : object) :
  array_like fields = None -> entries_of (VObj fields) = fields.
Proof.
  intros Hplain. unfold entries_of, forEach_entries. rewrite Hplain.
  rewrite map_map. simpl. rewrite <- (map_id fields) at 2. apply map_ext. now intros [k v].
Qed.



End ConverterFacts.



Example convertSchema_null_type :
  @Converter.convertSchema Examples.constants
    (Js.VObj [("a", Js.VObj [("__tdxType", Js.VNull)])])
  = Throw (TypeError "Cannot read properties of undefined").
Proof. reflexivity. Qed.

(** A derived type that is neither a string nor an array has no [indexOf]. *)
Example convertSchema_number_derived :
  @Converter.convertSchema Examples.constants
    (Js.VObj [("a", Js.VObj [("__tdxType", Js.VArr [Js.VStr "number"; Js.VNum 5])])])
  = Throw (TypeError "tdxDerivedType.indexOf is not a function").
Proof. reflexivity. Qed.

(** A document schema with a numeric [length] is walked as an array: its
    own fields are not visited. *)
Example convertSchema_array_like :
  @Converter.convertSchema Examples.constants
    (Js.VObj [("length", Js.VNum 2); ("a", Js.VArr [])])
  = Ok [].
Proof. reflexivity. Qed.

(** A schema in the format of the examples in the sources. *)
Example convertSchema_example :
  @Converter.convertSchema Examples.constants
    (Js.VObj [("id", Js.VObj [("__tdxType", Js.VArr [Js.VStr "string"])]);
              ("count", Js.VObj [("__tdxType", Js.VArr [Js.VStr "number"; Js.VStr "int"])]);
              ("when", Js.VObj [("__tdxType", Js.VArr [Js.VStr "date"])]);
              ("tags", Js.VArr [Js.VStr "string"]);
              ("extra", Js.VObj [("prop1", Js.VObj [])]);
              ("odd", Js.VObj [("__tdxType", Js.VArr [Js.VStr "colour"])])])
  = Ok [("id", TEXT); ("count", INTEGER); ("when", NUMERIC); ("tags", ARRAY);
        ("extra", OBJECT); ("odd", TEXT)].
Proof. reflexivity. Qed.

(** A schema entry that is neither an array nor an object is left out. *)
Example convertSchema_primitive :
  @Converter.convertSchema Examples.constants (Js.VObj [("a", Js.VStr "string")]) = Ok [].
Proof. reflexivity. Qed.

(* ------------------------------------------------------------------ *)
(** ** sqlite-helper.js *)
(* ------------------------------------------------------------------ *)

Section HelperFacts.
Import Js Helper Properties.

Lemma lookup_field_app {A} (k : string) (l l' : list (string * A)) :
  lookup_field k (l ++ l')
  = match lookup_field k l with Some v => Some v | None => lookup_field k l' end.
Proof.
  induction l as [|[k' v'] l IH]; simpl; [reflexivity|].
  destruct (String.eqb k k'); [reflexivity|exact IH].
Qed.

Lemma lookup_field_None {A} (k : string) (l : list (string * A)) :
  lookup_field k l = None <-> ~ In k (map fst l).
Proof.
  induction l as [|[k' v'] l IH]; simpl; [tauto|].
  destruct (String.eqb_spec k k') as [->|Hne].
  - split; [discriminate|]. intros Hn. exfalso. apply Hn. left. reflexivity.
  - rewrite IH. split; [intros Hn [Heq|Hin]; [congruence|tauto]|tauto].
Qed.

Lemma lookup_field_In {A} (k : string) (v : A) (l : list (string * A)) :
  lookup_field k l = Some v -> In (k, v) l.
Proof.
  induction l as [|[k' v'] l IH]; simpl; [discriminate|].
  destruct (String.eqb_spec k k') as [->|Hne].
  - intros [= ->]. left. reflexivity.
  - intros Hl. right. apply IH, Hl.
Qed.

Lemma set_field_fresh {A} (k : string) (v : A) (l : list (string * A)) :
  lookup_field k l = None -> set_field l k v = l ++ [(k, v)].
Proof.
  induction l as [|[k' v'] l IH]; simpl; [reflexivity|].
  destruct (String.eqb k k'); [discriminate|]. intros Hl. rewrite (IH Hl). reflexivity.
Qed.

Lemma runs_app a b : runs (a ++ b) = runs a ++ runs b.
Proof. apply flat_map_app. Qed.
Lemma prepares_app a b : prepares (a ++ b) = prepares a ++ prepares b.
Proof. apply flat_map_app. Qed.
Lemma statement_runs_app a b : statement_runs (a ++ b) = statement_runs a ++ statement_runs b.
Proof. apply flat_map_app. Qed.
Lemma finalized_app a b : finalized (a ++ b) = finalized a ++ finalized b.
Proof. apply flat_map_app. Qed.

Lemma rows_loop_hit creator row rest st statement :
  lookup_field (key_of row) (cachedStatements st) = Some statement ->
  rows_loop creator (row :: rest) st
  = rows_loop creator rest (submit st [StatementRun statement (Object_values row)]).
Proof. intros Hlook. unfold key_of in Hlook. simpl. rewrite Hlook. reflexivity. Qed.

Lemma rows_loop_miss creator row rest st sql :
  lookup_field (key_of row) (cachedStatements st) = None ->
  creator (Object_keys row) = Ok sql ->
  rows_loop creator (row :: rest) st
  = rows_loop creator rest
      {| cachedStatements :=
           cachedStatements st ++ [(key_of row, length (cachedStatements st))];
         commands := commands st ++ [Prepare (length (cachedStatements st)) sql;
                                     StatementRun (length (cachedStatements st))
                                                  (Object_values row)];
         creatorCalls := creatorCalls st ++ [Object_keys row] |}.
Proof.
  intros Hlook Hcreate. rewrite <- (set_field_fresh _ _ _ Hlook).
  unfold key_of in *. simpl. rewrite Hlook, Hcreate. reflexivity.
Qed.

Lemma rows_loop_throw creator row rest st e :
  lookup_field (key_of row) (cachedStatements st) = None ->
  creator (Object_keys row) = Throw e ->
  rows_loop creator (row :: rest) st
  = ({| cachedStatements := cachedStatements st; commands := commands st;
        creatorCalls := creatorCalls st ++ [Object_keys row] |}, Some e).
Proof.
  intros Hlook Hcreate. unfold key_of in *. simpl. rewrite Hlook, Hcreate. reflexivity.
Qed.

Lemma rows_loop_adds (creator : SQLiteStatementCreator) (data : list object) :
  forall st, cache_ok st -> exists n rc new, LoopAdds creator data st n rc new.
Proof.
  induction data as [|row rest IH]; intros st Hok.
  - exists 0, [], []. split; simpl; rewrite ?app_nil_r; auto; try lia;
      try discriminate; try (intros k; split; [intros []|intros [[] _]]).
  - destruct (lookup_field (key_of row) (cachedStatements st)) as [statement|] eqn:Hlook.
    + pose proof (rows_loop_hit creator row rest st statement Hlook) as Hstep.
      set (st1 := submit st [StatementRun statement (Object_values row)]) in *.
      destruct (IH st1 Hok) as (n & rc & new & Hadds). destruct Hadds.
      exists (S n), (StatementRun statement (Object_values row) :: rc), new.
      split; rewrite ?Hstep; simpl; auto.
      * rewrite adds_commands0. simpl. rewrite <- app_assoc. reflexivity.
      * lia.
      * constructor; [|exact adds_runs0]. simpl. split; [|reflexivity].
        rewrite adds_cache0. simpl. rewrite lookup_field_app, Hlook. reflexivity.
      * intros k. rewrite adds_keys0. simpl. split; [tauto|].
        intros [[<-|Hin] Hnot]; [|tauto].
        exfalso. apply Hnot. apply lookup_field_In in Hlook.
        apply (in_map fst) in Hlook. exact Hlook.
    + destruct (creator (Object_keys row)) as [sql|e] eqn:Hcreate.
      * pose proof (rows_loop_miss creator row rest st sql Hlook Hcreate) as Hstep.
        set (statement := length (cachedStatements st)) in *.
        set (st1 := {| cachedStatements := cachedStatements st ++ [(key_of row, statement)];
                       commands := commands st ++ [Prepare statement sql;
                                                   StatementRun statement (Object_values row)];
                       creatorCalls := creatorCalls st ++ [Object_keys row] |}) in *.
        assert (Hok1 : cache_ok st1).
        { destruct Hok as [Hnd Hseq]. unfold cache_ok. simpl.
          rewrite !map_app, length_app. simpl. split.
          - apply List.NoDup_app; [exact Hnd|apply List.NoDup_cons; [intros []|constructor]|].
            intros a Ha [<-|[]]. apply lookup_field_None in Hlook. tauto.
          - rewrite seq_app. simpl. rewrite Hseq. reflexivity. }
        destruct (IH st1 Hok1) as (n & rc & new & Hadds). destruct Hadds.
        exists (S n), (Prepare statement sql :: StatementRun statement (Object_values row) :: rc),
               ((key_of row, statement) :: new).
        split; rewrite ?Hstep; simpl; auto.
        -- rewrite adds_cache0. simpl. rewrite <- app_assoc. reflexivity.
        -- rewrite adds_commands0. simpl. rewrite <- app_assoc. reflexivity.
        -- f_equal. exact adds_prepares0.
        -- lia.
        -- constructor; [|exact adds_runs0]. simpl. split; [|reflexivity].
           rewrite adds_cache0. simpl. rewrite <- app_assoc, lookup_field_app, Hlook.
           simpl. rewrite String.eqb_refl. reflexivity.
        -- intros k. rewrite adds_keys0. simpl. rewrite map_app, in_app_iff. simpl.
           apply lookup_field_None in Hlook.
           destruct (string_dec (key_of row) k) as [<-|Hne]; [tauto|].
           split; [tauto|].
           intros [[Heq|Hin] Hnot]; [congruence|]. right. tauto.
        -- rewrite adds_calls0. simpl. rewrite length_app. simpl. lia.
      * pose proof (rows_loop_throw creator row rest st e Hlook Hcreate) as Hstep.
        exists 0, [], []. split; rewrite ?Hstep; simpl; rewrite ?app_nil_r; auto; try lia;
          try discriminate;
          try (intros k; split; [intros []|intros [[] _]]);
          try (rewrite length_app; simpl; lia).
        intros e' [= <-]. exists row. split; [reflexivity|exact Hcreate].
Qed.

Lemma issue_eq creator data :
  issue creator data
  = (submit (submit (fst (rows_loop creator data initial)) [Run COMMIT_TRANSACTION])
            (map (fun kv => Finalize (snd kv))
                 (cachedStatements (fst (rows_loop creator data initial)))),
     snd (rows_loop creator data initial)).
Proof.
  unfold issue. change {| cachedStatements := []; commands := [Run BEGIN_TRANSACTION];
                          creatorCalls := [] |} with initial.
  destruct (rows_loop creator data initial) as [st1 thrown]. reflexivity.
Qed.

Lemma initial_ok : cache_ok initial.
Proof. split; [constructor|reflexivity]. Qed.

(** The shape of what one call submits. *)
Lemma issue_shape creator data :
  exists n rc new,
    LoopAdds creator data initial n rc new
    /\ commands (fst (issue creator data))
       = Run BEGIN_TRANSACTION :: rc ++ Run COMMIT_TRANSACTION
                               :: map Finalize (seq 0 (length new))
    /\ cachedStatements (fst (issue creator data)) = new
    /\ creatorCalls (fst (issue creator data))
       = creatorCalls (fst (rows_loop creator data initial))
    /\ snd (issue creator data) = snd (rows_loop creator data initial)
    /\ map fst (prepares rc) = seq 0 (length new)
    /\ List.NoDup (map fst new).
Proof.
  destruct (rows_loop_adds creator data initial initial_ok) as (n & rc & new & Hadds).
  exists n, rc, new. pose proof Hadds as Hadds'. destruct Hadds'.
  simpl in adds_cache0, adds_commands0.
  destruct adds_ok0 as [Hnd Hseq]. rewrite adds_cache0 in Hnd, Hseq.
  rewrite issue_eq. simpl. rewrite adds_cache0, adds_commands0. simpl.
  split; [exact Hadds|]. split; [|split; [reflexivity|split; [reflexivity|]]].
  - rewrite <- app_assoc. simpl. rewrite <- Hseq, map_map. reflexivity.
  - split; [reflexivity|]. split; [rewrite adds_prepares0; exact Hseq|exact Hnd].
Qed.

Lemma runs_finalizes l : runs (map Finalize l) = [].
Proof. induction l; simpl; auto. Qed.
Lemma prepares_finalizes l : prepares (map Finalize l) = [].
Proof. induction l; simpl; auto. Qed.
Lemma statement_runs_finalizes l : statement_runs (map Finalize l) = [].
Proof. induction l; simpl; auto. Qed.
Lemma finalized_finalizes l : finalized (map Finalize l) = l.
Proof. induction l; simpl; congruence. Qed.

Lemma callbacks_settled engine cmds : forall pos p,
  p <> Pending -> callbacks engine pos cmds p = p.
Proof.
  induction cmds as [|c cmds IH]; intros pos p Hp; simpl; [reflexivity|].
  destruct c; try (apply IH; exact Hp);
    destruct (engine pos); try (apply IH; exact Hp);
    destruct p; try congruence; apply IH; discriminate.
Qed.

Lemma callbacks_pending engine cmds : forall pos,
  callbacks engine pos cmds Pending
  = match first_row_error engine pos cmds with
    | Some error => Rejected (wrap error)
    | None => Pending
    end.
Proof.
  induction cmds as [|c cmds IH]; intros pos; simpl; [reflexivity|].
  destruct c; try apply IH;
    destruct (engine pos); try apply IH; apply callbacks_settled; discriminate.
Qed.

Lemma settle_recorded engine cmds thrown e :
  recorded_error engine cmds thrown = Some e -> settle engine cmds thrown = Rejected e.
Proof.
  unfold recorded_error, settle. intros Hrec.
  destruct thrown as [e'|].
  - injection Hrec as ->. simpl. rewrite callbacks_settled by discriminate.
    destruct (finalizes engine 0 cmds); reflexivity.
  - rewrite callbacks_pending. destruct (first_row_error engine 0 cmds); [|discriminate].
    injection Hrec as <-. destruct (finalizes engine 0 cmds); reflexivity.
Qed.

(** The promise of [executeMany] is always settled. *)
Lemma settle_not_pending engine cmds thrown : settle engine cmds thrown <> Pending.
Proof.
  unfold settle.
  destruct (finalizes engine 0 cmds); destruct (callbacks engine 0 cmds _); discriminate.
Qed.

(** C1: every call of [executeMany] submits BEGIN TRANSACTION once and
    COMMIT TRANSACTION once and runs no other statement text (so no
    rollback); the commit comes after everything the rows submitted, also
    when the loop was ended by an exception; and when an error was recorded
    for a row (an exception of the statement creator, or the first error
    reported to a callback of prepare or run) the call is rejected with it. *)
Theorem executeMany_commits_once (engine : Engine) (creator : SQLiteStatementCreator)
  (data : list object) :
  let st := fst (executeMany engine creator data) in
  let promise := snd (executeMany engine creator data) in
  runs (commands st) = [BEGIN_TRANSACTION; COMMIT_TRANSACTION]
  /\ (exists rows finals,
        commands st = Run BEGIN_TRANSACTION :: rows ++ Run COMMIT_TRANSACTION :: finals
        /\ runs rows = [] /\ runs finals = []
        /\ statement_runs finals = [] /\ prepares finals = [])
  /\ (forall e, recorded_error engine (commands st) (snd (issue creator data)) = Some e ->
                promise = Rejected e).
Proof.
  unfold executeMany.
  destruct (issue_shape creator data) as (n & rc & new & Hadds & Hcmds & _).
  destruct (issue creator data) as [st thrown] eqn:Hissue. simpl in *.
  destruct Hadds. split; [|split].
  - rewrite Hcmds. unfold runs at 1. simpl. fold (runs (rc ++ Run COMMIT_TRANSACTION
                                                        :: map Finalize (seq 0 (length new)))).
    rewrite runs_app, adds_no_run0. simpl. rewrite runs_finalizes. reflexivity.
  - exists rc, (map Finalize (seq 0 (length new))).
    rewrite runs_finalizes, statement_runs_finalizes, prepares_finalizes. auto.
  - intros e Hrec. apply settle_recorded, Hrec.
Qed.

Lemma NoDup_map_inj_on {A B} (f : A -> B) (l : list A) :
  List.NoDup l -> (forall x y, In x l -> In y l -> f x = f y -> x = y) ->
  List.NoDup (map f l).
Proof.
  induction l as [|x l IH]; intros Hnd Hinj; simpl; [constructor|].
  inversion Hnd as [|? ? Hx Hl]; subst. constructor.
  - intros Hin. apply in_map_iff in Hin as (y & Hfy & Hy).
    assert (y = x) by (apply Hinj; simpl; auto). subst. contradiction.
  - apply IH; [exact Hl|]. intros a b Ha Hb. apply Hinj; simpl; auto.
Qed.

Lemma NoDup_same_length {A} (l l' : list A) :
  List.NoDup l -> List.NoDup l' -> (forall x, In x l <-> In x l') -> length l = length l'.
Proof.
  intros Hl Hl' Hsame. apply Nat.le_antisymm; apply List.NoDup_incl_length; auto;
    intros x Hx; apply Hsame, Hx.
Qed.

(** When the joined keys tell the column sets of a batch apart, there are as
    many distinct cache keys as distinct column sets. *)
Lemma distinct_keys_count (data : list object) :
  (forall r1 r2, In r1 data -> In r2 data -> key_of r1 = key_of r2 ->
                 Object_keys r1 = Object_keys r2) ->
  length (nodup string_dec (map key_of data)) = distinct_column_sets data.
Proof.
  intros Hinj. unfold distinct_column_sets.
  set (sets := nodup (List.list_eq_dec string_dec) (map Object_keys data)).
  rewrite <- (length_map join sets).
  apply NoDup_same_length.
  - apply NoDup_nodup.
  - apply NoDup_map_inj_on; [apply NoDup_nodup|].
    intros x y Hx Hy Heq. unfold sets in Hx, Hy. apply nodup_In in Hx, Hy.
    apply in_map_iff in Hx as (r1 & <- & Hr1). apply in_map_iff in Hy as (r2 & <- & Hr2).
    apply Hinj; assumption.
  - intros k. rewrite nodup_In. unfold sets. rewrite !in_map_iff. split.
    + intros (r & <- & Hr). exists (Object_keys r). split; [reflexivity|].
      apply nodup_In, in_map, Hr.
    + intros (ks & <- & Hks). apply nodup_In, in_map_iff in Hks as (r & <- & Hr).
      exists r. split; [reflexivity|exact Hr].
Qed.

(** A statement creator that answers for every row lets the loop finish. *)
Lemma total_creator_not_thrown creator data :
  (forall row, In row data -> exists sql, creator (Object_keys row) = Ok sql) ->
  snd (issue creator data) = None.
Proof.
  intros Htotal. destruct (issue_shape creator data) as (n & rc & new & Hadds & _ & _ & _ & -> & _).
  destruct (snd (rows_loop creator data initial)) as [e|] eqn:Hthrown; [|reflexivity].
  destruct (adds_thrown _ _ _ _ _ _ Hadds e Hthrown) as (row & Hrow & Hthrow).
  apply nth_error_In in Hrow. destruct (Htotal row Hrow) as (sql & Hsql). congruence.
Qed.

(** Whatever the statement creator does, the finalizes come after the
    commit, one for each statement prepared. *)
Lemma issue_finalizes_after_commit creator data : finalizes_after_commit creator data.
Proof.
  destruct (issue_shape creator data)
    as (n & rc & new & Hadds & Hcmds & _ & _ & _ & Hprep & _).
  exists rc. rewrite Hcmds, Hprep.
  split; [reflexivity|]. split; [apply (adds_no_finalize _ _ _ _ _ _ Hadds)|].
  apply (adds_no_run _ _ _ _ _ _ Hadds).
Qed.

(** C2, as amended: when the statement creator throws for no row of the
    batch, and the comma-joined forms of the rows' key lists tell their
    column sets apart, a batch with K distinct column sets compiles exactly
    K statements with exactly K calls of the statement creator, and each
    compiled statement is finalized exactly once, after the commit, in the
    block that submits the batch. *)
Theorem compiles_once_when_creator_total (creator : SQLiteStatementCreator)
  (data : list object) :
  (forall row, In row data -> exists sql, creator (Object_keys row) = Ok sql) ->
  (forall r1 r2, In r1 data -> In r2 data -> key_of r1 = key_of r2 ->
                 Object_keys r1 = Object_keys r2) ->
  compiles_once_per_column_set creator data /\ finalizes_after_commit creator data.
Proof.
  intros Htotal Hinj. split; [|apply issue_finalizes_after_commit].
  unfold compiles_once_per_column_set.
  pose proof (total_creator_not_thrown creator data Htotal) as Hnone.
  destruct (issue_shape creator data)
    as (n & rc & new & Hadds & Hcmds & Hcache & Hcalls & Hthrown & Hprep & Hnd).
  rewrite Hthrown in Hnone. destruct Hadds.
  assert (Hn : n = length data) by (apply adds_all0, Hnone).
  assert (Hlen : length new = distinct_column_sets data).
  { rewrite <- (distinct_keys_count data Hinj), <- (length_map fst new).
    apply NoDup_same_length; [exact Hnd|apply NoDup_nodup|].
    intros k. rewrite adds_keys0, nodup_In, Hn, firstn_all. simpl. tauto. }
  assert (Hprepares : prepares (commands (fst (issue creator data))) = prepares rc).
  { rewrite Hcmds. change (Run BEGIN_TRANSACTION :: ?l) with ([Run BEGIN_TRANSACTION] ++ l).
    rewrite prepares_app. simpl.
    change (Run COMMIT_TRANSACTION :: ?l) with ([Run COMMIT_TRANSACTION] ++ l).
    rewrite !prepares_app, prepares_finalizes. simpl. apply app_nil_r. }
  assert (Hfinal : finalized (commands (fst (issue creator data))) = seq 0 (length new)).
  { rewrite Hcmds. change (Run BEGIN_TRANSACTION :: ?l) with ([Run BEGIN_TRANSACTION] ++ l).
    rewrite finalized_app. simpl.
    change (Run COMMIT_TRANSACTION :: ?l) with ([Run COMMIT_TRANSACTION] ++ l).
    rewrite !finalized_app, finalized_finalizes, adds_no_finalize0. reflexivity. }
  split; [|split].
  - rewrite Hprepares, <- (length_map fst), Hprep, length_seq. exact Hlen.
  - rewrite Hcalls, adds_calls0, Hnone. simpl. lia.
  - intros id Hid. rewrite Hprepares, Hprep in Hid. rewrite Hfinal.
    apply NoDup_count_occ'; [apply List.seq_NoDup|exact Hid].
Qed.

Lemma compiles_once_when_creator_total_witness :
  compiles_once_per_column_set insert_creator [row_a; row_b; row_a]
  /\ finalizes_after_commit insert_creator [row_a; row_b; row_a].
Proof.
  apply compiles_once_when_creator_total.
  - intros row _. eexists. reflexivity.
  - intros r1 r2 H1 H2. simpl in H1, H2.
    destruct H1 as [<-|[<-|[<-|[]]]]; destruct H2 as [<-|[<-|[<-|[]]]];
      vm_compute; congruence.
Defined.

(** C2, as stated, fails: the statement creator may throw, which ends the
    loop; here two column sets, one call of the creator, no statement. *)
Lemma compiles_once_counterexample :
  ~ compiles_once_per_column_set throwing_creator [row_a; row_b].
Proof. intros (Hprep & _). vm_compute in Hprep. discriminate Hprep. Qed.

(** Two column sets with the same comma-joined form share one statement. *)
Example joined_keys_collide :
  key_of [("a,b", VNum 1)] = key_of [("a", VNum 1); ("b", VNum 2)]
  /\ distinct_column_sets [[("a,b", VNum 1)]; [("a", VNum 1); ("b", VNum 2)]] = 2
  /\ prepares (commands (fst (issue insert_creator
                                [[("a,b", VNum 1)]; [("a", VNum 1); ("b", VNum 2)]])))
     = [(0, "INSERT INTO data (a,b) VALUES (...)")].
Proof. vm_compute. auto. Qed.

Lemma Forall2_nth_error_l {A B} (P : A -> B -> Prop) (l : list A) (l' : list B) :
  Forall2 P l l' ->
  forall i a, nth_error l i = Some a -> exists b, nth_error l' i = Some b /\ P a b.
Proof.
  induction 1 as [|x y l l' Hxy Hl IH]; intros i a Hi.
  - destruct i; discriminate Hi.
  - destruct i as [|i]; simpl in *.
    + injection Hi as <-. eauto.
    + apply IH, Hi.
Qed.

Lemma NoDup_fst_functional {A B} (l : list (A * B)) (a : A) (b b' : B) :
  List.NoDup (map fst l) -> In (a, b) l -> In (a, b') l -> b = b'.
Proof.
  induction l as [|[x y] l IH]; simpl; intros Hnd Hb Hb'; [contradiction|].
  inversion Hnd as [|? ? Hx Hl]; subst.
  destruct Hb as [Hb|Hb]; destruct Hb' as [Hb'|Hb'].
  - congruence.
  - exfalso. apply Hx. apply (in_map fst) in Hb'. simpl in Hb'. congruence.
  - exfalso. apply Hx. apply (in_map fst) in Hb. simpl in Hb. congruence.
  - apply IH; assumption.
Qed.

Lemma combine_keys_values {A} (row : list (string * A)) :
  combine (Object_keys row) (Object_values row) = row.
Proof. induction row as [|[k v] row IH]; simpl; congruence. Qed.

Lemma issue_statement_runs creator data rc (new : list (string * nat)) :
  commands (fst (issue creator data))
  = Run BEGIN_TRANSACTION :: rc ++ Run COMMIT_TRANSACTION :: map Finalize (seq 0 (length new)) ->
  statement_runs (commands (fst (issue creator data))) = statement_runs rc
  /\ prepares (commands (fst (issue creator data))) = prepares rc
  /\ finalized (commands (fst (issue creator data))) = finalized rc ++ seq 0 (length new).
Proof.
  intros ->. change (Run BEGIN_TRANSACTION :: ?l) with ([Run BEGIN_TRANSACTION] ++ l).
  change (Run COMMIT_TRANSACTION :: ?l) with ([Run COMMIT_TRANSACTION] ++ l).
  rewrite !statement_runs_app, !prepares_app, !finalized_app.
  rewrite statement_runs_finalizes, prepares_finalizes, finalized_finalizes.
  simpl. rewrite !app_nil_r. auto.
Qed.

(** The rows whose statement was submitted are the rows before the one the
    statement creator threw for: all of them when it threw for none. *)
Lemma executed_all creator data :
  executed creator data <= length data
  /\ (snd (issue creator data) = None -> executed creator data = length data).
Proof.
  unfold executed.
  destruct (issue_shape creator data) as (n & rc & new & Hadds & Hcmds & _ & _ & Hthrown & _).
  destruct (issue_statement_runs creator data rc new Hcmds) as (-> & _).
  destruct Hadds. apply Forall2_length in adds_runs0.
  rewrite <- adds_runs0, length_firstn. split; [lia|].
  rewrite Hthrown. intros Hnone. rewrite (adds_all0 Hnone). lia.
Qed.

(** C3: two rows of one batch with the same ColumnSetKey whose statements
    were submitted use one and the same prepared statement, which has one
    statement text, and each row's values are bound in the order of the
    row's own keys. *)
Theorem same_column_set_same_statement (creator : SQLiteStatementCreator)
  (data : list object) (i j : nat) (ri rj : object) :
  nth_error data i = Some ri -> nth_error data j = Some rj ->
  i < executed creator data -> j < executed creator data ->
  Object_keys ri = Object_keys rj ->
  let cmds := commands (fst (issue creator data)) in
  exists statement sql,
    nth_error (statement_runs cmds) i = Some (statement, Object_values ri)
    /\ nth_error (statement_runs cmds) j = Some (statement, Object_values rj)
    /\ In (statement, sql) (prepares cmds)
    /\ (forall sql', In (statement, sql') (prepares cmds) -> sql' = sql)
    /\ combine (Object_keys ri) (Object_values ri) = ri
    /\ combine (Object_keys rj) (Object_values rj) = rj.
Proof.
  intros Hi Hj Hie Hje Hkeys cmds. unfold executed in Hie, Hje. subst cmds.
  destruct (issue_shape creator data)
    as (n & rc & new & Hadds & Hcmds & Hcache & _ & _ & Hprep & Hnd).
  destruct (issue_statement_runs creator data rc new Hcmds) as (Hruns & Hprepares & _).
  rewrite Hruns in *. rewrite Hprepares. destruct Hadds.
  pose proof adds_runs0 as Hlen. apply Forall2_length in Hlen.
  rewrite length_firstn in Hlen.
  assert (Hi' : nth_error (firstn n data) i = Some ri).
  { rewrite nth_error_firstn. destruct (Nat.ltb_spec i n); [exact Hi|lia]. }
  assert (Hj' : nth_error (firstn n data) j = Some rj).
  { rewrite nth_error_firstn. destruct (Nat.ltb_spec j n); [exact Hj|lia]. }
  destruct (Forall2_nth_error_l _ _ _ adds_runs0 i ri Hi') as ([si vi] & Hri & Hsi & Hvi).
  destruct (Forall2_nth_error_l _ _ _ adds_runs0 j rj Hj') as ([sj vj] & Hrj & Hsj & Hvj).
  simpl in *. subst vi vj.
  assert (Hsame : si = sj).
  { unfold key_of in *. rewrite Hkeys in Hsi. congruence. }
  subst sj.
  assert (Hin : In si (map fst (prepares rc))).
  { rewrite adds_prepares0. apply lookup_field_In in Hsi.
    rewrite adds_cache0 in Hsi. simpl in Hsi. apply (in_map snd) in Hsi. exact Hsi. }
  apply in_map_iff in Hin as ([s sql] & Hs & Hin). simpl in Hs. subst s.
  exists si, sql. split; [exact Hri|]. split; [exact Hrj|]. split; [exact Hin|].
  split; [|split; apply combine_keys_values].
  intros sql' Hin'. apply (NoDup_fst_functional (prepares rc) si sql' sql); auto.
  rewrite Hprep. apply List.seq_NoDup.
Qed.

Lemma same_column_set_same_statement_witness :
  exists statement sql,
    nth_error (statement_runs (commands (fst (issue insert_creator [row_a; row_b; [("a", VNum 7)]]))))
              0 = Some (statement, [VNum 1])
    /\ nth_error (statement_runs (commands (fst (issue insert_creator [row_a; row_b; [("a", VNum 7)]]))))
                 2 = Some (statement, [VNum 7])
    /\ In (statement, sql)
          (prepares (commands (fst (issue insert_creator [row_a; row_b; [("a", VNum 7)]]))))
    /\ (forall sql',
          In (statement, sql')
             (prepares (commands (fst (issue insert_creator [row_a; row_b; [("a", VNum 7)]])))) ->
          sql' = sql)
    /\ combine (Object_keys row_a) (Object_values row_a) = row_a
    /\ combine (Object_keys [("a", VNum 7)]) (Object_values [("a", VNum 7)]) = [("a", VNum 7)].
Proof.
  apply (same_column_set_same_statement insert_creator [row_a; row_b; [("a", VNum 7)]]
           0 2 row_a [("a", VNum 7)]).
  - reflexivity.
  - reflexivity.
  - vm_compute. lia.
  - vm_compute. lia.
  - reflexivity.
Defined.

Lemma executeMany_commits_once_witness :
  recorded_error (fun _ => None)
    (commands (fst (executeMany (fun _ => None)
                      (fun keys => match keys with
                                   | ["b"] => Throw (Error "no statement for b")
                                   | _ => insert_creator keys
                                   end)
                      [row_a; row_b; row_a])))
    (snd (issue (fun keys => match keys with
                             | ["b"] => Throw (Error "no statement for b")
                             | _ => insert_creator keys
                             end)
                [row_a; row_b; row_a]))
  = Some (Error "no statement for b")
  /\ snd (executeMany (fun _ => None)
            (fun keys => match keys with
                         | ["b"] => Throw (Error "no statement for b")
                         | _ => insert_creator keys
                         end)
            [row_a; row_b; row_a])
     = Rejected (Error "no statement for b").
Proof.
  split; [reflexivity|].
  apply (proj2 (proj2 (executeMany_commits_once (fun _ => None)
                         (fun keys => match keys with
                                      | ["b"] => Throw (Error "no statement for b")
                                      | _ => insert_creator keys
                                      end)
                         [row_a; row_b; row_a]))).
  reflexivity.
Defined.

(** The batch of the witness: the first row is run, the commit is submitted
    after the exception, the third row is never submitted. *)
Example partial_batch_commands :
  commands (fst (issue (fun keys => match keys with
                                    | ["b"] => Throw (Error "no statement for b")
                                    | _ => insert_creator keys
                                    end)
                       [row_a; row_b; row_a]))
  = [Run "BEGIN IMMEDIATE TRANSACTION;";
     Prepare 0 "INSERT INTO data (a) VALUES (...)";
     StatementRun 0 [VNum 1];
     Run "COMMIT TRANSACTION;";
     Finalize 0].
Proof. reflexivity. Qed.

(** An error reported to a callback does not end the loop: every row is
    submitted, the commit too, and the call is rejected with the first
    such error. *)
Example callback_error_commands :
  executeMany (fun pos => if Nat.eqb pos 2 then Some "SQLITE_CONSTRAINT" else None)
              insert_creator [row_a; row_b]
  = ({| cachedStatements := [("a", 0); ("b", 1)];
        commands := [Run "BEGIN IMMEDIATE TRANSACTION;";
                     Prepare 0 "INSERT INTO data (a) VALUES (...)";
                     StatementRun 0 [VNum 1];
                     Prepare 1 "INSERT INTO data (b) VALUES (...)";
                     StatementRun 1 [VNum 2];
                     Run "COMMIT TRANSACTION;";
                     Finalize 0; Finalize 1];
        creatorCalls := [["a"]; ["b"]] |},
     Rejected (Error "Error: SQLITE_CONSTRAINT")).
Proof. reflexivity. Qed.

End HelperFacts.

(* ------------------------------------------------------------------ *)
(** ** sqlite-manager.js: the select query *)
(* ------------------------------------------------------------------ *)

Section QueryFacts.
Import Js Helper Manager Properties.
Context `{Constants}.

(** C6, as amended: with a positive cap, the limit of the query is the cap
    when no limit is given, when the limit is 0 and when it is above the
    cap; it is the requested limit when that lies in (0, cap], and also
    when it is negative. *)
Theorem query_limit_rule (schema : Schema) (distinct : bool) (filter : value)
  (projection : object) (options : Options) :
  (0 < SQLITE_QUERY_LIMIT)%Z ->
  let result := q_limit (selectQuery_of schema distinct filter projection options) in
  (limit options = None -> result = SQLITE_QUERY_LIMIT)
  /\ (forall l, limit options = Some l ->
        ((l = 0 \/ SQLITE_QUERY_LIMIT < l)%Z -> result = SQLITE_QUERY_LIMIT)
        /\ ((0 < l <= SQLITE_QUERY_LIMIT)%Z -> result = l)
        /\ ((l < 0)%Z -> result = l)).
Proof.
  intros Hcap result. subst result. unfold selectQuery_of.
  destruct (projection_loop schema projection) as [inc exc]. simpl. unfold query_limit.
  split.
  - intros ->. reflexivity.
  - intros l ->.
    destruct (Z.eqb_spec l 0); destruct (Z.ltb_spec l SQLITE_QUERY_LIMIT);
      destruct (Z.ltb_spec l 0); simpl; repeat split; intros; lia.
Qed.

Lemma hasOwnProperty_In {A} (fields : list (string * A)) (k : string) :
  hasOwnProperty fields k = true <-> In k (Object_keys fields).
Proof.
  unfold hasOwnProperty, Object_keys.
  destruct (lookup_field k fields) eqn:Hl.
  - split; [intros _|reflexivity].
    apply lookup_field_In in Hl. apply (in_map fst) in Hl. exact Hl.
  - apply lookup_field_None in Hl. split; [discriminate|contradiction].
Qed.




(** An object that is not array-like is walked by its own fields. *)
Lemma forEach_entries_plain (fields : object) :
  array_like fields = None ->
  forEach_entries fields = map (fun kv => (Name (fst kv), snd kv)) fields.
Proof. unfold forEach_entries. now intros ->. Qed.





End QueryFacts.

Lemma query_limit_rule_witness :
  (0 < @SQLITE_QUERY_LIMIT Examples.constants)%Z
  /\ Manager.q_limit (@Manager.selectQuery_of Examples.constants [] false (Js.VObj []) []
                        {| Manager.skip := None; Manager.limit := Some 10%Z;
                           Manager.sort := None; Manager.nqmMeta := None |}) = 10%Z.
Proof.
  split; [reflexivity|].
  apply (proj1 (proj2 (proj2 (@query_limit_rule Examples.constants [] false (Js.VObj []) []
                                {| Manager.skip := None; Manager.limit := Some 10%Z;
                                   Manager.sort := None; Manager.nqmMeta := None |}
                                eq_refl) 10%Z eq_refl))).
  vm_compute. split; [reflexivity|discriminate].
Defined.

(** C6, as stated, fails: a negative limit is not replaced by the cap. *)
Lemma query_limit_negative_counterexample :
  ~ limit_as_claimed (@SQLITE_QUERY_LIMIT Examples.constants) (Some (-5)%Z)
      (Manager.q_limit (@Manager.selectQuery_of Examples.constants [] false (Js.VObj []) []
                          {| Manager.skip := None; Manager.limit := Some (-5)%Z;
                             Manager.sort := None; Manager.nqmMeta := None |})).
Proof. vm_compute. discriminate. Qed.

Example query_limit_above_cap :
  Manager.q_limit (@Manager.selectQuery_of Examples.constants [] false (Js.VObj []) []
                     {| Manager.skip := None; Manager.limit := Some 1500%Z;
                        Manager.sort := None; Manager.nqmMeta := None |}) = 1000%Z.
Proof. reflexivity. Qed.



Example projection_inherited :
  resolved_columns
    (@Manager.selectQuery_of Examples.constants [("a", TEXT); ("b", INTEGER); ("c", REAL)]
       false (Js.VObj []) [("toString", Js.VNum 1)] Manager.no_options)
  = [Js.Name "toString"].
Proof. reflexivity. Qed.

(** A projection with a numeric [length] is walked as an array: its own
    keys are not looked at, and every column is selected. *)
Example projection_array_like :
  resolved_columns
    (@Manager.selectQuery_of Examples.constants [("length", INTEGER); ("a", TEXT)]
       false (Js.VObj []) [("length", Js.VNum 1)] Manager.no_options)
  = [Js.Name "length"; Js.Name "a"].
Proof. reflexivity. Qed.

(** The projections the spec lists. *)
Example projection_include :
  resolved_columns
    (@Manager.selectQuery_of Examples.constants [("a", TEXT); ("b", INTEGER); ("c", REAL)]
       false (Js.VObj []) [("a", Js.VNum 1)] Manager.no_options)
  = [Js.Name "a"].
Proof. reflexivity. Qed.

Example projection_exclude :
  resolved_columns
    (@Manager.selectQuery_of Examples.constants [("a", TEXT); ("b", INTEGER); ("c", REAL)]
       false (Js.VObj []) [("b", Js.VNum 0)] Manager.no_options)
  = [Js.Name "a"; Js.Name "c"].
Proof. reflexivity. Qed.

Example projection_include_wins :
  resolved_columns
    (@Manager.selectQuery_of Examples.constants [("a", TEXT); ("b", INTEGER); ("c", REAL)]
       false (Js.VObj []) [("b", Js.VNum 0); ("c", Js.VNum 1); ("a", Js.VBool true)]
       Manager.no_options)
  = [Js.Name "c"; Js.Name "a"].
Proof. reflexivity. Qed.

(** When every column is excluded the query has no column list. *)
Example projection_excludes_all :
  Manager.q_columns
    (@Manager.selectQuery_of Examples.constants [("a", TEXT)]
       false (Js.VObj []) [("a", Js.VNum 0)] Manager.no_options)
  = None.
Proof. reflexivity. Qed.

(* ------------------------------------------------------------------ *)
(** ** sqlite-manager.js: reads, datasets and writes *)
(* ------------------------------------------------------------------ *)

Section ManagerFacts.
Import Js Helper Manager Properties.
Context `{Constants} {Conn : Type} `{Collaborators Conn}.

Lemma bind_ok {A B} (m : @M Conn A) (k : A -> @M Conn B) (w w' : World Conn) a :
  m w = (w', Ok a) -> bind m k w = k a w'.
Proof. unfold bind. intros ->. reflexivity. Qed.

Lemma bind_throw {A B} (m : @M Conn A) (k : A -> @M Conn B) (w w' : World Conn) e :
  m w = (w', Throw e) -> bind m k w = (w', Throw e).
Proof. unfold bind. intros ->. reflexivity. Qed.

Lemma getGeneralSchema_same_process (w : World Conn) : same_process w (fst (getGeneralSchema w)).
Proof.
  unfold getGeneralSchema, same_process.
  destruct (generalSchema w); [simpl; auto|].
  unfold bind, reading, lift, ret, set_generalSchema.
  destruct (getInfoKeys (conn w) ["schema"]) as [[|first rest]|e]; simpl; auto.
  destruct (assign_default _ _ _) as [schema|e]; simpl; auto.
  destruct (Converter.convertSchema _) as [s|e]; simpl; auto.
Qed.

(** What a distinct query does once the schema is known: the builder
    throws; or the call returns the empty list without a read; or it reads
    and returns the column of the rows, decoded when the schema has a
    compound type. *)
Lemma getDataQuery_distinct (filter : option value) (projection : option object)
  (options : option Options) (w w1 : World Conn) (schema : Schema) :
  getGeneralSchema w = (w1, Ok schema) ->
  let q := query_of schema true filter projection options in
  let included := included_columns schema projection in
  let distinctKey := distinctKey_of included in
  let early :=
    match columns_after_builder q with [Name c] => String.eqb c "*" | _ => false end
    || negb (Nat.eqb (length included) 1)
    || match lookup_field distinctKey schema with
       | Some NDARRAY => true
       | _ => false
       end in
  let compound :=
    schema_includes schema NDARRAY || schema_includes schema OBJECT
    || schema_includes schema ARRAY in
  match builder_sql q with
  | Throw e => getDataQuery true filter projection options w = (w1, Throw e)
  | Ok t =>
      if early
      then getDataQuery true filter projection options w = (w1, Ok (DistinctValues []))
      else getDataQuery true filter projection options w
           = (with_read w1 t,
              do rows <- allAsync (conn w1) t;
              do values <- omap (fun row =>
                                   if compound
                                   then Converter.convertToTdx (lookup_field distinctKey schema)
                                                               (get row distinctKey)
                                   else Ok (get row distinctKey)) rows;
              Ok (DistinctValues values))
  end.
Proof.
  intros Hschema q included distinctKey early compound. subst early.
  unfold getDataQuery. rewrite (bind_ok _ _ _ _ _ Hschema).
  fold (query_of schema true filter projection options). fold q.
  fold (included_columns schema projection). fold included. fold distinctKey. cbv zeta.
  unfold bind at 1, lift. destruct (builder_sql q) as [t|e]; [|reflexivity].
  unfold bind at 1, ret at 1.
  destruct (match columns_after_builder q with [Name c] => String.eqb c "*" | _ => false end);
    [reflexivity|].
  cbn [andb orb].
  destruct (negb (Nat.eqb (length included) 1)); [reflexivity|]. cbn [orb].
  fold compound.
  destruct (lookup_field distinctKey schema) as [[]|]; try reflexivity;
    unfold bind, read_rows, lift, ret;
    destruct (allAsync (conn w1) t) as [rows|e]; try reflexivity;
    cbn [obind]; destruct (omap _ rows); reflexivity.
Qed.

Lemma included_query_columns (schema : Schema) (filter : option value)
  (projection : option object) (options : option Options) (k : key) :
  included_columns schema projection = [k] ->
  columns_after_builder (query_of schema true filter projection options) = [k].
Proof.
  unfold included_columns, query_of, columns_after_builder, selectQuery_of.
  destruct (projection_loop schema _) as [inc exc]. simpl. intros ->. reflexivity.
Qed.

Lemma schema_includes_lookup (schema : Schema) (k : string) (t : GeneralType) :
  lookup_field k schema = Some t -> schema_includes schema t = true.
Proof.
  intros Hl. apply lookup_field_In in Hl. unfold schema_includes.
  apply existsb_exists. exists (k, t). split; [exact Hl|]. now destruct t.
Qed.

(** Decoding the JSON texts of values gives the values. *)
Lemma omap_decodes (t : GeneralType) (k : string) (rows : list object) (values : list value) :
  t = ARRAY \/ t = OBJECT ->
  Forall2 (fun row v => get row k = VStr (stringify v) /\ is_json v = true) rows values ->
  omap (fun row => Converter.convertToTdx (Some t) (get row k)) rows = Ok values.
Proof.
  intros Ht Hall. induction Hall as [|row v rows values [Hrow Hjson] _ IH]; [reflexivity|].
  cbn [omap]. rewrite Hrow, IH.
  assert (Hp : Converter.convertToTdx (Some t) (VStr (stringify v)) = Ok v).
  { destruct Ht as [-> | ->]; apply JSON_parse_stringify, Hjson. }
  rewrite Hp. reflexivity.
Qed.

(** C8, as amended: a distinct query reads the engine only when exactly one
    key of the projection is included; over an NDARRAY column it reads
    nothing and, unless the query builder throws, returns the empty list;
    over a column of another type, ARRAY and OBJECT among them, it issues
    the read; and over an ARRAY or OBJECT column (not named after a member of
    [Object.prototype]) whose rows hold the JSON texts of values, it returns
    those values, decoded. *)
Theorem distinct_query (filter : option value) (projection : option object)
  (options : option Options) (w w1 : World Conn) (schema : Schema) :
  getGeneralSchema w = (w1, Ok schema) ->
  let q := query_of schema true filter projection options in
  let w' := fst (getDataQuery true filter projection options w) in
  let r := snd (getDataQuery true filter projection options w) in
  (reads w' <> reads w -> exists k, included_columns schema projection = [k])
  /\ (forall k, included_columns schema projection = [Name k] ->
        lookup_field k schema = Some NDARRAY ->
        reads w' = reads w
        /\ (forall t, builder_sql q = Ok t -> r = Ok (DistinctValues [])))
  /\ (forall k ty t, included_columns schema projection = [Name k] -> k <> "*" ->
        lookup_field k schema = Some ty -> ty <> NDARRAY ->
        builder_sql q = Ok t ->
        reads w' = reads w ++ [t]
        /\ (forall rows values,
              ty = ARRAY \/ ty = OBJECT -> inherited k = false ->
              allAsync (conn w1) t = Ok rows ->
              Forall2 (fun row v => get row k = VStr (stringify v) /\ is_json v = true)
                      rows values ->
              r = Ok (DistinctValues values))).
Proof.
  intros Hschema q w' r.
  pose proof (getGeneralSchema_same_process w) as Hsame. rewrite Hschema in Hsame.
  destruct Hsame as (_ & _ & Hreads & _). simpl in Hreads.
  pose proof (getDataQuery_distinct filter projection options w w1 schema Hschema) as Hq.
  cbv zeta in Hq. fold q in Hq. subst w' r.
  split; [|split].
  - intros Hread. destruct (included_columns schema projection) as [|k [|k' inc]] eqn:Hinc;
      [|eauto|]; exfalso; apply Hread;
      (destruct (builder_sql q); [rewrite orb_true_r in Hq; simpl in Hq|];
       rewrite Hq; exact Hreads).
  - intros k Hk Hnd. rewrite Hk in Hq. cbn [distinctKey_of] in Hq. rewrite Hnd in Hq.
    rewrite orb_true_r in Hq.
    destruct (builder_sql q) as [t|e]; rewrite Hq; simpl; split; auto; discriminate.
  - intros k ty t Hk Hstar Hty Hnot Hb. rewrite Hb, Hk in Hq.
    cbn [distinctKey_of] in Hq. rewrite Hty in Hq.
    pose proof (included_query_columns schema filter projection options (Name k) Hk) as Hcols.
    fold q in Hcols. rewrite Hcols in Hq.
    destruct (String.eqb_spec k "*"); [contradiction|]. cbn [length Nat.eqb negb orb] in Hq.
    assert (Hq' : getDataQuery true filter projection options w
                  = (with_read w1 t,
                     do rows <- allAsync (conn w1) t;
                     do values <- omap (fun row =>
                                          if schema_includes schema NDARRAY
                                             || schema_includes schema OBJECT
                                             || schema_includes schema ARRAY
                                          then Converter.convertToTdx (Some ty) (get row k)
                                          else Ok (get row k)) rows;
                     Ok (DistinctValues values))).
    { destruct ty; try (exfalso; apply Hnot; reflexivity); exact Hq. }
    clear Hq. rewrite Hq'. cbn [fst snd]. split.
    + simpl. rewrite Hreads. reflexivity.
    + intros rows values Hcompound _ Hrows Hall. rewrite Hrows. cbn [obind].
      assert (Hc : schema_includes schema NDARRAY || schema_includes schema OBJECT
                   || schema_includes schema ARRAY = true).
      { pose proof (schema_includes_lookup schema k ty Hty) as Hin.
        destruct Hcompound as [-> | ->]; rewrite Hin;
          rewrite ?orb_true_r, ?orb_true_l; reflexivity. }
      rewrite Hc. rewrite (omap_decodes ty k rows values Hcompound Hall). reflexivity.
Qed.



Lemma get_set_field (fields : object) (k k' : string) (v : value) :
  get (set_field fields k v) k' = if String.eqb k' k then v else get fields k'.
Proof.
  unfold get. induction fields as [|[k0 v0] fields IH]; simpl.
  - destruct (String.eqb k' k); reflexivity.
  - destruct (String.eqb_spec k k0) as [->|Hne]; simpl.
    + destruct (String.eqb_spec k' k0); reflexivity.
    + destruct (String.eqb_spec k' k0) as [->|Hne'].
      * destruct (String.eqb_spec k0 k); [congruence|reflexivity].
      * exact IH.
Qed.

Lemma keys_set_field {A} (fields : list (string * A)) (k : string) (v : A) (k' : string) :
  In k' (Object_keys (set_field fields k v)) <-> k' = k \/ In k' (Object_keys fields).
Proof.
  unfold Object_keys. induction fields as [|[k0 v0] fields IH]; simpl.
  - intuition congruence.
  - destruct (String.eqb_spec k k0) as [->|Hne]; simpl; [intuition congruence|].
    rewrite IH. intuition congruence.
Qed.

Lemma pick_fold (obj : object) (columns : list string) :
  pick obj columns = fold_left (pick_step obj) columns [].
Proof. reflexivity. Qed.

Lemma pick_step_get obj res key k :
  get (pick_step obj res key) k
  = if String.eqb k key then match get obj key with VUndefined => get res k | v => v end
    else get res k.
Proof.
  unfold pick_step.
  destruct (get obj key) eqn:Hg; rewrite ?get_set_field;
    destruct (String.eqb k key); reflexivity.
Qed.

Lemma pick_from_get (obj : object) (columns : list string) : forall res k,
  get (fold_left (pick_step obj) columns res) k
  = if existsb (String.eqb k) columns
    then match get obj k with VUndefined => get res k | v => v end
    else get res k.
Proof.
  induction columns as [|c columns IH]; intros res k; simpl; [reflexivity|].
  rewrite IH, pick_step_get.
  destruct (String.eqb_spec k c) as [->|Hne]; simpl.
  - destruct (existsb (String.eqb c) columns); destruct (get obj c); reflexivity.
  - reflexivity.
Qed.

Lemma pick_from_keys (obj : object) (columns : list string) : forall res k,
  In k (Object_keys (fold_left (pick_step obj) columns res)) ->
  In k columns \/ In k (Object_keys res).
Proof.
  induction columns as [|c columns IH]; intros res k; simpl; [auto|].
  intros Hk. apply IH in Hk as [Hk|Hk]; [auto|].
  unfold pick_step in Hk. destruct (get obj c); auto;
    apply keys_set_field in Hk as [->|Hk]; auto.
Qed.

(** What [pick] keeps: only columns, and of each column the row's value. *)
Lemma pick_spec (obj : object) (columns : list string) :
  (forall k, In k (Object_keys (pick obj columns)) -> In k columns)
  /\ (forall k, In k columns -> get (pick obj columns) k = get obj k).
Proof.
  split.
  - intros k Hk. rewrite pick_fold in Hk. apply pick_from_keys in Hk as [Hk|[]]. exact Hk.
  - intros k Hk. rewrite pick_fold, pick_from_get.
    assert (Hex : existsb (String.eqb k) columns = true).
    { apply existsb_exists. exists k. split; [exact Hk|apply String.eqb_refl]. }
    rewrite Hex. destruct (get obj k); reflexivity.
Qed.

Lemma fold_left_ext_in {A B} (f g : A -> B -> A) (l : list B) :
  (forall a x, In x l -> f a x = g a x) -> forall a, fold_left f l a = fold_left g l a.
Proof.
  induction l as [|x l IH]; intros Hext a; simpl; [reflexivity|].
  rewrite Hext by (left; reflexivity). apply IH. intros a' y Hy. apply Hext. right. exact Hy.
Qed.

Lemma same_but_warnings_refl (w : World Conn) : same_but_warnings w w.
Proof. unfold same_but_warnings. auto. Qed.

Lemma same_but_warnings_trans (w1 w2 w3 : World Conn) :
  same_but_warnings w1 w2 -> same_but_warnings w2 w3 -> same_but_warnings w1 w3.
Proof. unfold same_but_warnings. intuition congruence. Qed.

Lemma keeps_ret {A} (a : A) : keeps_warnings (ret (Conn := Conn) a).
Proof. intros w. simpl. auto. Qed.

Lemma keeps_lift {A} (o : outcome A) : keeps_warnings (lift (Conn := Conn) o).
Proof. intros w. simpl. auto. Qed.

Lemma keeps_reading {A} (f : Conn -> outcome A) : keeps_warnings (reading f).
Proof. intros w. simpl. auto. Qed.

Lemma keeps_changing {A} (f : Conn -> Conn * outcome A) : keeps_warnings (changing f).
Proof. intros w. unfold changing. destruct (f (conn w)). simpl. auto. Qed.

Lemma keeps_bind {A B} (m : @M Conn A) (k : A -> @M Conn B) :
  keeps_warnings m -> (forall a, keeps_warnings (k a)) -> keeps_warnings (bind m k).
Proof.
  intros Hm Hk w. unfold bind. destruct (Hm w) as [H1 H2].
  destruct (m w) as [w1 [a|e]]; simpl in *; [|auto].
  destruct (Hk a w1) as [H3 H4]. split; congruence.
Qed.

Lemma keeps_run_executeMany creator data :
  keeps_warnings (run_executeMany (Conn := Conn) creator data).
Proof.
  intros w. unfold run_executeMany. destruct (issue creator data) as [st thrown].
  destruct (serialized (conn w) (commands st)) as [c engine].
  destruct (settle engine (commands st) thrown); simpl; auto.
Qed.

Lemma keeps_write_rows schema rows : keeps_warnings (write_rows schema rows).
Proof.
  unfold write_rows. apply keeps_bind.
  - destruct (findCollectionKeys schema NDARRAY); [apply keeps_ret|apply keeps_changing].
  - intros arrayProcData. apply keeps_bind; [apply keeps_lift|]. intros sqlData.
    apply keeps_bind; [apply keeps_reading|]. intros infoTable.
    apply keeps_bind; [apply keeps_lift|]. intros uniqueIndex.
    apply keeps_bind; [apply keeps_run_executeMany|]. intros _. apply keeps_ret.
Qed.

Lemma keeps_getGeneralSchema : keeps_warnings (getGeneralSchema (Conn := Conn)).
Proof.
  intros w. destruct (getGeneralSchema_same_process w) as (H1 & H2 & _). auto.
Qed.

(** [addData] is the schema, the removal of the extra fields, and the write. *)
Lemma addData_eq (data : Data) :
  addData data
  = bind getGeneralSchema
      (fun schema =>
         bind (mapM (onlySchemaColumnRow schema) (concat_data data)) (write_rows schema)).
Proof. reflexivity. Qed.

(** [warn] emits a warning unless its code was warned of already; afterwards
    the code is warned of. *)
Lemma warn_spec (warning name code : string) (w : World Conn) :
  snd (warn warning name code w) = Ok tt
  /\ same_but_warnings w (fst (warn warning name code w))
  /\ code ∈ warnedAlready (fst (warn warning name code w))
  /\ (warnedAlready w ⊆ warnedAlready (fst (warn warning name code w)))
  /\ (code ∈ warnedAlready w -> fst (warn warning name code w) = w)
  /\ (emitted (fst (warn warning name code w)) = emitted w
      \/ ((code ∉ warnedAlready w)
          /\ emitted (fst (warn warning name code w)) = emitted w ++ [(warning, name, code)])).
Proof.
  unfold warn. destruct (decide (code ∈ warnedAlready w)) as [Hin|Hout]; simpl.
  - split; [reflexivity|]. split; [apply same_but_warnings_refl|].
    split; [exact Hin|]. split; [set_solver|]. split; [reflexivity|left; reflexivity].
  - split; [reflexivity|]. split; [unfold same_but_warnings; simpl; auto|].
    split; [set_solver|]. split; [set_solver|]. split; [contradiction|].
    right. split; [exact Hout|reflexivity].
Qed.

Lemma warn_warned_once (warning name code : string) (w : World Conn) :
  warned_once w -> warned_once (fst (warn warning name code w)).
Proof.
  intros [Hnd Hin]. unfold warn.
  destruct (decide (code ∈ warnedAlready w)) as [Hw|Hw]; simpl; [split; assumption|].
  unfold warned_once. simpl. rewrite map_app. simpl. split.
  - apply List.NoDup_app; [exact Hnd|repeat constructor; intros []|].
    intros c Hc [<-|[]]. apply Hw, Hin, Hc.
  - intros c Hc. apply in_app_iff in Hc as [Hc|[<-|[]]]; [|set_solver].
    apply Hin in Hc. set_solver.
Qed.

Lemma mapM_cons {A B} (f : A -> @M Conn B) (x : A) (l : list A) (w : World Conn) :
  mapM f (x :: l) w
  = match f x w with
    | (w1, Ok y) =>
        match mapM f l w1 with
        | (w2, Ok ys) => (w2, Ok (y :: ys))
        | (w2, Throw e) => (w2, Throw e)
        end
    | (w1, Throw e) => (w1, Throw e)
    end.
Proof.
  cbn [mapM]. unfold bind, ret. destruct (f x w) as [w1 [y|e]]; [|reflexivity].
  destruct (mapM f l w1) as [w2 [ys|e]]; reflexivity.
Qed.

(** One row of the removal of the extra fields. *)
Lemma onlySchemaColumnRow_spec (schema : Schema) (row : object) (w : World Conn) :
  snd (onlySchemaColumnRow schema row w) = Ok (pick row (Object_keys schema))
  /\ same_but_warnings w (fst (onlySchemaColumnRow schema row w))
  /\ (warned_once w -> warned_once (fst (onlySchemaColumnRow schema row w)))
  /\ ("AddDataExtraFields" ∈ warnedAlready w -> fst (onlySchemaColumnRow schema row w) = w)
  /\ (emitted (fst (onlySchemaColumnRow schema row w)) = emitted w
      \/ ("AddDataExtraFields" ∈ warnedAlready (fst (onlySchemaColumnRow schema row w))
          /\ length (emitted (fst (onlySchemaColumnRow schema row w)))
             = S (length (emitted w))))
  /\ (warnedAlready w ⊆ warnedAlready (fst (onlySchemaColumnRow schema row w))).
Proof.
  unfold onlySchemaColumnRow, bind, ret. destruct (negb _).
  - destruct (warn_spec (extra_fields_warning schema row) "ExtraFields"
                "AddDataExtraFields" w) as (H1 & H2 & H3 & H4 & H5 & H6).
    pose proof (warn_warned_once (extra_fields_warning schema row) "ExtraFields"
                  "AddDataExtraFields" w) as H7.
    destruct (warn _ _ _ w) as [w1 r1]. simpl in *. subst r1. simpl.
    split; [reflexivity|]. split; [exact H2|]. split; [exact H7|].
    split; [exact H5|]. split; [|exact H4].
    destruct H6 as [H6|[_ H6]]; [left; exact H6|right].
    split; [exact H3|]. rewrite H6, length_app. simpl. lia.
  - simpl. split; [reflexivity|]. split; [apply same_but_warnings_refl|].
    split; [auto|]. split; [auto|]. split; [left; reflexivity|set_solver].
Qed.

(** The removal of the extra fields never fails, gives the picked rows, and
    changes nothing but the warnings, of which it emits at most one. *)
Lemma onlySchemaColumns_spec (schema : Schema) (rows : list object) : forall w : World Conn,
  snd (mapM (onlySchemaColumnRow schema) rows w)
  = Ok (map (fun row => pick row (Object_keys schema)) rows)
  /\ same_but_warnings w (fst (mapM (onlySchemaColumnRow schema) rows w))
  /\ (warned_once w -> warned_once (fst (mapM (onlySchemaColumnRow schema) rows w)))
  /\ ("AddDataExtraFields" ∈ warnedAlready w ->
      emitted (fst (mapM (onlySchemaColumnRow schema) rows w)) = emitted w)
  /\ length (emitted (fst (mapM (onlySchemaColumnRow schema) rows w)))
     <= S (length (emitted w)).
Proof.
  induction rows as [|row rows IH]; intros w.
  - simpl. split; [reflexivity|]. split; [apply same_but_warnings_refl|].
    split; [auto|]. split; [auto|lia].
  - rewrite mapM_cons.
    destruct (onlySchemaColumnRow_spec schema row w) as (Hs1 & Hs2 & Hs3 & Hs4 & Hs5 & Hs6).
    destruct (onlySchemaColumnRow schema row w) as [w1 r1]. simpl in *. subst r1.
    destruct (IH w1) as (Hr & Hsame & Honce & Hkeep & Hlen).
    destruct (mapM (onlySchemaColumnRow schema) rows w1) as [w2 r2]. simpl in *. subst r2.
    simpl. split; [reflexivity|].
    split; [eapply same_but_warnings_trans; eassumption|]. split; [auto|]. split.
    + intros Hin. rewrite Hkeep; [rewrite (Hs4 Hin); reflexivity|].
      apply Hs6, Hin.
    + destruct Hs5 as [Hs5|[Hs5 Hs5']]; [rewrite <- Hs5; exact Hlen|].
      rewrite (Hkeep Hs5). lia.
Qed.

Lemma warned_once_kept (w w' : World Conn) :
  warnedAlready w' = warnedAlready w -> emitted w' = emitted w ->
  warned_once w -> warned_once w'.
Proof. unfold warned_once. intros -> ->. auto. Qed.

Lemma omap_length {A B} (f : A -> outcome B) (l : list A) (l' : list B) :
  omap f l = Ok l' -> length l' = length l.
Proof.
  revert l'. induction l as [|x l IH]; intros l'; simpl.
  - intros [= <-]. reflexivity.
  - destruct (f x) as [y|e]; simpl; [|discriminate].
    destruct (omap f l) as [ys|e]; simpl; [|discriminate].
    intros [= <-]. simpl. f_equal. apply IH. reflexivity.
Qed.

(** What [addData] does once the schema is known. *)
Lemma addData_with_schema (data : Data) (w w1 : World Conn) (schema : Schema) :
  getGeneralSchema w = (w1, Ok schema) ->
  addData data w
  = write_rows schema (map (fun row => pick row (Object_keys schema)) (concat_data data))
               (fst (mapM (onlySchemaColumnRow schema) (concat_data data) w1)).
Proof.
  intros Hschema. rewrite addData_eq. rewrite (bind_ok _ _ _ _ _ Hschema).
  destruct (onlySchemaColumns_spec schema (concat_data data) w1) as (Hr & _).
  unfold bind. destruct (mapM _ _ w1) as [w2 r]. simpl in *. subst r. reflexivity.
Qed.

(** [addData] warns at most once of each code, whatever it is called with. *)
Lemma addData_warned_once (data : Data) (w : World Conn) :
  warned_once w -> warned_once (fst (addData data w)).
Proof.
  intros Honce. destruct (keeps_getGeneralSchema w) as [Hw He].
  destruct (getGeneralSchema w) as [w1 [schema|e]] eqn:Hschema; simpl in *.
  - rewrite (addData_with_schema data w w1 schema Hschema).
    destruct (onlySchemaColumns_spec schema (concat_data data) w1) as (_ & _ & Hon & _).
    destruct (keeps_write_rows schema
                (map (fun row => pick row (Object_keys schema)) (concat_data data))
                (fst (mapM (onlySchemaColumnRow schema) (concat_data data) w1))) as [H1 H2].
    apply (warned_once_kept _ _ H1 H2). apply Hon.
    apply (warned_once_kept w w1 Hw He Honce).
  - rewrite addData_eq, (bind_throw _ _ _ _ _ Hschema). simpl.
    apply (warned_once_kept w w1 Hw He Honce).
Qed.

(** A process warns of extra fields at most once, however often it calls
    [addData]. *)
Lemma addData_all_warns_once (calls : list Data) (w : World Conn) :
  warnedAlready w = ∅ -> emitted w = [] ->
  count_occ string_dec (map warning_code (emitted (addData_all calls w)))
            "AddDataExtraFields" <= 1.
Proof.
  intros Hw He.
  assert (Honce : warned_once w).
  { unfold warned_once. rewrite He. simpl. split; [constructor|intros c []]. }
  clear Hw He. revert w Honce. induction calls as [|data calls IH]; intros w Honce; simpl.
  - apply NoDup_count_occ, Honce.
  - apply IH, addData_warned_once, Honce.
Qed.

End ManagerFacts.

Lemma distinct_query_witness :
  @Manager.getDataQuery Examples.constants _
    (Examples.answering [[("tags", Js.VStr "[1,2]")]; [("tags", Js.VStr "[]")]])
    true None (Some [("tags", Js.VNum 1)]) None
    (Examples.world (Some []) (Some [("id", TEXT); ("tags", ARRAY)]))
  = (Manager.with_read (Examples.world (Some []) (Some [("id", TEXT); ("tags", ARRAY)]))
       ("select from data", []),
     Ok (Manager.DistinctValues [Js.VArr [Js.VNum 1; Js.VNum 2]; Js.VArr []])).
Proof.
  pose proof (@distinct_query Examples.constants _
                (Examples.answering [[("tags", Js.VStr "[1,2]")]; [("tags", Js.VStr "[]")]])
                None (Some [("tags", Js.VNum 1)]) None
                (Examples.world (Some []) (Some [("id", TEXT); ("tags", ARRAY)]))
                (Examples.world (Some []) (Some [("id", TEXT); ("tags", ARRAY)]))
                [("id", TEXT); ("tags", ARRAY)] eq_refl) as Hq.
  cbv zeta in Hq. destruct Hq as (_ & _ & Hq).
  destruct (Hq "tags" ARRAY ("select from data", []) eq_refl ltac:(discriminate) eq_refl
              ltac:(discriminate) eq_refl) as [Hreads Hvalues].
  apply injective_projections; [|cbn [snd]].
  - reflexivity.
  - apply (Hvalues [[("tags", Js.VStr "[1,2]")]; [("tags", Js.VStr "[]")]]
                   [Js.VArr [Js.VNum 1; Js.VNum 2]; Js.VArr []]
                   (or_introl eq_refl) eq_refl eq_refl).
    repeat constructor.
Defined.

(** A distinct query over an NDARRAY column reads nothing. *)
Example distinct_NDARRAY_reads_nothing :
  @Manager.getDistinct Examples.constants _
    (Examples.answering [[("blob", Js.VStr "file")]]) "blob" None
    (Examples.world (Some []) (Some [("id", TEXT); ("blob", NDARRAY)]))
  = (Examples.world (Some []) (Some [("id", TEXT); ("blob", NDARRAY)]),
     Ok (Manager.DistinctValues [])).
Proof. reflexivity. Qed.

(** [key in schema] also holds for the names every object inherits: a
    distinct query on such a name is read. *)
Example distinct_inherited_is_read :
  Manager.reads
    (fst (@Manager.getDistinct Examples.constants _ Examples.memory "toString" None
            (Examples.world (Some []) (Some [("id", TEXT)]))))
  = [("select from data", [])].
Proof. reflexivity. Qed.

(** C8, as stated, fails: a distinct query over an ARRAY column is read. *)
Lemma distinct_ARRAY_counterexample :
  ~ @distinct_compound_reads_nothing Examples.constants _ Examples.memory
      (Examples.world (Some []) (Some [("id", TEXT); ("tags", ARRAY)])) "tags" None.
Proof.
  intros Hclaim.
  destruct (Hclaim [("id", TEXT); ("tags", ARRAY)] ARRAY eq_refl eq_refl eq_refl)
    as [_ Hreads].
  vm_compute in Hreads. discriminate Hreads.
Qed.

Example distinct_OBJECT_is_read :
  Manager.reads
    (fst (@Manager.getDistinct Examples.constants _ Examples.memory "meta" None
            (Examples.world (Some []) (Some [("meta", OBJECT)]))))
  = [("select from data", [])].
Proof. reflexivity. Qed.


(** Creating a dataset in an empty database, then again with the same
    schema, and with another one. *)
Example createDataset_twice :
  let options := [("id", Js.VStr "d1");
                  ("schema", Js.VObj [("dataSchema",
                                       Js.VObj [("id", Js.VObj [("__tdxType", Js.VArr [Js.VStr "string"])])]);
                                      ("uniqueIndex", Js.VArr [Js.VObj [("asc", Js.VStr "id")]])])] in
  let created := @Manager.createDataset Examples.constants _ Examples.memory options
                   (Examples.world None None) in
  snd created = Ok (Js.VStr "d1")
  /\ @Manager.createDataset Examples.constants _ Examples.memory
       [("schema", Js.get options "schema")] (fst created)
     = (fst created, Ok (Js.VStr "d1"))
  /\ @Manager.createDataset Examples.constants _ Examples.memory
       [("id", Js.VStr "d1")] (fst created)
     = (fst created,
        Throw (Manager.schemas_dont_coincide (Js.get options "schema")
                 (Js.VObj [("dataSchema", Js.VObj []); ("uniqueIndex", Js.VArr [])]))).
Proof. vm_compute. auto. Qed.

(* ------------------------------------------------------------------ *)
(** ** Further properties: sqlite-schema-converter.js *)
(* ------------------------------------------------------------------ *)

Section AssignmentFacts.
Import Js.

(** Assigning the entries of a list with distinct keys one after the other
    to an object that has none of them appends them in their order. *)
Lemma fold_set_field_some {A B} (f : string * A -> option B) (l : list (string * A)) :
  forall acc : list (string * B),
    List.NoDup (Object_keys acc ++ Object_keys l) ->
    fold_left (fun acc kv => match f kv with
                             | Some v => set_field acc (fst kv) v
                             | None => acc
                             end) l acc
    = acc ++ flat_map (fun kv => match f kv with
                                 | Some v => [(fst kv, v)]
                                 | None => []
                                 end) l.
Proof.
  induction l as [|[k x] l IH]; intros acc Hnd; simpl.
  - now rewrite app_nil_r.
  - assert (Hk : ~ In k (Object_keys acc)).
    { apply List.NoDup_remove_2 in Hnd. intros Hin. apply Hnd.
      apply in_or_app. now left. }
    assert (Hrest : List.NoDup (Object_keys acc ++ Object_keys l)).
    { now apply List.NoDup_remove_1 in Hnd. }
    destruct (f (k, x)) as [v|].
    + rewrite set_field_fresh by (now apply lookup_field_None).
      rewrite IH.
      * now rewrite <- app_assoc.
      * unfold Object_keys in *. rewrite map_app. simpl.
        rewrite <- app_assoc. exact Hnd.
    + rewrite IH by exact Hrest. reflexivity.
Qed.


Lemma set_field_keys_NoDup {A} (fields : list (string * A)) (k : string) (v : A) :
  List.NoDup (Object_keys fields) -> List.NoDup (Object_keys (set_field fields k v)).
Proof.
  induction fields as [|[k' v'] fields IH]; simpl; intros Hnd.
  - constructor; [intros []|constructor].
  - destruct (String.eqb k k') eqn:E.
    + apply String.eqb_eq in E. subst k'. exact Hnd.
    + simpl. inversion Hnd as [|? ? Hnin Hnd']; subst.
      constructor.
      * intros Hin. apply keys_set_field in Hin. destruct Hin as [->|Hin].
        -- rewrite String.eqb_refl in E. discriminate.
        -- now apply Hnin.
      * now apply IH.
Qed.

Lemma lookup_set_field {A} (fields : list (string * A)) (k k' : string) (v : A) :
  lookup_field k' (set_field fields k v)
  = if String.eqb k' k then Some v else lookup_field k' fields.
Proof.
  induction fields as [|[k0 v0] fields IH]; simpl.
  - destruct (String.eqb k' k); reflexivity.
  - destruct (String.eqb k k0) eqn:E.
    + apply String.eqb_eq in E. subst k0. simpl.
      destruct (String.eqb k' k); reflexivity.
    + simpl. destruct (String.eqb k' k0) eqn:E'.
      * apply String.eqb_eq in E'. subst k0.
        rewrite String.eqb_sym, E. reflexivity.
      * exact IH.
Qed.

End AssignmentFacts.

Section ConverterCoverage.
Import Js Converter Properties Invariants.
Context `{Constants}.


Lemma getBasicType_scalar (tdxTypes : value) (t : GeneralType) :
  getBasicType tdxTypes = Ok t -> t = TEXT \/ t = INTEGER \/ t = REAL \/ t = NUMERIC.
Proof.
  unfold getBasicType.
  destruct (index tdxTypes 0) as [t0|]; [|discriminate].
  destruct (index tdxTypes 1) as [t1|]; [|discriminate].
  cbn [obind].
  repeat match goal with
         | |- context [if ?c then _ else _] => destruct c
         | |- context [obind ?m _] => destruct m; cbn [obind]
         end;
    intros Heq; try discriminate; injection Heq as <-; auto.
Qed.

Lemma convertSchema_entry_type (d : value) (t : GeneralType) :
  convertSchema_entry d = Ok (Some t) -> t <> NDARRAY.
Proof.
  destruct d; simpl; try discriminate.
  - intros [= <-]. discriminate.
  - destruct (hasOwnProperty fields "hasOwnProperty"); [discriminate|].
    destruct (hasOwnProperty fields TDX_TYPE_NAME).
    + destruct (getBasicType (get fields TDX_TYPE_NAME)) as [t'|] eqn:E; simpl; [|discriminate].
      intros [= <-]. apply getBasicType_scalar in E.
      destruct E as [->|[->|[->| ->]]]; discriminate.
    + intros [= <-]. discriminate.
Qed.

Lemma convertSchema_entry_described (d : value) :
  described d = false -> convertSchema_entry d = Ok None.
Proof. destruct d; simpl; try reflexivity; discriminate. Qed.

Lemma convertSchema_entry_column (d : value) (r : option GeneralType) :
  described d = true -> convertSchema_entry d = Ok r -> exists t, r = Some t.
Proof.
  destruct d; simpl; try discriminate; intros _.
  - intros [= <-]. eauto.
  - destruct (hasOwnProperty fields "hasOwnProperty"); [discriminate|].
    destruct (hasOwnProperty fields TDX_TYPE_NAME).
    + destruct (getBasicType (get fields TDX_TYPE_NAME)); simpl; [|discriminate].
      intros [= <-]. eauto.
    + intros [= <-]. eauto.
Qed.

Lemma convertSchema_loop_types (entries : list (string * value)) :
  forall acc s,
    convertSchema_loop entries acc = Ok s ->
    List.NoDup (Object_keys acc) ->
    (forall column t, lookup_field column acc = Some t -> t <> NDARRAY) ->
    List.NoDup (Object_keys s)
    /\ (forall column t, lookup_field column s = Some t -> t <> NDARRAY).
Proof.
  induction entries as [|[key d] entries IH]; simpl; intros acc s Hs Hnd Hty.
  - injection Hs as <-. now split.
  - destruct (convertSchema_entry d) as [r|] eqn:E; [|discriminate]. cbn [obind] in Hs.
    apply IH in Hs; [exact Hs| |].
    + destruct r; [|exact Hnd]. unfold assign.
      destruct (String.eqb key "__proto__"); [exact Hnd|now apply set_field_keys_NoDup].
    + destruct r as [ty|]; [|exact Hty]. unfold assign.
      destruct (String.eqb key "__proto__"); [exact Hty|].
      intros column t. rewrite lookup_set_field.
      destruct (String.eqb column key).
      * intros [= <-]. now apply convertSchema_entry_type in E.
      * apply Hty.
Qed.

(** X3 ([convertSchema], [getBasicType]): whatever the document schema, a
    general schema that [convertSchema] returns names each column once and
    gives it one of the types TEXT, INTEGER, REAL, NUMERIC, OBJECT and
    ARRAY: the converter never yields an NDARRAY column. *)
Theorem convertSchema_types (schema : value) (s : Schema) :
  convertSchema schema = Ok s ->
  List.NoDup (Object_keys s)
  /\ (forall column t, lookup_field column s = Some t -> t <> NDARRAY).
Proof.
  intros Hs. unfold convertSchema in Hs.
  apply convertSchema_loop_types in Hs; [exact Hs|constructor|].
  intros column t. simpl. discriminate.
Qed.

Lemma convertSchema_loop_columns (entries : list (string * value)) :
  forall acc s,
    List.NoDup (Object_keys acc ++ Object_keys entries) ->
    ~ In "__proto__" (Object_keys entries) ->
    convertSchema_loop entries acc = Ok s ->
    exists new,
      s = acc ++ new
      /\ Forall2 (fun kv ct => fst ct = fst kv
                               /\ convertSchema_entry (snd kv) = Ok (Some (snd ct)))
                 (List.filter (fun kv => described (snd kv)) entries) new.
Proof.
  induction entries as [|[key d] entries IH]; simpl; intros acc s Hnd Hproto Hs.
  - injection Hs as <-. exists []. split; [now rewrite app_nil_r|constructor].
  - destruct (convertSchema_entry d) as [r|] eqn:E; [|discriminate]. cbn [obind] in Hs.
    assert (Hk : ~ In key (Object_keys acc)).
    { apply List.NoDup_remove_2 in Hnd. intros Hin. apply Hnd.
      apply in_or_app. now left. }
    assert (Hrest : ~ In "__proto__" (Object_keys entries)) by (intros Hin; apply Hproto; now right).
    destruct (described d) eqn:Hd.
    + destruct (convertSchema_entry_column d r Hd E) as [ty ->].
      rewrite assign_new in Hs; [|intros ->; apply Hproto; now left|exact Hk].
      apply IH in Hs; [|unfold Object_keys in *; rewrite map_app; simpl;
                         rewrite <- app_assoc; exact Hnd|exact Hrest].
      destruct Hs as [new [-> Hall]]. exists ((key, ty) :: new). split.
      * now rewrite <- app_assoc.
      * constructor; [split; [reflexivity|exact E]|exact Hall].
    + rewrite (convertSchema_entry_described d Hd) in E. injection E as <-.
      apply IH in Hs; [exact Hs| |exact Hrest]. now apply List.NoDup_remove_1 in Hnd.
Qed.

(** X2 ([convertSchema]): over a document schema with distinct keys, none
    of them [__proto__], that has no numeric [length] (such an object is
    walked as an array), the columns of the general schema are the entries
    whose descriptor is an array or an object, in their order, each with
    the type its descriptor converts to; an entry with any other descriptor
    (a string, a number, null) is left out without an error. *)
Theorem convertSchema_columns (fields : list (string * value)) (s : Schema) :
  List.NoDup (Object_keys fields) ->
  ~ In "__proto__" (Object_keys fields) ->
  array_like fields = None ->
  convertSchema (VObj fields) = Ok s ->
  Object_keys s = Object_keys (List.filter (fun kv => described (snd kv)) fields)
  /\ Forall2 (fun kv ct => fst ct = fst kv
                           /\ convertSchema_entry (snd kv) = Ok (Some (snd ct)))
             (List.filter (fun kv => described (snd kv)) fields) s.
Proof.
  intros Hnd Hproto Hplain Hs. unfold convertSchema in Hs.
  rewrite (entries_of_plain fields Hplain) in Hs.
  apply convertSchema_loop_columns in Hs; [|exact Hnd|exact Hproto].
  destruct Hs as [new [-> Hall]]. simpl. split; [|exact Hall].
  clear - Hall. induction Hall as [|kv ct l l' [Hk _] _ IH]; simpl; [reflexivity|].
  now rewrite Hk, IH.
Qed.

Lemma double_quotes_injective (a : string) :
  forall b, double_quotes a = double_quotes b -> a = b.
Proof.
  induction a as [|c a IH]; intros [|d b]; simpl.
  - reflexivity.
  - destruct (Ascii.eqb d dquote); discriminate.
  - destruct (Ascii.eqb c dquote); discriminate.
  - destruct (Ascii.eqb c dquote) eqn:Ec, (Ascii.eqb d dquote) eqn:Ed.
    + apply Ascii.eqb_eq in Ec, Ed. subst. intros [= Heq]. f_equal. now apply IH.
    + intros [= <- Heq]. apply Ascii.eqb_eq in Ec. subst c.
      rewrite Ascii.eqb_refl in Ed. discriminate.
    + intros [= -> Heq]. apply Ascii.eqb_eq in Ed. subst d.
      rewrite Ascii.eqb_refl in Ec. discriminate.
    + intros [= <- Heq]. f_equal. now apply IH.
Qed.

Lemma append_injective_l (a : string) (tail : string) :
  forall b, a +:+ tail = b +:+ tail -> a = b.
Proof.
  induction a as [|c a IH]; intros [|d b]; simpl; intros Heq.
  - reflexivity.
  - exfalso. apply (f_equal String.length) in Heq. simpl in Heq.
    rewrite append_length in Heq. lia.
  - exfalso. apply (f_equal String.length) in Heq. simpl in Heq.
    rewrite append_length in Heq. lia.
  - injection Heq as <- Heq. f_equal. now apply IH.
Qed.

Lemma delimited_injective (a b : string) :
  delimit (double_quotes a) = delimit (double_quotes b) -> a = b.
Proof.
  unfold delimit. intros [= Heq].
  apply append_injective_l in Heq. now apply double_quotes_injective.
Qed.

(** X4 ([convertToSqlite]): storing loses nothing. Two values valid under a
    type that [convertToSqlite] stores as the same thing, under the same
    options (delimited or [onlyStringify]), are the same value. *)
Theorem convertToSqlite_injective (t : GeneralType) (options v1 v2 stored : value) :
  valid_under t v1 = true -> valid_under t v2 = true ->
  convertToSqlite (Some t) v1 options = Ok stored ->
  convertToSqlite (Some t) v2 options = Ok stored ->
  v1 = v2.
Proof.
  intros Hv1 Hv2 H1 H2.
  assert (Hjson : forall a b : value,
            is_json a = true -> is_json b = true -> stringify a = stringify b -> a = b).
  { intros a b Ha Hb Heq.
    pose proof (JSON_parse_stringify a Ha) as Pa.
    pose proof (JSON_parse_stringify b Hb) as Pb.
    rewrite Heq in Pa. rewrite Pa in Pb. now injection Pb. }
  unfold convertToSqlite in H1, H2.
  destruct t.
  - (* TEXT *)
    destruct v1 as [| | | |s1| |]; try discriminate Hv1.
    destruct v2 as [| | | |s2| |]; try discriminate Hv2.
    destruct (truthy _).
    + congruence.
    + f_equal. apply delimited_injective. congruence.
  - congruence.
  - congruence.
  - congruence.
  - (* OBJECT *)
    destruct v1 as [| | | | | |f1]; try discriminate Hv1.
    destruct v2 as [| | | | | |f2]; try discriminate Hv2.
    change (is_json (VObj f1) = true) in Hv1. change (is_json (VObj f2) = true) in Hv2.
    cbn [JSON_stringify] in H1, H2.
    destruct (truthy _); apply Hjson; try assumption.
    + congruence.
    + apply delimited_injective. congruence.
  - (* ARRAY *)
    destruct v1 as [| | | | |i1|]; try discriminate Hv1.
    destruct v2 as [| | | | |i2|]; try discriminate Hv2.
    change (is_json (VArr i1) = true) in Hv1. change (is_json (VArr i2) = true) in Hv2.
    cbn [JSON_stringify] in H1, H2.
    destruct (truthy _); apply Hjson; try assumption.
    + congruence.
    + apply delimited_injective. congruence.
  - discriminate Hv1.
Qed.

End ConverterCoverage.

(* ------------------------------------------------------------------ *)
(** ** Further properties: sqlite-helper.js *)
(* ------------------------------------------------------------------ *)

Section HelperCoverage.
Import Js Helper Properties Invariants.

Lemma protocol_app (a b : list Cmd) : forall state,
  protocol state (a ++ b)
  = match protocol state a with
    | Some state' => protocol state' b
    | None => None
    end.
Proof.
  induction a as [|c a IH]; intros state; simpl; [reflexivity|].
  destruct (protocol_step state c); [apply IH|reflexivity].
Qed.

Lemma existsb_seq (a k x : nat) : existsb (Nat.eqb x) (seq a k) = true <-> a <= x < a + k.
Proof.
  rewrite existsb_exists. split.
  - intros [y [Hin Heq]]. apply Nat.eqb_eq in Heq. subst y. now apply in_seq in Hin.
  - intros Hx. exists x. split; [now apply in_seq|apply Nat.eqb_refl].
Qed.

Lemma cached_statement (st : Issued) (key : string) (statement : nat) :
  cache_ok st -> lookup_field key (cachedStatements st) = Some statement ->
  existsb (Nat.eqb statement) (map snd (cachedStatements st)) = true.
Proof.
  intros _ Hl. apply lookup_field_In in Hl.
  apply existsb_exists. exists statement. split; [|apply Nat.eqb_refl].
  apply in_map_iff. now exists (key, statement).
Qed.

Lemma cache_ok_add (st : Issued) (key : string) :
  cache_ok st -> lookup_field key (cachedStatements st) = None ->
  List.NoDup (map fst (cachedStatements st ++ [(key, length (cachedStatements st))]))
  /\ map snd (cachedStatements st ++ [(key, length (cachedStatements st))])
     = seq 0 (length (cachedStatements st ++ [(key, length (cachedStatements st))])).
Proof.
  intros [Hnd Hseq] Hnone. split.
  - rewrite map_app. simpl.
    apply List.NoDup_app; [exact Hnd|constructor; [intros []|constructor]|].
    intros k Hin [<-|[]]. now apply lookup_field_None in Hnone.
  - rewrite map_app, Hseq, length_app. simpl. now rewrite seq_app.
Qed.

(** The loop over the rows keeps to the protocol: from a cache in order it
    prepares each new statement before running it, inside the transaction,
    and leaves exactly the cached statements prepared. *)
Lemma rows_loop_protocol (creator : SQLiteStatementCreator) (data : list object) :
  forall st, cache_ok st ->
    exists rc,
      commands (fst (rows_loop creator data st)) = commands st ++ rc
      /\ protocol (map snd (cachedStatements st), true) rc
         = Some (map snd (cachedStatements (fst (rows_loop creator data st))), true)
      /\ cache_ok (fst (rows_loop creator data st)).
Proof.
  induction data as [|row rest IH]; intros st Hok.
  - exists []. simpl. now rewrite app_nil_r.
  - destruct (lookup_field (key_of row) (cachedStatements st)) as [statement|] eqn:Hl.
    + rewrite (rows_loop_hit _ _ _ _ _ Hl).
      destruct (IH (submit st [StatementRun statement (Object_values row)]) Hok)
        as [rc [Hc [Hp Hok']]].
      exists (StatementRun statement (Object_values row) :: rc). split; [|split].
      * rewrite Hc. simpl. now rewrite <- app_assoc.
      * simpl. rewrite (cached_statement st _ _ Hok Hl). exact Hp.
      * exact Hok'.
    + destruct (creator (Object_keys row)) as [sql|e] eqn:Hc.
      * rewrite (rows_loop_miss _ _ _ _ _ Hl Hc).
        set (statement := length (cachedStatements st)).
        set (st' := {| cachedStatements := cachedStatements st ++ [(key_of row, statement)];
                       commands := commands st ++ [Prepare statement sql;
                                                   StatementRun statement (Object_values row)];
                       creatorCalls := creatorCalls st ++ [Object_keys row] |}).
        assert (Hok' : cache_ok st') by (now apply cache_ok_add).
        destruct (IH st' Hok') as [rc [Hcmd [Hp Hok'']]].
        exists (Prepare statement sql :: StatementRun statement (Object_values row) :: rc).
        split; [|split].
        -- rewrite Hcmd. simpl. now rewrite <- app_assoc.
        -- destruct Hok as [_ Hseq]. simpl.
           assert (Hfresh : existsb (Nat.eqb statement) (map snd (cachedStatements st)) = false).
           { apply not_true_is_false. rewrite Hseq. intros Hin.
             apply existsb_seq in Hin. unfold statement in Hin. lia. }
           rewrite Hfresh. simpl.
           rewrite existsb_app. simpl. rewrite Nat.eqb_refl, orb_true_r.
           simpl in Hp. rewrite map_app in Hp. exact Hp.
        -- exact Hok''.
      * rewrite (rows_loop_throw _ _ _ _ _ Hl Hc). simpl.
        exists []. split; [now rewrite app_nil_r|split; [reflexivity|exact Hok]].
Qed.

Lemma finalizes_protocol (k : nat) : forall a,
  protocol (seq a k, false) (map Finalize (seq a k)) = Some ([], false).
Proof.
  induction k as [|k IH]; intros a; simpl; [reflexivity|].
  rewrite Nat.eqb_refl. simpl.
  replace (List.filter (fun other => negb (Nat.eqb other a)) (seq (S a) k)) with (seq (S a) k).
  - apply IH.
  - symmetry. apply forallb_filter_id. apply forallb_forall. intros x Hin.
    apply in_seq in Hin. apply negb_true_iff. apply Nat.eqb_neq. lia.
Qed.

Lemma issue_protocol (creator : SQLiteStatementCreator) (data : list object) :
  protocol ([], false) (commands (fst (issue creator data))) = Some ([], false).
Proof.
  rewrite issue_eq.
  destruct (rows_loop_protocol creator data initial initial_ok) as [rc [Hc [Hp [_ Hseq]]]].
  simpl. rewrite Hc. simpl. rewrite <- app_assoc.
  rewrite protocol_app. simpl in Hp. rewrite Hp. simpl.
  rewrite <- (map_map snd Finalize), Hseq.
  apply finalizes_protocol.
Qed.

Lemma issue_runs (creator : SQLiteStatementCreator) (data : list object) :
  runs (commands (fst (issue creator data))) = [BEGIN_TRANSACTION; COMMIT_TRANSACTION].
Proof.
  destruct (issue_shape creator data) as [n [rc [new [Hadds [Hcmds _]]]]].
  rewrite Hcmds. simpl. rewrite runs_app. simpl.
  now rewrite (adds_no_run _ _ _ _ _ _ Hadds), runs_finalizes.
Qed.

(** X5 ([executeMany]): whatever the rows and whatever the statement
    creator does, what is submitted to the connection keeps to the
    statement protocol: one transaction is opened and committed, every
    statement is prepared inside it before it is first run and is run only
    inside it, and after the commit every prepared statement is finalized
    exactly once, so that none is left open. *)
Theorem executeMany_statement_protocol (engine : Engine) (creator : SQLiteStatementCreator)
  (data : list object) :
  protocol ([], false) (commands (fst (executeMany engine creator data)))
  = Some ([], false).
Proof.
  unfold executeMany.
  pose proof (issue_protocol creator data) as Hp.
  destruct (issue creator data) as [st thrown]. exact Hp.
Qed.

Lemma first_row_error_silent (engine : Engine) (cmds : list Cmd) :
  (forall pos, engine pos = None) -> forall pos, first_row_error engine pos cmds = None.
Proof.
  intros Hs. induction cmds as [|c cmds IH]; intros pos; simpl; [reflexivity|].
  destruct c; rewrite ?Hs; apply IH.
Qed.

Lemma finalizes_silent (engine : Engine) (cmds : list Cmd) :
  (forall pos, engine pos = None) ->
  forall pos, finalizes engine pos cmds = inr (repeat VUndefined (length (finalized cmds))).
Proof.
  intros Hs. induction cmds as [|c cmds IH]; intros pos; simpl; [reflexivity|].
  destruct c; simpl; rewrite ?Hs, IH; reflexivity.
Qed.

Lemma settle_silent (engine : Engine) (cmds : list Cmd) :
  (forall pos, engine pos = None) ->
  settle engine cmds None = Resolved (repeat VUndefined (length (finalized cmds))).
Proof.
  intros Hsilent. unfold settle.
  rewrite callbacks_pending, first_row_error_silent by exact Hsilent.
  rewrite finalizes_silent by exact Hsilent. reflexivity.
Qed.

(** The rows are run in their order, each with its own values, up to the
    row the statement creator throws for. *)
Lemma issue_runs_values (creator : SQLiteStatementCreator) (data : list object) :
  exists n,
    n <= length data
    /\ map snd (statement_runs (commands (fst (issue creator data))))
       = map Object_values (firstn n data)
    /\ (snd (issue creator data) = None -> n = length data).
Proof.
  destruct (issue_shape creator data)
    as [n [rc [new [Hadds [Hcmds [_ [_ [Hsnd _]]]]]]]].
  destruct (issue_statement_runs creator data rc new Hcmds) as [Hruns _].
  exists n. split; [exact (adds_le _ _ _ _ _ _ Hadds)|split].
  - rewrite Hruns.
    pose proof (adds_runs _ _ _ _ _ _ Hadds) as Hall.
    clear - Hall. induction Hall as [|row run rows runs' [_ Hv] _ IH]; simpl; [reflexivity|].
    now rewrite Hv, IH.
  - intros Hnone. apply (adds_all _ _ _ _ _ _ Hadds). congruence.
Qed.

(** X6 ([executeMany]): when the statement creator throws for no row and
    the connection reports no error, the promise is resolved, with one
    result ([undefined], what a finalize gives) for each statement that was
    compiled, that is for each distinct joined key list of the batch; in
    particular an empty batch resolves with the empty list. *)
Theorem executeMany_resolves (engine : Engine) (creator : SQLiteStatementCreator)
  (data : list object) :
  (forall row, In row data -> exists sql, creator (Object_keys row) = Ok sql) ->
  (forall pos, engine pos = None) ->
  snd (executeMany engine creator data)
  = Resolved (repeat VUndefined (length (nodup string_dec (map key_of data))))
  /\ length (cachedStatements (fst (executeMany engine creator data)))
     = length (nodup string_dec (map key_of data)).
Proof.
  intros Htotal Hsilent.
  pose proof (total_creator_not_thrown creator data Htotal) as Hthrown.
  destruct (issue_shape creator data)
    as [n [rc [new [Hadds [Hcmds [Hcache [_ [Hsnd [_ Hnd]]]]]]]]].
  destruct (issue_statement_runs creator data rc new Hcmds) as [_ [_ Hfin]].
  assert (Hlen : length new = length (nodup string_dec (map key_of data))).
  { rewrite <- (length_map fst new).
    apply NoDup_same_length; [exact Hnd|apply NoDup_nodup|].
    intros k. rewrite nodup_In.
    rewrite (adds_keys _ _ _ _ _ _ Hadds k).
    rewrite Hsnd in Hthrown.
    rewrite (adds_all _ _ _ _ _ _ Hadds Hthrown), firstn_all. simpl. tauto. }
  unfold executeMany.
  destruct (issue creator data) as [st thrown] eqn:Hi. simpl in *. subst thrown.
  split; [|now rewrite Hcache].
  unfold settle. rewrite callbacks_pending, first_row_error_silent by exact Hsilent.
  rewrite finalizes_silent by exact Hsilent. simpl.
  rewrite Hfin, (adds_no_finalize _ _ _ _ _ _ Hadds). simpl.
  now rewrite length_seq, Hlen.
Qed.

(** X7 ([executeMany]): an exception of the statement creator ends the
    batch where it is thrown, and what came before stays. The rows are run
    in their order, each with its own values, up to the row the creator
    threw for; the rows from there on are not run, the promise is rejected
    with the exception, and the rows run before it are inside the
    transaction that is still committed. When the creator throws for no
    row that reaches it, every row is run. *)
Theorem executeMany_stops_at_throw (engine : Engine) (creator : SQLiteStatementCreator)
  (data : list object) :
  let cmds := commands (fst (executeMany engine creator data)) in
  exists n rows,
    n <= length data
    /\ map snd (statement_runs cmds) = map Object_values (firstn n data)
    /\ cmds = Run BEGIN_TRANSACTION :: rows
              ++ Run COMMIT_TRANSACTION :: map Finalize (map fst (prepares rows))
    /\ statement_runs rows = statement_runs cmds
    /\ (snd (issue creator data) = None -> n = length data)
    /\ (forall e, snd (issue creator data) = Some e ->
          snd (executeMany engine creator data) = Rejected e
          /\ exists row, nth_error data n = Some row
                         /\ creator (Object_keys row) = Throw e).
Proof.
  destruct (issue_shape creator data)
    as [n [rc [new [Hadds [Hcmds [Hcache [_ [Hsnd [Hprep _]]]]]]]]].
  destruct (issue_statement_runs creator data rc new Hcmds) as [Hruns _].
  assert (Hsettle : forall e, snd (issue creator data) = Some e ->
                              snd (executeMany engine creator data) = Rejected e).
  { intros e He. unfold executeMany.
    destruct (issue creator data) as [st thrown]. simpl in *. subst thrown.
    apply settle_recorded. now rewrite He. }
  unfold executeMany in *.
  destruct (issue creator data) as [st thrown] eqn:Hi. simpl in *.
  exists n, rc. split; [exact (adds_le _ _ _ _ _ _ Hadds)|split; [|split; [|split; [|split]]]].
  - rewrite Hruns.
    pose proof (adds_runs _ _ _ _ _ _ Hadds) as Hall.
    clear - Hall. induction Hall as [|row run rows runs' [_ Hv] _ IH]; simpl; [reflexivity|].
    now rewrite Hv, IH.
  - rewrite Hcmds, Hprep. reflexivity.
  - now rewrite Hruns.
  - intros Hnone. apply (adds_all _ _ _ _ _ _ Hadds). congruence.
  - intros e He. split; [now apply Hsettle|].
    apply (adds_thrown _ _ _ _ _ _ Hadds). congruence.
Qed.

End HelperCoverage.

(* ------------------------------------------------------------------ *)
(** ** Further properties: sqlite-manager.js, datasets *)
(* ------------------------------------------------------------------ *)

Section DatasetCoverage.
Import Js Helper Manager Properties Invariants.
Context `{Constants} {Conn : Type} `{Collaborators Conn}.

Lemma getGeneralSchema_stored (w : World Conn) (s : Schema) :
  generalSchema w = Some s -> getGeneralSchema w = (w, Ok s).
Proof. intros Hs. unfold getGeneralSchema. now rewrite Hs. Qed.

Lemma getGeneralSchema_uncached (w : World Conn) :
  generalSchema w = None ->
  getGeneralSchema w
  = match getInfoKeys (conn w) ["schema"] with
    | Ok [] => (w, Ok [])
    | Ok (first :: _) =>
        match assign_default (or_default (get first "schema") (VObj []))
                             "dataSchema" (VObj []) with
        | Ok schema =>
            match Converter.convertSchema (Converter.property schema "dataSchema") with
            | Ok thisGeneralSchema =>
                ({| conn := conn w; generalSchema := Some thisGeneralSchema;
                    warnedAlready := warnedAlready w; emitted := emitted w;
                    reads := reads w; batches := batches w |}, Ok thisGeneralSchema)
            | Throw e => (w, Throw e)
            end
        | Throw e => (w, Throw e)
        end
    | Throw e => (w, Throw e)
    end.
Proof.
  intros Hnone. unfold getGeneralSchema. rewrite Hnone.
  unfold bind, reading, lift, ret, set_generalSchema.
  destruct (getInfoKeys (conn w) ["schema"]) as [[|first rest]|e]; reflexivity.
Qed.

(** X8 ([getGeneralSchema]): the schema is kept on the handle once it was
    read from an info table that holds one: every later call returns it
    without consulting the database, whatever the database holds by then.
    When the info table holds no schema the result is the empty schema and
    nothing is kept. *)
Theorem getGeneralSchema_cached (w : World Conn) (s : Schema) :
  generalSchema w = None ->
  snd (getGeneralSchema w) = Ok s ->
  (getInfoKeys (conn w) ["schema"] = Ok [] -> s = [] /\ fst (getGeneralSchema w) = w)
  /\ (getInfoKeys (conn w) ["schema"] <> Ok [] ->
      forall c : Conn,
        getGeneralSchema (with_conn (fst (getGeneralSchema w)) c)
        = (with_conn (fst (getGeneralSchema w)) c, Ok s)).
Proof.
  intros Hnone. rewrite (getGeneralSchema_uncached w Hnone).
  destruct (getInfoKeys (conn w) ["schema"]) as [[|first rest]|e]; simpl.
  - intros [= <-]. split; [now split|]. intros Hne. now contradiction Hne.
  - destruct (assign_default _ _ _) as [schema|e]; simpl; [|discriminate].
    destruct (Converter.convertSchema _) as [s'|e]; simpl; [|discriminate].
    intros [= <-]. split; [discriminate|]. intros _ c.
    now apply getGeneralSchema_stored.
  - discriminate.
Qed.

(** X9 ([createDataset]): a unique index without a data schema is refused
    at once. When [options.schema] has a non-empty [uniqueIndex] array and
    its [dataSchema] is missing or empty, the call throws the error that
    the index does not match the schema, and nothing is read from or
    written to the database. *)
Theorem createDataset_index_without_schema (options : object) (w : World Conn)
  (schema : object) (entry : value) (entries : list value) :
  get options "schema" = VObj schema ->
  isEmpty (or_default (get schema "dataSchema") (VObj [])) = true ->
  get schema "uniqueIndex" = VArr (entry :: entries) ->
  createDataset options w = (w, Throw index_doesnt_match).
Proof.
  intros Hschema Hempty Hindex.
  unfold createDataset, fill_options.
  rewrite get_set_field. cbn [String.eqb Ascii.eqb Bool.eqb]. rewrite Hschema.
  cbn [or_default truthy assign_default obind].
  rewrite get_set_field. cbn [String.eqb Ascii.eqb Bool.eqb].
  rewrite Hindex. cbn [or_default truthy obind].
  unfold bind at 1. unfold lift at 1.
  rewrite get_set_field, String.eqb_refl.
  unfold index_without_schema, Converter.property.
  rewrite !get_set_field.
  cbn [String.eqb Ascii.eqb Bool.eqb].
  rewrite Hempty. reflexivity.
Qed.

Lemma fill_options_id (fresh : string) (options filled : object) :
  fill_options fresh options = Ok filled ->
  get filled "id" = or_default (get options "id") (VStr fresh).
Proof.
  unfold fill_options.
  destruct (assign_default _ "dataSchema" _) as [schema1|e]; cbn [obind]; [|discriminate].
  destruct (assign_default _ "uniqueIndex" _) as [schema2|e]; cbn [obind]; [|discriminate].
  intros [= <-]. rewrite !get_set_field. reflexivity.
Qed.

(** X10 ([createDataset]): on a database without an info table, a call that
    succeeds returns the id of its options when that is given (truthy), and
    the freshly generated id otherwise. *)
Theorem createDataset_new_id (options : object) (w : World Conn) (r : value) :
  checkInfoTable (conn w) = Ok false ->
  snd (createDataset options w) = Ok r ->
  r = or_default (get options "id") (VStr (shortid_generate (conn w))).
Proof.
  intros Hcheck Hr. unfold createDataset in Hr.
  destruct (fill_options (shortid_generate (conn w)) options) as [filled|e] eqn:Hf.
  - apply fill_options_id in Hf. rewrite <- Hf.
    unfold bind at 1 in Hr. unfold lift at 1 in Hr.
    destruct (index_without_schema (get filled "schema")); [discriminate Hr|].
    unfold bind at 1 in Hr. unfold reading at 1 in Hr. rewrite Hcheck in Hr.
    unfold bind, lift, changing, throw, ret in Hr.
    repeat match type of Hr with
           | context [match ?x with _ => _ end] => destruct x eqn:?; try discriminate Hr
           end.
    all: simpl in Hr; congruence.
  - discriminate Hr.
Qed.

Lemma getGeneralSchema_conn (w : World Conn) :
  conn (fst (getGeneralSchema w)) = conn w.
Proof.
  destruct (generalSchema w) as [s|] eqn:Hs.
  - now rewrite (getGeneralSchema_stored w s Hs).
  - rewrite (getGeneralSchema_uncached w Hs).
    destruct (getInfoKeys (conn w) ["schema"]) as [[|first rest]|e]; try reflexivity.
    destruct (assign_default _ _ _) as [schema|e]; try reflexivity.
    destruct (Converter.convertSchema _) as [s'|e]; reflexivity.
Qed.


End DatasetCoverage.

(* ------------------------------------------------------------------ *)
(** ** Further properties: sqlite-manager.js, reads *)
(* ------------------------------------------------------------------ *)

Section ReadCoverage.
Import Js Helper Manager Properties Invariants.
Context `{Constants} {Conn : Type} `{Collaborators Conn}.

Lemma reads_nothing_ret {A} (a : A) : reads_nothing (ret (Conn := Conn) a).
Proof. split; [intros w; now repeat split|now intros w]. Qed.

Lemma reads_nothing_throw {A} (e : JsError) : reads_nothing (throw (Conn := Conn) (A := A) e).
Proof. split; [intros w; now repeat split|now intros w]. Qed.

Lemma reads_nothing_lift {A} (o : outcome A) : reads_nothing (lift (Conn := Conn) o).
Proof. split; [intros w; now repeat split|now intros w]. Qed.

Lemma reads_nothing_reading {A} (f : Conn -> outcome A) : reads_nothing (reading f).
Proof. split; [intros w; now repeat split|now intros w]. Qed.

Lemma reads_nothing_bind {A B} (m : @M Conn A) (k : A -> @M Conn B) :
  reads_nothing m -> (forall a, reads_nothing (k a)) -> reads_nothing (bind m k).
Proof.
  intros [Hm Hmr] Hk. split.
  - intros w. unfold bind. specialize (Hm w). specialize (Hmr w).
    destruct (m w) as [w1 [a|e]]; simpl in *; [|exact Hm].
    destruct (Hk a) as [Hka _]. specialize (Hka w1).
    destruct Hm as (M1 & M2 & M3 & M4), Hka as (K1 & K2 & K3 & K4).
    repeat split; congruence.
  - intros w. unfold bind. specialize (Hmr w).
    destruct (m w) as [w1 [a|e]]; simpl in *; [|exact Hmr].
    destruct (Hk a) as [_ Hkr]. now rewrite Hkr.
Qed.

Lemma reads_nothing_getGeneralSchema : reads_nothing (getGeneralSchema (Conn := Conn)).
Proof.
  split.
  - intros w. destruct (getGeneralSchema_same_process w) as (Hw & He & _ & Hb).
    repeat split; [apply getGeneralSchema_conn|exact Hb|exact Hw|exact He].
  - intros w. now destruct (getGeneralSchema_same_process w) as (_ & _ & Hr & _).
Qed.

Lemma reads_nothing_getResource (noThrow : bool) :
  reads_nothing (getResource (Conn := Conn) noThrow).
Proof.
  unfold getResource. destruct noThrow; [apply reads_nothing_throw|].
  apply reads_nothing_bind; [apply reads_nothing_reading|].
  intros infoKeys. apply reads_nothing_ret.
Qed.

Lemma reads_once_read_rows (t : Translation) : reads_at_most_once (read_rows (Conn := Conn) t).
Proof.
  split; [intros w; now repeat split|].
  intros w. right. now exists t.
Qed.

Lemma reads_once_of_nothing {A} (m : @M Conn A) : reads_nothing m -> reads_at_most_once m.
Proof. intros [Hm Hr]. split; [exact Hm|]. intros w. left. apply Hr. Qed.

Lemma reads_once_bind_l {A B} (m : @M Conn A) (k : A -> @M Conn B) :
  reads_nothing m -> (forall a, reads_at_most_once (k a)) -> reads_at_most_once (bind m k).
Proof.
  intros [Hm Hmr] Hk. split.
  - intros w. unfold bind. specialize (Hm w).
    destruct (m w) as [w1 [a|e]]; simpl in *; [|exact Hm].
    destruct (Hk a) as [Hka _]. specialize (Hka w1).
    destruct Hm as (M1 & M2 & M3 & M4), Hka as (K1 & K2 & K3 & K4).
    repeat split; congruence.
  - intros w. unfold bind. specialize (Hmr w).
    destruct (m w) as [w1 [a|e]]; simpl in *; [|now left].
    destruct (Hk a) as [_ Hkr]. rewrite <- Hmr. apply Hkr.
Qed.

Lemma reads_once_bind_r {A B} (m : @M Conn A) (k : A -> @M Conn B) :
  reads_at_most_once m -> (forall a, reads_nothing (k a)) -> reads_at_most_once (bind m k).
Proof.
  intros [Hm Hmr] Hk. split.
  - intros w. unfold bind. specialize (Hm w).
    destruct (m w) as [w1 [a|e]]; simpl in *; [|exact Hm].
    destruct (Hk a) as [Hka _]. specialize (Hka w1).
    destruct Hm as (M1 & M2 & M3 & M4), Hka as (K1 & K2 & K3 & K4).
    repeat split; congruence.
  - intros w. unfold bind. specialize (Hmr w).
    destruct (m w) as [w1 [a|e]]; simpl in *; [|exact Hmr].
    destruct (Hk a) as [_ Hkr]. now rewrite Hkr.
Qed.

(** X12 ([getDataQuery], and with it [getData], [getDatasetData] and
    [getDistinct]): a read never writes. Whatever its arguments and
    whatever the database and the query builder answer, it leaves the
    database as it is, submits no batch, emits no warning, and asks the
    engine for rows at most once. *)
Theorem getDataQuery_read_only (distinct : bool) (filter : option value)
  (projection : option object) (options : option Options) (w : World Conn) :
  let w' := fst (getDataQuery distinct filter projection options w) in
  conn w' = conn w
  /\ batches w' = batches w
  /\ warnedAlready w' = warnedAlready w
  /\ emitted w' = emitted w
  /\ (reads w' = reads w \/ exists t, reads w' = reads w ++ [t]).
Proof.
  assert (Hq : reads_at_most_once (getDataQuery distinct filter projection options)).
  { unfold getDataQuery.
    apply reads_once_bind_l; [apply reads_nothing_getGeneralSchema|]. intros schema.
    apply reads_once_bind_l; [apply reads_nothing_lift|]. intros t.
    apply reads_once_bind_l.
    { destruct distinct; [apply reads_nothing_ret|].
      apply reads_nothing_bind; [|intros; apply reads_nothing_ret].
      destruct (match nqmMeta _ with Some b => b | None => false end);
        [apply reads_nothing_getResource|apply reads_nothing_ret]. }
    intros result.
    repeat match goal with
           | |- reads_at_most_once (if ?c then _ else _) =>
               destruct c; [apply reads_once_of_nothing, reads_nothing_ret|]
           end.
    apply reads_once_bind_r; [apply reads_once_read_rows|]. intros rows.
    destruct result.
    - apply reads_nothing_bind.
      + destruct (_ || _); [apply reads_nothing_lift|apply reads_nothing_ret].
      + intros data0. apply reads_nothing_bind; [|intros; apply reads_nothing_ret].
        destruct (findCollectionKeys schema NDARRAY);
          [apply reads_nothing_ret|apply reads_nothing_reading].
    - apply reads_nothing_bind; [apply reads_nothing_lift|intros; apply reads_nothing_ret]. }
  destruct Hq as [Hw Hr]. intros w'. subst w'.
  destruct (Hw w) as (Hc & Hb & Hwa & He). repeat split; try assumption. apply Hr.
Qed.

Lemma plain_schema_includes (schema : Schema) (t : GeneralType) :
  (forall column ty, In (column, ty) schema -> compound ty = false) ->
  compound t = true ->
  schema_includes schema t = false /\ findCollectionKeys schema t = [].
Proof.
  intros Hplain Ht. unfold schema_includes, findCollectionKeys.
  induction schema as [|[column ty] schema IH]; simpl; [now split|].
  assert (Hne : GeneralType_eqb ty t = false).
  { pose proof (Hplain column ty (or_introl eq_refl)) as Hty.
    destruct ty, t; try reflexivity; discriminate. }
  rewrite Hne. simpl. apply IH. intros c ty' Hin. apply (Hplain c ty'). now right.
Qed.

(** X13 ([getDataQuery] through [getData]): over a schema whose columns
    are all TEXT, INTEGER, REAL or NUMERIC, and without [nqmMeta], a read
    that reaches the engine returns the rows exactly as the engine gives
    them, with empty metadata, after asking the engine once with the
    translation of the query builder. *)
Theorem getData_plain_rows (filter : option value) (projection : option object)
  (options : option Options) (w : World Conn) (schema : Schema) (t : Translation)
  (rows : list object) :
  generalSchema w = Some schema ->
  (forall column ty, In (column, ty) schema -> compound ty = false) ->
  (forall o, options = Some o -> nqmMeta o <> Some true) ->
  builder_sql (query_of schema false filter projection options) = Ok t ->
  columns_after_builder (query_of schema false filter projection options) <> [Name "*"] ->
  allAsync (conn w) t = Ok rows ->
  getData filter projection options w
  = (with_read w t, Ok (DatasetData rows (VObj []) "")).
Proof.
  intros Hschema Hplain Hmeta Hb Hstar Hrows.
  unfold getData, getDataQuery.
  rewrite (bind_ok _ _ w w schema (getGeneralSchema_stored w schema Hschema)).
  unfold query_of in Hb, Hstar.
  unfold bind at 1. unfold lift at 1. rewrite Hb.
  assert (Hno : match nqmMeta match options with Some o => o | None => no_options end with
                | Some b => b
                | None => false
                end = false).
  { destruct options as [o|]; [|reflexivity].
    specialize (Hmeta o eq_refl). destruct (nqmMeta o) as [[|]|]; congruence. }
  rewrite Hno. cbn [negb andb].
  unfold bind at 1. unfold bind at 1. unfold ret at 1. unfold ret at 1.
  assert (Hnostar : match columns_after_builder
                            (selectQuery_of schema false
                               match filter with
                               | Some f => or_default f (VObj [])
                               | None => VObj []
                               end
                               match projection with Some p => p | None => [] end
                               match options with Some o => o | None => no_options end)
                    with
                    | [Name c] => String.eqb c "*"
                    | _ => false
                    end = false).
  { destruct (columns_after_builder _) as [|[i|c] [|c' l]]; try reflexivity.
    apply not_true_is_false. intros Heq. apply String.eqb_eq in Heq. subst c.
    now apply Hstar. }
  rewrite Hnostar.
  destruct (lookup_field _ schema) as [ty|] eqn:Hl.
  - apply lookup_field_In in Hl. apply Hplain in Hl.
    destruct ty; try discriminate Hl.
    all: unfold bind at 1; unfold read_rows at 1; rewrite Hrows.
    all: destruct (plain_schema_includes schema NDARRAY Hplain eq_refl) as [-> ->].
    all: destruct (plain_schema_includes schema OBJECT Hplain eq_refl) as [-> _].
    all: destruct (plain_schema_includes schema ARRAY Hplain eq_refl) as [-> _].
    all: reflexivity.
  - unfold bind at 1; unfold read_rows at 1; rewrite Hrows.
    destruct (plain_schema_includes schema NDARRAY Hplain eq_refl) as [-> ->].
    destruct (plain_schema_includes schema OBJECT Hplain eq_refl) as [-> _].
    destruct (plain_schema_includes schema ARRAY Hplain eq_refl) as [-> _].
    reflexivity.
Qed.

Lemma get_cons (k : string) (v : value) (fields : object) (key : string) :
  get ((k, v) :: fields) key = if String.eqb key k then v else get fields key.
Proof. unfold get. simpl. now destruct (String.eqb key k). Qed.

Lemma converted_fields (schema : Schema) (fields new : object) :
  Forall2 (fun kv kv' => fst kv' = fst kv
                         /\ Converter.convertToTdx (lookup_field (fst kv) schema) (snd kv)
                            = Ok (snd kv')) fields new ->
  Object_keys new = Object_keys fields
  /\ forall key, In key (Object_keys fields) ->
       Converter.convertToTdx (lookup_field key schema) (get fields key) = Ok (get new key).
Proof.
  induction 1 as [|[k v] [k' v'] fields new [Hk Hv] Hall [IHk IHv]]; simpl.
  - split; [reflexivity|intros key []].
  - simpl in Hk, Hv. subst k'. split; [now rewrite IHk|].
    intros key Hin. rewrite !get_cons.
    destruct (String.eqb key k) eqn:E.
    + apply String.eqb_eq in E. now subst key.
    + destruct Hin as [->|Hin]; [now rewrite String.eqb_refl in E|now apply IHv].
Qed.

Lemma convert_row_loop (schema : Schema) (fields : object) :
  forall acc row',
    List.NoDup (Object_keys acc ++ Object_keys fields) ->
    ~ In "__proto__" (Object_keys fields) ->
    (fix loop (fields : list (key * value)) (convertedRow : object) : outcome object :=
       match fields with
       | [] => Ok convertedRow
       | (key, value) :: rest =>
           do v <- Converter.convertToTdx (lookup_field (property_name key) schema) value;
           loop rest (assign convertedRow (property_name key) v)
       end) (map (fun kv => (Name (fst kv), snd kv)) fields) acc = Ok row' ->
    exists new,
      row' = acc ++ new
      /\ Forall2 (fun kv kv' => fst kv' = fst kv
                                /\ Converter.convertToTdx (lookup_field (fst kv) schema) (snd kv)
                                   = Ok (snd kv')) fields new.
Proof.
  induction fields as [|[key value] fields IH]; intros acc row' Hnd Hproto Hrow.
  - injection Hrow as <-. exists []. split; [now rewrite app_nil_r|constructor].
  - cbn [map fst snd property_name] in Hrow.
    destruct (Converter.convertToTdx (lookup_field key schema) value) as [v|e] eqn:Hv;
      [|discriminate Hrow].
    cbn [obind] in Hrow.
    assert (Hk : ~ In key (Object_keys acc)).
    { apply List.NoDup_remove_2 in Hnd. intros Hin. apply Hnd. apply in_or_app. now left. }
    rewrite assign_new in Hrow; [|intros ->; apply Hproto; now left|exact Hk].
    apply IH in Hrow.
    + destruct Hrow as [new [-> Hall]]. exists ((key, v) :: new). split.
      * now rewrite <- app_assoc.
      * constructor; [split; [reflexivity|exact Hv]|exact Hall].
    + unfold Object_keys in *. rewrite map_app. simpl. rewrite <- app_assoc. exact Hnd.
    + intros Hin. apply Hproto. now right.
Qed.

(** X14 ([getDataQuery], the conversion of a row read under a schema with
    an OBJECT, ARRAY or NDARRAY column): for a row with distinct keys, none
    of them [__proto__], that has no numeric [length] (such a row is walked
    as an array), the converted row has the keys of the row the engine
    gave, in the same order, and under each key the value [convertToTdx]
    gives for the type the schema has for that key; so a key that is no
    column of the schema comes back as null. *)
Theorem convert_row_columns (schema : Schema) (row row' : object) :
  List.NoDup (Object_keys row) ->
  ~ In "__proto__" (Object_keys row) ->
  array_like row = None ->
  convert_row schema row = Ok row' ->
  Object_keys row' = Object_keys row
  /\ (forall key, In key (Object_keys row) ->
        Converter.convertToTdx (lookup_field key schema) (get row key) = Ok (get row' key))
  /\ (forall key, In key (Object_keys row) -> lookup_field key schema = None ->
        get row' key = VNull).
Proof.
  intros Hnd Hproto Hplain Hrow. unfold convert_row in Hrow.
  rewrite (forEach_entries_plain row Hplain) in Hrow.
  apply convert_row_loop in Hrow; [|exact Hnd|exact Hproto].
  destruct Hrow as [new [-> Hall]]. simpl.
  destruct (converted_fields schema row new Hall) as [Hkeys Hvalues].
  split; [exact Hkeys|split; [exact Hvalues|]].
  intros key Hin Hnone. specialize (Hvalues key Hin). rewrite Hnone in Hvalues.
  simpl in Hvalues. congruence.
Qed.

Lemma fold_left_over_map {A B C} (f : A -> B -> A) (g : C -> B) (l : list C) :
  forall a, fold_left f (map g l) a = fold_left (fun a x => f a (g x)) l a.
Proof. induction l as [|x l IH]; intros a; simpl; [reflexivity|apply IH]. Qed.

Lemma fold_assign_some {A B} (f : string * A -> option B) (l : list (string * A)) :
  ~ In "__proto__" (Object_keys l) ->
  forall acc : list (string * B),
    fold_left (fun acc kv => match f kv with
                             | Some v => assign acc (fst kv) v
                             | None => acc
                             end) l acc
    = fold_left (fun acc kv => match f kv with
                               | Some v => set_field acc (fst kv) v
                               | None => acc
                               end) l acc.
Proof.
  intros Hproto acc. apply fold_left_ext_in. intros a [k x] Hin.
  destruct (f (k, x)); [|reflexivity]. unfold assign. simpl.
  destruct (String.eqb_spec k "__proto__") as [->|]; [|reflexivity].
  exfalso. apply Hproto. apply in_map_iff. now exists ("__proto__", x).
Qed.

(** X15 ([getDataQuery], the [sort] option): over a sort object with
    distinct keys, none of them [__proto__], that has no numeric [length]
    (such an object is walked as an array), the order of the query lists
    the keys whose value is exactly 1 (ascending) or -1 (descending), in
    the order of the sort object; every other value (2, true, a string) is
    passed over without an error, and the query has no order when no key
    is left. *)
Theorem query_order_rule (sort : list (string * value)) :
  List.NoDup (Object_keys sort) ->
  ~ In "__proto__" (Object_keys sort) ->
  array_like sort = None ->
  query_order sort
  = match order_list sort with
    | [] => None
    | order => Some order
    end.
Proof.
  intros Hnd Hproto Hplain. unfold query_order, order_list.
  rewrite (forEach_entries_plain sort Hplain), fold_left_over_map.
  rewrite (fold_left_ext_in _
             (fun acc kv => match sort_direction (snd kv) with
                            | Some v => assign acc (fst kv) v
                            | None => acc
                            end)).
  - rewrite (fold_assign_some (fun kv => sort_direction (snd kv)) sort Hproto).
    rewrite (fold_set_field_some (fun kv => sort_direction (snd kv)) sort []) by exact Hnd.
    cbn [app]. now destruct (flat_map _ sort).
  - intros acc [k v] _. simpl.
    destruct v as [| | |[|[p|p|]|[p|p|]]| | |]; reflexivity.
Qed.

Lemma fold_set_field_keys {A B} (g : A -> string) (h : A -> B) (l : list A) :
  forall (acc : list (string * B)) (k : string),
    In k (Object_keys (fold_left (fun res x => set_field res (g x) (h x)) l acc))
    <-> In k (Object_keys acc) \/ In k (map g l).
Proof.
  induction l as [|x l IH]; intros acc k; simpl; [tauto|].
  rewrite IH, keys_set_field. intuition (subst; auto).
Qed.

Lemma fold_set_field_constant {A} (g : A -> string) (v : value) (l : list A) :
  forall (acc : object) (k : string),
    (forall k', In k' (Object_keys acc) -> get acc k' = v) ->
    In k (Object_keys (fold_left (fun res x => set_field res (g x) v) l acc)) ->
    get (fold_left (fun res x => set_field res (g x) v) l acc) k = v.
Proof.
  induction l as [|x l IH]; intros acc k Hacc Hin; simpl in *; [now apply Hacc|].
  apply IH; [|exact Hin].
  intros k' Hk'. rewrite get_set_field.
  destruct (String.eqb k' (g x)) eqn:E; [reflexivity|].
  apply keys_set_field in Hk'. destruct Hk' as [->|Hk']; [|now apply Hacc].
  now rewrite String.eqb_refl in E.
Qed.

(** X16 ([getResource]): a resource that [getResource] returns has every
    key of the resource description, whatever the info table holds; when
    the info table holds none of the keys asked for, every one of them is
    null. The call changes nothing, and with [noThrow] set it throws
    without reading the info table. *)
Theorem getResource_keys (w : World Conn) (r : value) :
  snd (getResource false w) = Ok r ->
  fst (getResource false w) = w
  /\ getResource true w
     = (w, Throw (Error "noThrow is currently unimplemented, just try/catch your code"))
  /\ exists resource,
       r = VObj resource
       /\ (forall key display,
             In (key, display) INFO_TABLE_KEYS_TO_TDX_RESOURCE_KEYS ->
             hasOwnProperty resource display = true)
       /\ (getInfoKeys (conn w) (Object_keys INFO_TABLE_KEYS_TO_TDX_RESOURCE_KEYS) = Ok [] ->
           forall key display,
             In (key, display) INFO_TABLE_KEYS_TO_TDX_RESOURCE_KEYS ->
             get resource display = VNull).
Proof.
  unfold getResource, bind, reading, ret, throw.
  destruct (getInfoKeys (conn w) (Object_keys INFO_TABLE_KEYS_TO_TDX_RESOURCE_KEYS))
    as [infoKeys|e]; simpl; [|discriminate].
  intros [= <-]. split; [reflexivity|split; [reflexivity|]].
  eexists. split; [reflexivity|split].
  - intros key display Hin. apply hasOwnProperty_In.
    set (defaults := fold_left (fun res kd => set_field res (snd kd) VNull)
                               INFO_TABLE_KEYS_TO_TDX_RESOURCE_KEYS []).
    assert (Hd : In display (Object_keys defaults)).
    { apply fold_set_field_keys. right. apply in_map_iff. now exists (key, display). }
    clearbody defaults. revert defaults Hd.
    induction infoKeys as [|infoKey infoKeys IH]; intros defaults Hd; simpl; [exact Hd|].
    apply IH. apply fold_set_field_keys. now left.
  - intros [= ->] key display Hin. simpl.
    apply (fold_set_field_constant (fun kd : string * string => snd kd)).
    + intros k' [].
    + apply fold_set_field_keys. right. apply in_map_iff. now exists (key, display).
Qed.

(** X17 ([getDistinct]): asking for the distinct values of a key that
    the schema neither has as a column nor inherits as a member, or of the
    empty key, is no error: nothing is read from the engine, and a call
    that returns gives the empty list. The same holds for the keys
    [__proto__] (the projection gets no field) and [length] (the projection
    is walked as an array), whatever the schema. *)
Theorem getDistinct_unknown_column (key : string) (filter : option value)
  (w w1 : World Conn) (schema : Schema) :
  getGeneralSchema w = (w1, Ok schema) ->
  key_in key schema = false \/ key = "" \/ key = "__proto__" \/ key = "length" ->
  reads (fst (getDistinct key filter w)) = reads w
  /\ forall r, snd (getDistinct key filter w) = Ok r -> r = DistinctValues [].
Proof.
  intros Hschema Hkey. unfold getDistinct.
  set (projection := if String.eqb key "" then [] else assign [] key (VNum 1)).
  assert (Hinc : included_columns schema (Some projection) = []).
  { unfold included_columns, projection, projection_loop.
    destruct (String.eqb key "") eqn:E; [reflexivity|].
    destruct Hkey as [Hkey|[->|[->| ->]]]; [|discriminate E|reflexivity|].
    - unfold assign. destruct (String.eqb key "__proto__"); [reflexivity|].
      cbn [set_field]. unfold forEach_entries, array_like. cbn [lookup_field].
      destruct (String.eqb "length" key) eqn:El.
      + apply String.eqb_eq in El. subst key. change (Z.to_nat 1) with 1%nat.
        cbn. change (string_of_N (N.of_nat 0)) with "0".
        now destruct (key_in "0" schema).
      + cbn. rewrite Hkey. reflexivity.
    - unfold assign, forEach_entries, array_like. cbn [String.eqb Ascii.eqb Bool.eqb set_field lookup_field].
      cbn [Z.leb Z.compare Pos.compare Pos.compare_cont MAX_SAFE_INTEGER andb].
      change (Z.to_nat 1) with 1%nat.
      cbn. change (string_of_N (N.of_nat 0)) with "0".
        now destruct (key_in "0" schema). }
  pose proof (getDataQuery_distinct filter (Some projection) (Some no_options) w w1 schema
                Hschema) as Hq.
  cbv zeta in Hq. rewrite Hinc in Hq. cbn [length Nat.eqb negb orb] in Hq.
  rewrite orb_true_r in Hq. cbn [orb] in Hq.
  destruct (getGeneralSchema_same_process w) as (_ & _ & Hr & _).
  rewrite Hschema in Hr. simpl in Hr.
  destruct (builder_sql _) as [t|e]; rewrite Hq; simpl.
  - split; [exact Hr|]. now intros r [= <-].
  - split; [exact Hr|]. discriminate.
Qed.

End ReadCoverage.

(* ------------------------------------------------------------------ *)
(** ** Further properties: sqlite-manager.js, writes *)
(* ------------------------------------------------------------------ *)

Section WriteCoverage.
Import Js Helper Manager Updates Properties Invariants.
Context `{Constants} {Conn : Type} `{Collaborators Conn} `{StatementCreator}.

(** What a call of [executeMany] on the connection leaves behind. *)
Lemma run_executeMany_batch (creator : SQLiteStatementCreator) (data : list object)
  (w : World Conn) :
  batches (fst (run_executeMany creator data w))
  = batches w ++ [commands (fst (issue creator data))]
  /\ generalSchema (fst (run_executeMany creator data w)) = generalSchema w.
Proof.
  unfold run_executeMany.
  destruct (issue creator data) as [st thrown]. simpl.
  destruct (serialized (conn w) (commands st)) as [c engine].
  destruct (settle engine (commands st) thrown); now split.
Qed.

Lemma write_rows_batch (schema : Schema) (rows : list object) (w : World Conn) :
  (batches (fst (write_rows schema rows w)) = batches w
   /\ exists e, snd (write_rows schema rows w) = Throw e)
  \/ exists creator sqlData,
       batches (fst (write_rows schema rows w))
       = batches w ++ [commands (fst (issue creator sqlData))].
Proof.
  destruct (write_rows schema rows w) as [w' r] eqn:Hw.
  unfold write_rows in Hw.
  set (first := match findCollectionKeys schema NDARRAY with
                | [] => ret rows
                | _ => changing (fun c => writeNdarrayMany c rows (findCollectionKeys schema NDARRAY))
                end) in Hw.
  assert (Hfirst : batches (fst (first w)) = batches w).
  { unfold first. destruct (findCollectionKeys schema NDARRAY); [reflexivity|].
    unfold changing. destruct (writeNdarrayMany _ _ _). reflexivity. }
  unfold bind at 1 in Hw. destruct (first w) as [w1 [arrayProcData|e]]; simpl in Hfirst;
    [|injection Hw as <- <-; left; split; [exact Hfirst|now exists e]].
  unfold bind at 1 in Hw. unfold lift at 1 in Hw.
  destruct (omap (convertRowToSqlite schema) arrayProcData) as [sqlData|e];
    [|injection Hw as <- <-; left; split; [exact Hfirst|now exists e]].
  unfold bind at 1 in Hw. unfold reading at 1 in Hw.
  destruct (getInfoKeys (conn w1) ["schema"]) as [infoTable|e];
    [|injection Hw as <- <-; left; split; [exact Hfirst|now exists e]].
  unfold bind at 1 in Hw. unfold lift at 1 in Hw.
  destruct (uniqueIndex_of infoTable) as [uniqueIndex|e];
    [|injection Hw as <- <-; left; split; [exact Hfirst|now exists e]].
  right.
  exists (fun dataRowKeys => insertStatement uniqueIndex schema dataRowKeys false), sqlData.
  unfold bind at 1 in Hw.
  destruct (run_executeMany_batch
              (fun dataRowKeys => insertStatement uniqueIndex schema dataRowKeys false)
              sqlData w1) as [Hb _].
  destruct (run_executeMany _ sqlData w1) as [w2 [result|e]]; simpl in *;
    injection Hw as <- <-; congruence.
Qed.

(** X18 ([addData]): a call of [addData] submits at most one batch. A call
    that submits none throws; a batch that is submitted is one complete
    transaction (one BEGIN, one COMMIT) that keeps to the statement
    protocol, whether the call then succeeds or throws. *)
Theorem addData_one_batch (data : Data) (w : World Conn) :
  (batches (fst (addData data w)) = batches w
   /\ exists e, snd (addData data w) = Throw e)
  \/ exists cmds,
       batches (fst (addData data w)) = batches w ++ [cmds]
       /\ runs cmds = [BEGIN_TRANSACTION; COMMIT_TRANSACTION]
       /\ protocol ([], false) cmds = Some ([], false).
Proof.
  destruct (getGeneralSchema_same_process w) as (_ & _ & _ & Hb).
  destruct (getGeneralSchema w) as [w1 [schema|e]] eqn:Hg.
  - rewrite (addData_with_schema data w w1 schema Hg).
    destruct (onlySchemaColumns_spec schema (concat_data data) w1)
      as (_ & (_ & _ & _ & Hb1) & _).
    set (w2 := fst (mapM (onlySchemaColumnRow schema) (concat_data data) w1)) in *.
    simpl in Hb.
    destruct (write_rows_batch schema
                (map (fun row => pick row (Object_keys schema)) (concat_data data)) w2)
      as [[Hsame He]|[creator [sqlData Hbatch]]].
    + left. split; [congruence|exact He].
    + right. exists (commands (fst (issue creator sqlData))).
      split; [congruence|split; [apply issue_runs|apply issue_protocol]].
  - left. rewrite addData_eq. rewrite (bind_throw _ _ w w1 e Hg). simpl in *.
    split; [exact Hb|now exists e].
Qed.

(** X19 ([addData]): on a handle without a kept schema whose info table
    holds no schema, [addData] throws, whatever the rows are, before
    anything is submitted: the database is left as it is and no batch is
    recorded. *)
Theorem addData_without_dataset (data : Data) (w : World Conn) :
  generalSchema w = None ->
  getInfoKeys (conn w) ["schema"] = Ok [] ->
  (exists e, snd (addData data w) = Throw e)
  /\ batches (fst (addData data w)) = batches w
  /\ conn (fst (addData data w)) = conn w.
Proof.
  intros Hnone Hinfo.
  assert (Hg : getGeneralSchema w = (w, Ok [])).
  { rewrite (getGeneralSchema_uncached w Hnone), Hinfo. reflexivity. }
  rewrite (addData_with_schema data w w [] Hg).
  destruct (onlySchemaColumns_spec [] (concat_data data) w)
    as (_ & (Hc & _ & _ & Hb) & _).
  set (w2 := fst (mapM (onlySchemaColumnRow []) (concat_data data) w)) in *.
  set (rows := map (fun row => pick row (Object_keys [])) (concat_data data)).
  assert (Hw : exists e, write_rows [] rows w2 = (w2, Throw e)).
  { unfold write_rows.
    change (findCollectionKeys [] NDARRAY) with (@nil string). cbv iota.
    unfold bind at 1. unfold ret at 1.
    unfold bind at 1. unfold lift at 1.
    destruct (omap (convertRowToSqlite []) rows) as [sqlData|e]; [|now exists e].
    unfold bind at 1. unfold reading at 1. rewrite Hc, Hinfo.
    unfold bind at 1. unfold lift at 1. simpl. eauto. }
  destruct Hw as [e ->]. simpl. split; [eauto|split; assumption].
Qed.

(** X20 ([deleteData]): on a dataset whose stored [uniqueIndex] is the
    empty array, [deleteData] throws, whatever the rows are, before
    anything is submitted: no batch is recorded and the database is left
    as it is. When the rows convert, the error is the one that names
    deleteDataByQuery. With [doNotThrow] set the call throws at once. *)
Theorem deleteData_without_index (data : Data) (w : World Conn) (first : object)
  (rest : list object) (stored : object) :
  getInfoKeys (conn w) ["schema"] = Ok (first :: rest) ->
  get first "schema" = VObj stored ->
  get stored "uniqueIndex" = VArr [] ->
  (exists e, snd (deleteData data false w) = Throw e)
  /\ batches (fst (deleteData data false w)) = batches w
  /\ conn (fst (deleteData data false w)) = conn w
  /\ (forall schema sqlData,
        snd (getGeneralSchema w) = Ok schema ->
        omap (convertRowToSqlite schema) (concat_data data) = Ok sqlData ->
        snd (deleteData data false w) = Throw no_uniqueIndex)
  /\ deleteData data true w = (w, Throw doNotThrow_unimplemented).
Proof.
  intros Hinfo Hschema Hindex.
  assert (Hu : uniqueIndex_of (first :: rest) = Ok (VArr [])).
  { unfold uniqueIndex_of. rewrite Hschema. simpl. now rewrite Hindex. }
  destruct (getGeneralSchema_same_process w) as (_ & _ & _ & Hb).
  pose proof (getGeneralSchema_conn w) as Hc.
  assert (Hd : deleteData data false w
               = match getGeneralSchema w with
                 | (w1, Ok schema) =>
                     match omap (convertRowToSqlite schema) (concat_data data) with
                     | Ok _ => (w1, Throw no_uniqueIndex)
                     | Throw e => (w1, Throw e)
                     end
                 | (w1, Throw e) => (w1, Throw e)
                 end).
  { unfold deleteData. unfold bind at 1.
    destruct (getGeneralSchema w) as [w1 [schema|e]]; [|reflexivity]. simpl in Hc.
    unfold bind at 1. unfold lift at 1.
    destruct (omap (convertRowToSqlite schema) (concat_data data)) as [sqlData|e];
      [|reflexivity].
    unfold bind at 1. unfold reading at 1. rewrite Hc, Hinfo.
    unfold bind at 1. unfold lift at 1. rewrite Hu. reflexivity. }
  rewrite Hd. clear Hd.
  destruct (getGeneralSchema w) as [w1 [schema|e]]; simpl in Hb, Hc.
  - destruct (omap (convertRowToSqlite schema) (concat_data data)) as [sqlData|e] eqn:Ho;
      simpl.
    + repeat split; eauto.
    + repeat split; eauto. intros s d [= <-]. rewrite Ho. discriminate.
  - simpl. repeat split; eauto. discriminate.
Qed.

Lemma run_executeMany_with_conn (creator : SQLiteStatementCreator) (data : list object)
  (w : World Conn) :
  run_executeMany creator data (with_conn w (conn w)) = run_executeMany creator data w.
Proof. reflexivity. Qed.

(** A batch for which the statement creator answers and the connection
    reports no error resolves. *)
Lemma run_executeMany_silent (creator : SQLiteStatementCreator) (data : list object)
  (w : World Conn) :
  answers_for creator data ->
  (forall pos, snd (serialized (conn w) (commands (fst (issue creator data)))) pos = None) ->
  exists result, snd (run_executeMany creator data w) = Ok result.
Proof.
  intros Htotal Hsilent. unfold run_executeMany.
  pose proof (total_creator_not_thrown creator data Htotal) as Hthrown.
  destruct (issue creator data) as [st thrown]. cbn [fst snd] in *. subst thrown.
  destruct (serialized (conn w) (commands st)) as [c engine]. cbn [snd] in Hsilent.
  rewrite (settle_silent engine (commands st) Hsilent). eauto.
Qed.

(** The call of [executeMany] on the connection settles as [executeMany]
    does on the answers of the connection. *)
Lemma run_executeMany_outcome (creator : SQLiteStatementCreator) (data : list object)
  (w : World Conn) :
  snd (run_executeMany creator data w)
  = match snd (executeMany
                 (snd (serialized (conn w) (commands (fst (issue creator data)))))
                 creator data) with
    | Resolved result => Ok result
    | Rejected reason => Throw reason
    | Pending => Throw (Error "pending")
    end.
Proof.
  unfold run_executeMany, executeMany.
  destruct (issue creator data) as [st thrown]. cbn [fst snd].
  destruct (serialized (conn w) (commands st)) as [c engine]. cbn [snd].
  destruct (settle engine (commands st) thrown); reflexivity.
Qed.

(** What [addData] does with the trimmed rows once the steps before the
    batch have succeeded. *)
Lemma write_rows_run (schema : Schema) (rows arrayProcData sqlData : list object)
  (w : World Conn) (c : Conn) (infoTable : list object) (uniqueIndex : value) :
  ndarray_step schema rows (conn w) = (c, Ok arrayProcData) ->
  omap (convertRowToSqlite schema) arrayProcData = Ok sqlData ->
  getInfoKeys c ["schema"] = Ok infoTable ->
  uniqueIndex_of infoTable = Ok uniqueIndex ->
  write_rows schema rows w
  = (fst (run_executeMany (fun dataRowKeys => insertStatement uniqueIndex schema dataRowKeys false)
                          sqlData (with_conn w c)),
     match snd (run_executeMany
                  (fun dataRowKeys => insertStatement uniqueIndex schema dataRowKeys false)
                  sqlData (with_conn w c)) with
     | Ok _ => Ok (length sqlData)
     | Throw e => Throw e
     end).
Proof.
  intros Hstep Hconv Hinfo Hindex. unfold write_rows, ndarray_step in *.
  assert (Hrest : forall w' : World Conn,
            conn w' = c ->
            bind (lift (omap (convertRowToSqlite schema) arrayProcData))
              (fun sqlData0 =>
                 bind (reading (fun c0 => getInfoKeys c0 ["schema"]))
                   (fun infoTable0 =>
                      bind (lift (uniqueIndex_of infoTable0))
                        (fun uniqueIndex0 =>
                           bind (run_executeMany
                                   (fun dataRowKeys =>
                                      insertStatement uniqueIndex0 schema dataRowKeys false)
                                   sqlData0)
                                (fun _ => ret (length sqlData0))))) w'
            = (fst (run_executeMany
                      (fun dataRowKeys => insertStatement uniqueIndex schema dataRowKeys false)
                      sqlData w'),
               match snd (run_executeMany
                            (fun dataRowKeys =>
                               insertStatement uniqueIndex schema dataRowKeys false)
                            sqlData w') with
               | Ok _ => Ok (length sqlData)
               | Throw e => Throw e
               end)).
  { intros w' Hc. unfold bind at 1. unfold lift at 1. rewrite Hconv.
    unfold bind at 1. unfold reading at 1. rewrite Hc, Hinfo.
    unfold bind at 1. unfold lift at 1. rewrite Hindex.
    unfold bind at 1.
    destruct (run_executeMany _ sqlData w') as [w'' [result|e]]; reflexivity. }
  destruct (findCollectionKeys schema NDARRAY) as [|key keys].
  - injection Hstep as <- <-. unfold bind at 1. unfold ret at 1.
    rewrite run_executeMany_with_conn. now apply Hrest.
  - unfold bind at 1. unfold changing at 1. rewrite Hstep. now apply Hrest.
Qed.

(** C10, as amended: the fields of an input row that are no columns of the
    schema are removed before the row is converted and written (what is
    kept is a column, and every column keeps the row's value), for a schema
    none of whose columns is named after a member of [Object.prototype];
    once the steps before the batch have succeeded (sqlite-ndarray returns
    as many rows as it gets, the trimmed rows convert, the info table gives
    the unique index), the call submits one batch whose statements are run
    with the values of the converted trimmed rows, in order, up to a row
    the statement creator throws for; the call settles as [executeMany]
    does on that batch: it resolves with the number of input rows, counting
    rows that had extra fields, when [executeMany] resolves (as it does
    when the statement creator answers for every row and the connection
    reports no error), rejects with its reason when [executeMany] rejects,
    and never resolves with another count; each warning code is emitted at
    most once, and the call emits at most one warning. *)
Theorem addData_extra_fields (data : Data) (w w1 : World Conn) (schema : Schema)
  (c : Conn) (arrayProcData sqlData infoTable : list object) (uniqueIndex : value) :
  getGeneralSchema w = (w1, Ok schema) ->
  ordinary_keys schema = true ->
  let columns := Object_keys schema in
  let onlySchemaColumns := map (fun row => pick row columns) (concat_data data) in
  ndarray_step schema onlySchemaColumns (conn w1) = (c, Ok arrayProcData) ->
  length arrayProcData = length onlySchemaColumns ->
  omap (convertRowToSqlite schema) arrayProcData = Ok sqlData ->
  getInfoKeys c ["schema"] = Ok infoTable ->
  uniqueIndex_of infoTable = Ok uniqueIndex ->
  let creator := fun dataRowKeys => insertStatement uniqueIndex schema dataRowKeys false in
  let cmds := commands (fst (issue creator sqlData)) in
  let result := addData data w in
  (forall row k, In row (concat_data data) ->
                 In k (Object_keys (pick row columns)) -> In k columns)
  /\ (forall row k, In row (concat_data data) -> In k columns ->
                    get (pick row columns) k = get row k)
  /\ batches (fst result) = batches w ++ [cmds]
  /\ (exists n, n <= length sqlData
                /\ map snd (statement_runs cmds) = map Object_values (firstn n sqlData)
                /\ (answers_for creator sqlData -> n = length sqlData))
  /\ (forall results,
        snd (executeMany (snd (serialized c cmds)) creator sqlData) = Resolved results ->
        snd result = Ok (length (concat_data data)))
  /\ (forall reason,
        snd (executeMany (snd (serialized c cmds)) creator sqlData) = Rejected reason ->
        snd result = Throw reason)
  /\ (answers_for creator sqlData ->
      (forall pos, snd (serialized c cmds) pos = None) ->
      snd result = Ok (length (concat_data data)))
  /\ (forall n, snd result = Ok n -> n = length (concat_data data))
  /\ (warned_once w -> warned_once (fst result))
  /\ length (emitted (fst result)) <= S (length (emitted w)).
Proof.
  intros Hschema _ columns onlySchemaColumns Hstep Hlen Hconv Hinfo Hindex creator cmds result.
  subst result. pose proof (addData_warned_once data w) as Honce.
  rewrite (addData_with_schema data w w1 schema Hschema) in *.
  fold columns in Honce |- *. fold onlySchemaColumns in Honce |- *.
  destruct (onlySchemaColumns_spec schema (concat_data data) w1)
    as (_ & (Hc2 & _ & _ & Hb2) & _ & _ & Hemit2).
  set (w2 := fst (mapM (onlySchemaColumnRow schema) (concat_data data) w1)) in *.
  destruct (getGeneralSchema_same_process w) as (_ & He1 & _ & Hb1).
  rewrite Hschema in He1, Hb1. cbn [fst] in He1, Hb1.
  rewrite <- Hc2 in Hstep.
  rewrite (write_rows_run schema onlySchemaColumns arrayProcData sqlData w2 c infoTable
             uniqueIndex Hstep Hconv Hinfo Hindex) in *.
  fold creator in Honce |- *. cbn [fst snd] in *.
  assert (Hcount : length sqlData = length (concat_data data)).
  { rewrite (omap_length _ _ _ Hconv), Hlen. unfold onlySchemaColumns. apply length_map. }
  destruct (run_executeMany_batch creator sqlData (with_conn w2 c)) as [Hbatch _].
  destruct (keeps_run_executeMany creator sqlData (with_conn w2 c)) as [_ Hemit].
  split; [intros row k _; apply (proj1 (pick_spec row columns))|].
  split; [intros row k _; apply (proj2 (pick_spec row columns))|].
  split; [rewrite Hbatch; cbn [batches with_conn]; fold cmds; congruence|].
  split.
  { destruct (issue_runs_values creator sqlData) as (n & Hn & Hruns & Hall).
    exists n. split; [exact Hn|split; [exact Hruns|]].
    intros Htotal. apply Hall. now apply total_creator_not_thrown. }
  pose proof (run_executeMany_outcome creator sqlData (with_conn w2 c)) as Hout.
  cbn [conn with_conn] in Hout. fold cmds in Hout.
  split; [intros results Hr; rewrite Hout, Hr; now rewrite Hcount|].
  split; [intros reason Hr; rewrite Hout, Hr; reflexivity|].
  split.
  { intros Htotal Hsilent.
    destruct (run_executeMany_silent creator sqlData (with_conn w2 c) Htotal Hsilent)
      as [r Hr].
    rewrite Hr. now rewrite Hcount. }
  split.
  { intros n Hn. destruct (snd (run_executeMany creator sqlData (with_conn w2 c)));
      [|discriminate Hn]. injection Hn as <-. exact Hcount. }
  split; [exact Honce|].
  rewrite Hemit. cbn [emitted with_conn]. rewrite <- He1. exact Hemit2.
Qed.

(** What [updateData] does once the steps before the batch have succeeded. *)
Lemma updateData_run (generated : string * string * string) (data : Data)
  (upsert throws : option bool) (w w1 : World Conn) (schema : Schema)
  (sqlData infoTable : list object) (uniqueIndex : value) :
  getGeneralSchema w = (w1, Ok schema) ->
  omap (convertRowToSqlite schema) (concat_data data) = Ok sqlData ->
  getInfoKeys (conn w1) ["schema"] = Ok infoTable ->
  uniqueIndex_of infoTable = Ok uniqueIndex ->
  let creator : SQLiteStatementCreator :=
    if match upsert with Some b => b | None => false end
    then fun dataRowKeys => insertStatement uniqueIndex schema dataRowKeys true
    else fun dataRowKeys => updateStatement uniqueIndex schema dataRowKeys in
  let commandResult := makeEmptyCommandResult generated in
  updateData generated data upsert throws w
  = (fst (run_executeMany creator sqlData w1),
     match snd (run_executeMany creator sqlData w1) with
     | Ok _ => Ok {| commandId := commandId commandResult; response := VStr "Success";
                     commit := []; errors := [] |}
     | Throw error =>
         if match throws with Some b => b | None => true end
         then Throw error
         else Ok {| commandId := commandId commandResult; response := VNull;
                    commit := []; errors := [error] |}
     end).
Proof.
  intros Hg Hrows Hinfo Hindex creator commandResult. unfold updateData.
  rewrite (bind_ok _ _ w w1 schema Hg).
  unfold bind at 1. unfold lift at 1. rewrite Hrows.
  unfold bind at 1. unfold reading at 1. rewrite Hinfo.
  unfold bind at 1. unfold lift at 1. rewrite Hindex.
  assert (Hcreator : (if match upsert with Some b => b | None => false end
                      then fun dataRowKeys =>
                             insertStatement uniqueIndex schema dataRowKeys
                               match upsert with Some b => b | None => false end
                      else fun dataRowKeys => updateStatement uniqueIndex schema dataRowKeys)
                     = creator).
  { subst creator. destruct upsert as [[|]|]; reflexivity. }
  rewrite Hcreator.
  subst commandResult. destruct generated as [[id1 id2] id3].
  destruct (run_executeMany creator sqlData w1) as [w2 [result|error]]; cbn [fst snd];
    [reflexivity|].
  destruct (match throws with Some b => b | None => true end); reflexivity.
Qed.

(** X21 ([updateData]): an error of the batch is reported, not thrown, when
    [throws] is false. Once the schema is known, the rows convert and the
    info table gives the unique index, the call submits one batch, with the
    insert statements when [upsert] is set and the update statements
    otherwise, and its result follows the promise of [executeMany] on that
    batch. When the promise is resolved the result is a command result with
    the response Success and no error. When it is rejected, a call with
    [throws] false returns a command result with no response whose one
    error is the reason of the rejection, and a call with [throws] true or
    left out is rejected with that reason. An error of the conversion of a
    row is thrown, before anything is submitted. *)
Theorem updateData_reports (generated : string * string * string) (data : Data)
  (upsert : option bool) (w w1 : World Conn) (schema : Schema) :
  getGeneralSchema w = (w1, Ok schema) ->
  (forall sqlData infoTable uniqueIndex,
      omap (convertRowToSqlite schema) (concat_data data) = Ok sqlData ->
      getInfoKeys (conn w1) ["schema"] = Ok infoTable ->
      uniqueIndex_of infoTable = Ok uniqueIndex ->
      let creator : SQLiteStatementCreator :=
        if match upsert with Some b => b | None => false end
        then fun dataRowKeys => insertStatement uniqueIndex schema dataRowKeys true
        else fun dataRowKeys => updateStatement uniqueIndex schema dataRowKeys in
      let cmds := commands (fst (issue creator sqlData)) in
      let promise := snd (executeMany (snd (serialized (conn w1) cmds)) creator sqlData) in
      let commandId := commandId (makeEmptyCommandResult generated) in
      (forall throws,
          batches (fst (updateData generated data upsert throws w)) = batches w ++ [cmds])
      /\ (forall throws result,
            promise = Resolved result ->
            snd (updateData generated data upsert throws w)
            = Ok {| commandId := commandId; response := VStr "Success";
                    commit := []; errors := [] |})
      /\ (forall reason,
            promise = Rejected reason ->
            snd (updateData generated data upsert (Some false) w)
            = Ok {| commandId := commandId; response := VNull;
                    commit := []; errors := [reason] |}
            /\ snd (updateData generated data upsert (Some true) w) = Throw reason
            /\ snd (updateData generated data upsert None w) = Throw reason))
  /\ (forall throws e,
        omap (convertRowToSqlite schema) (concat_data data) = Throw e ->
        updateData generated data upsert throws w = (w1, Throw e)).
Proof.
  intros Hg.
  destruct (getGeneralSchema_same_process w) as (_ & _ & _ & Hb).
  rewrite Hg in Hb. simpl in Hb.
  split.
  - intros sqlData infoTable uniqueIndex Hrows Hinfo Hindex creator cmds promise commandId0.
    pose proof (fun throws =>
                  updateData_run generated data upsert throws w w1 schema sqlData infoTable
                    uniqueIndex Hg Hrows Hinfo Hindex) as Hu.
    cbv zeta in Hu. fold creator in Hu. fold commandId0 in Hu.
    pose proof (run_executeMany_outcome creator sqlData w1) as Hout.
    fold cmds in Hout. fold promise in Hout.
    split; [|split].
    + intros throws. rewrite (Hu throws). cbn [fst].
      destruct (run_executeMany_batch creator sqlData w1) as [Hbatch _].
      fold cmds in Hbatch. congruence.
    + intros throws result Hr. rewrite (Hu throws). cbn [snd]. now rewrite Hout, Hr.
    + intros reason Hr. rewrite !Hu. cbn [snd]. rewrite Hout, Hr. now repeat split.
  - intros throws e Hrows. unfold updateData.
    rewrite (bind_ok _ _ w w1 schema Hg).
    unfold bind at 1. unfold lift at 1. now rewrite Hrows.
Qed.

End WriteCoverage.

(* ------------------------------------------------------------------ *)
(** ** Further properties: the earlier versions *)
(* ------------------------------------------------------------------ *)

Section LegacyCoverage.
Import Js Helper Legacy Properties Invariants.
Context `{Constants} `{NullValue}.

Lemma insert_callbacks_rejected (engine : Engine) (cmds : list Cmd) :
  forall pos rejected n,
    fst (insert_callbacks engine pos cmds rejected n)
    = match rejected with
      | Some e => Some e
      | None =>
          match first_row_error engine pos cmds with
          | Some error => Some (Error error)
          | None => None
          end
      end.
Proof.
  induction cmds as [|c cmds IH]; intros pos rejected n; simpl.
  - now destruct rejected.
  - destruct c; try apply IH.
    + destruct (engine pos) as [error|]; rewrite IH; now destruct rejected.
    + destruct (engine pos) as [error|]; rewrite IH; now destruct rejected.
Qed.

(** The errors the connection reports for the places [pos], ..., [pos + k - 1]. *)
Lemma insert_callbacks_finalizes (engine : Engine) (rows : list (list value)) :
  forall pos rejected n,
    snd (insert_callbacks engine pos (map (StatementRun 0) rows ++ [Finalize 0]) rejected n)
    = n + length (List.filter (fun p => match engine p with Some _ => true | None => false end)
                              (seq pos (length rows))).
Proof.
  induction rows as [|row rows IH]; intros pos rejected n; simpl; [lia|].
  destruct (engine pos) as [error|]; rewrite IH; simpl; lia.
Qed.

(** X22 ([helper.executeInsert], the earlier helper): one statement is
    prepared whatever the number of rows, every row is run on it in order,
    and no transaction is opened. The promise is rejected with the first
    error the connection reports for the prepare or for a run, and is
    resolved with the number of rows as count when it reports none; every
    error reported makes one more call of finalize on the one statement. *)
Theorem legacy_executeInsert_outcome (engine : Engine) (query : string)
  (data : list (list value)) :
  let cmds := fst (fst (executeInsert engine query data)) in
  let finalizeCalls := snd (fst (executeInsert engine query data)) in
  let promise := snd (executeInsert engine query data) in
  prepares cmds = [(0, query)]
  /\ statement_runs cmds = map (fun row => (0, row)) data
  /\ runs cmds = []
  /\ finalized cmds = [0]
  /\ promise = match first_row_error engine 0 cmds with
               | Some error => Throw (Error error)
               | None => Ok (VObj [("count", VNum (Z.of_nat (length data)))])
               end
  /\ finalizeCalls
     = 1 + length (List.filter (fun p => match engine p with Some _ => true | None => false end)
                               (seq 0 (S (length data)))).
Proof.
  unfold executeInsert.
  set (cmds := Prepare 0 query :: map (StatementRun 0) data ++ [Finalize 0]).
  pose proof (insert_callbacks_rejected engine cmds 0 None 1) as Hr.
  assert (Hf : snd (insert_callbacks engine 0 cmds None 1)
               = 1 + length (List.filter
                               (fun p => match engine p with Some _ => true | None => false end)
                               (seq 0 (S (length data))))).
  { unfold cmds. simpl. destruct (engine 0) as [error|];
      rewrite insert_callbacks_finalizes; simpl; lia. }
  destruct (insert_callbacks engine 0 cmds None 1) as [rejected finalizeCalls].
  cbn [fst snd] in Hr, Hf. subst rejected. cbn [fst snd].
  assert (Hcmds : prepares (map (StatementRun 0) data ++ [Finalize 0]) = []
                  /\ statement_runs (map (StatementRun 0) data ++ [Finalize 0])
                     = map (fun row => (0, row)) data
                  /\ runs (map (StatementRun 0) data ++ [Finalize 0]) = []
                  /\ finalized (map (StatementRun 0) data ++ [Finalize 0]) = [0]).
  { clear. induction data as [|row data (I1 & I2 & I3 & I4)]; simpl; [now repeat split|].
    rewrite I1, I2, I3, I4. now repeat split. }
  destruct Hcmds as (C1 & C2 & C3 & C4).
  split; [unfold cmds; simpl; now rewrite C1|].
  split; [unfold cmds; simpl; now rewrite C2|].
  split; [unfold cmds; simpl; now rewrite C3|].
  split; [unfold cmds; simpl; now rewrite C4|].
  split; [now destruct (first_row_error engine 0 cmds)|exact Hf].
Qed.

Lemma omap_Forall2 {A B} (f : A -> outcome B) (l : list A) :
  forall l', omap f l = Ok l' -> Forall2 (fun x y => f x = Ok y) l l'.
Proof.
  induction l as [|x l IH]; simpl; intros l' Hl.
  - injection Hl as <-. constructor.
  - destruct (f x) as [y|] eqn:E; [|discriminate]. cbn [obind] in Hl.
    destruct (omap f l) as [ys|]; [|discriminate]. cbn [obind] in Hl.
    injection Hl as <-. constructor; [exact E|now apply IH].
Qed.

Lemma omap_total {A B} (f : A -> outcome B) (l : list A) :
  (forall x, In x l -> exists y, f x = Ok y) -> exists l', omap f l = Ok l'.
Proof.
  induction l as [|x l IH]; simpl; intros Hf; [now exists []|].
  destruct (Hf x (or_introl eq_refl)) as [y ->]. cbn [obind].
  destruct IH as [ys ->]; [intros x' Hin; apply Hf; now right|].
  cbn [obind]. eauto.
Qed.

Lemma convertToSqlite_only_total (type : option GeneralType) (v : value) :
  exists stored,
    Converter.convertToSqlite type v (VObj [("onlyStringify", VBool true)]) = Ok stored.
Proof.
  unfold Converter.convertToSqlite. simpl.
  destruct type as [[]|]; simpl; eauto; destruct (JSON_stringify v); eauto.
Qed.

Lemma row_of_total (generalSchema : Schema) (element : object) :
  exists row, row_of generalSchema element = Ok row
              /\ length row = length (Object_keys generalSchema).
Proof.
  unfold row_of.
  match goal with
  | |- context [omap ?f ?l] => destruct (omap_total f l) as [row Hrow]
  end.
  - intros column _.
    destruct (lookup_field column element) as [v|].
    + destruct (convertToSqlite_only_total (lookup_field column generalSchema) v)
        as [stored Hs].
      rewrite Hs. destruct v; cbn [obind]; eauto.
    + destruct (inherited column); eauto.
  - exists row. split; [exact Hrow|]. now apply omap_length in Hrow.
Qed.

Lemma concat_cons2 (sep x y : string) (l : list string) :
  String.concat sep (x :: y :: l) = x +:+ sep +:+ String.concat sep (y :: l).
Proof. reflexivity. Qed.

Lemma column_strings_from (n : nat) (suffix : list string) :
  forall k acc,
    k + length suffix = n ->
    fold_left
      (fun acc ic =>
         let '(tableColumnStr, sqliteValue) := acc in
         let '(idx, column) := ic in
         let comma :=
           if (Z.of_nat idx <? Z.of_nat n - 1)%Z then "," else "" in
         (tableColumnStr +:+ (column +:+ comma), sqliteValue +:+ ("?" +:+ comma)))
      (combine (seq k (length suffix)) suffix) acc
    = (fst acc +:+ String.concat "," suffix,
       snd acc +:+ String.concat "," (map (fun _ => "?") suffix)).
Proof.
  induction suffix as [|x rest IH]; intros k [a b] Hk.
  - simpl. now rewrite !append_empty_r.
  - cbn [length seq combine fold_left]. rewrite (IH (S k)) by (simpl in Hk; lia).
    cbn [fst snd]. destruct rest as [|y rest].
    + simpl in Hk.
      replace (Z.of_nat k <? Z.of_nat n - 1)%Z with false
        by (symmetry; apply Z.ltb_ge; lia).
      simpl. now rewrite !append_empty_r.
    + simpl in Hk.
      replace (Z.of_nat k <? Z.of_nat n - 1)%Z with true
        by (symmetry; apply Z.ltb_lt; lia).
      cbn [map]. rewrite !concat_cons2. now rewrite !append_assoc.
Qed.

(** X23 ([manager.addData], the earlier manager): building the rows never
    throws, and the insert statement fits them. There is one row for each
    element, every row has exactly one value for each schema column, and
    the statement names the columns and has one placeholder for each, both
    separated by commas as [join] would. *)
Theorem legacy_addData_rows (generalSchema : Schema) (data : Manager.Data) :
  exists queryData,
    omap (row_of generalSchema) (Manager.concat_data data) = Ok queryData
    /\ length queryData = length (Manager.concat_data data)
    /\ Forall (fun row => length row = length (Object_keys generalSchema)) queryData
    /\ column_strings (Object_keys generalSchema)
       = (join (Object_keys generalSchema),
          join (map (fun _ => "?") (Object_keys generalSchema))).
Proof.
  destruct (omap_total (row_of generalSchema) (Manager.concat_data data)) as [queryData Hq].
  { intros element _. destruct (row_of_total generalSchema element) as [row [Hrow _]]. eauto. }
  exists queryData. split; [exact Hq|split; [now apply omap_length in Hq|split]].
  - apply omap_Forall2 in Hq.
    induction Hq as [|element row elements rows Hrow _ IH]; constructor; [|exact IH].
    destruct (row_of_total generalSchema element) as [row' [Hrow' Hlen]]. congruence.
  - exact (column_strings_from (length (Object_keys generalSchema))
             (Object_keys generalSchema) 0 ("", "") eq_refl).
Qed.

Lemma lookup_field_NoDup {A} (l : list (string * A)) (k : string) (v : A) :
  List.NoDup (Object_keys l) -> In (k, v) l -> lookup_field k l = Some v.
Proof.
  induction l as [|[k' v'] l IH]; simpl; intros Hnd Hin; [contradiction|].
  inversion Hnd as [|? ? Hnin Hnd']; subst.
  destruct Hin as [[= -> ->]|Hin].
  - now rewrite String.eqb_refl.
  - destruct (String.eqb k k') eqn:E; [|now apply IH].
    apply String.eqb_eq in E. subst k'. exfalso. apply Hnin.
    apply in_map_iff. now exists (k, v).
Qed.

(** X24 ([manager.addData] with [convertToSqlite] and [convertToTdx]): what
    the earlier [addData] binds for a column reads back. Over a schema with
    distinct columns, what is bound at the place of a column is the null
    value when the element holds [undefined] there, or has no such field
    and the column is not named after a member of [Object.prototype]; and
    when the element has the field, it is the stored form of the field,
    which [convertToTdx] turns back into the field's value whenever that
    value is valid under the column's type. *)
Theorem legacy_addData_round_trip (generalSchema : Schema) (element : object)
  (row : list Bound) (i : nat) (column : string) (t : GeneralType) :
  List.NoDup (Object_keys generalSchema) ->
  nth_error generalSchema i = Some (column, t) ->
  row_of generalSchema element = Ok row ->
  exists bound,
    nth_error row i = Some bound
    /\ (lookup_field column element = Some VUndefined
        \/ (lookup_field column element = None /\ inherited column = false) ->
        bound = Value SQLITE_NULL_VALUE)
    /\ (forall v, lookup_field column element = Some v -> valid_under t v = true ->
        exists stored,
          bound = Value stored /\ Converter.convertToTdx (Some t) stored = Ok v).
Proof.
  intros Hnd Hi Hrow.
  assert (Hl : lookup_field column generalSchema = Some t).
  { apply lookup_field_NoDup; [exact Hnd|]. now apply nth_error_In in Hi. }
  assert (Hc : nth_error (Object_keys generalSchema) i = Some column).
  { unfold Object_keys. rewrite nth_error_map, Hi. reflexivity. }
  unfold row_of in Hrow. apply omap_Forall2 in Hrow.
  destruct (Forall2_nth_error_l _ _ _ Hrow i column Hc) as [bound [Hs Hbound]].
  exists bound. split; [exact Hs|]. rewrite Hl in Hbound. split.
  - intros [Hu|[Hu Hin]]; rewrite Hu in Hbound; [congruence|].
    rewrite Hin in Hbound. congruence.
  - intros v Hv Hvalid. rewrite Hv in Hbound.
    destruct (Converter.convertToSqlite (Some t) v only_stringify) as [stored|e] eqn:Hstore.
    + exists stored.
      assert (Hb : bound = Value stored).
      { unfold only_stringify in Hstore.
        destruct v; try (destruct t; discriminate Hvalid);
          rewrite Hstore in Hbound; cbn [obind] in Hbound; congruence. }
      split; [exact Hb|]. clear Hbound Hb.
      assert (Hrt : round_trip only_stringify t v = Ok v).
      { destruct t; try discriminate Hvalid.
        - destruct v; try discriminate Hvalid; reflexivity.
        - now apply round_trip_numeric.
        - now apply round_trip_numeric.
        - now apply round_trip_numeric.
        - apply json_round_trip; [now left|].
          destruct v; try discriminate Hvalid; exact Hvalid.
        - apply json_round_trip; [now right|].
          destruct v; try discriminate Hvalid; exact Hvalid. }
      unfold round_trip in Hrt. rewrite Hstore in Hrt. exact Hrt.
    + destruct (convertToSqlite_only_total (Some t) v) as [stored Hs'].
      unfold only_stringify in Hstore. congruence.
Qed.

End LegacyCoverage.

(* ------------------------------------------------------------------ *)
(** ** Further properties: instances *)
(* ------------------------------------------------------------------ *)


Lemma convertSchema_columns_witness :
  List.NoDup (Js.Object_keys [("id", Js.VObj [("__tdxType", Js.VArr [Js.VStr "string"])]);
                              ("note", Js.VStr "string");
                              ("tags", Js.VArr [])])
  /\ @Converter.convertSchema Examples.constants
       (Js.VObj [("id", Js.VObj [("__tdxType", Js.VArr [Js.VStr "string"])]);
                 ("note", Js.VStr "string");
                 ("tags", Js.VArr [])])
     = Ok [("id", TEXT); ("tags", ARRAY)]
  /\ Js.Object_keys [("id", TEXT); ("tags", ARRAY)] = ["id"; "tags"].
Proof.
  assert (Hnd : List.NoDup
                  (Js.Object_keys [("id", Js.VObj [("__tdxType", Js.VArr [Js.VStr "string"])]);
                                   ("note", Js.VStr "string");
                                   ("tags", Js.VArr [])])).
  { repeat constructor; simpl; intuition discriminate. }
  split; [exact Hnd|]. split; [reflexivity|].
  exact (proj1 (@convertSchema_columns Examples.constants
                  [("id", Js.VObj [("__tdxType", Js.VArr [Js.VStr "string"])]);
                   ("note", Js.VStr "string");
                   ("tags", Js.VArr [])]
                  [("id", TEXT); ("tags", ARRAY)] Hnd
                  ltac:(simpl; intuition discriminate) eq_refl eq_refl)).
Defined.

Lemma convertSchema_types_witness :
  @Converter.convertSchema Examples.constants
    (Js.VObj [("n", Js.VObj [("__tdxType", Js.VArr [Js.VStr "number"; Js.VStr "real"])]);
              ("o", Js.VObj [])])
  = Ok [("n", REAL); ("o", OBJECT)]
  /\ List.NoDup (Js.Object_keys [("n", REAL); ("o", OBJECT)]).
Proof.
  split; [reflexivity|].
  exact (proj1 (@convertSchema_types Examples.constants
                  (Js.VObj [("n", Js.VObj [("__tdxType", Js.VArr [Js.VStr "number"; Js.VStr "real"])]);
                            ("o", Js.VObj [])])
                  [("n", REAL); ("o", OBJECT)] eq_refl)).
Defined.

Lemma convertToSqlite_injective_witness :
  valid_under ARRAY (Js.VArr [Js.VNum 1; Js.VStr "a"]) = true
  /\ @Converter.convertToSqlite (Some ARRAY) (Js.VArr [Js.VNum 1; Js.VStr "a"]) Js.VUndefined
     = Ok (Js.VStr (Js.delimit (Js.double_quotes (Js.stringify (Js.VArr [Js.VNum 1; Js.VStr "a"])))))
  /\ Js.VArr [Js.VNum 1; Js.VStr "a"] = Js.VArr [Js.VNum 1; Js.VStr "a"].
Proof.
  split; [reflexivity|]. split; [reflexivity|].
  exact (convertToSqlite_injective ARRAY Js.VUndefined
           (Js.VArr [Js.VNum 1; Js.VStr "a"]) (Js.VArr [Js.VNum 1; Js.VStr "a"])
           _ eq_refl eq_refl eq_refl eq_refl).
Defined.

Lemma executeMany_resolves_witness :
  snd (Helper.executeMany (fun _ => None) insert_creator [row_a; row_b; row_a])
  = Helper.Resolved [Js.VUndefined; Js.VUndefined]
  /\ length (Helper.cachedStatements
               (fst (Helper.executeMany (fun _ => None) insert_creator [row_a; row_b; row_a])))
     = 2.
Proof.
  exact (executeMany_resolves (fun _ => None) insert_creator [row_a; row_b; row_a]
           (fun row _ => ex_intro _ _ eq_refl) (fun _ => eq_refl)).
Defined.

Lemma getGeneralSchema_cached_witness :
  Manager.generalSchema (Examples.world MoreExamples.plain_dataset None) = None
  /\ @Manager.getGeneralSchema Examples.constants _ Examples.memory
       (Manager.with_conn
          (fst (@Manager.getGeneralSchema Examples.constants _ Examples.memory
                  (Examples.world MoreExamples.plain_dataset None)))
          None)
     = (Manager.with_conn
          (fst (@Manager.getGeneralSchema Examples.constants _ Examples.memory
                  (Examples.world MoreExamples.plain_dataset None)))
          None,
        Ok [("name", TEXT)]).
Proof.
  split; [reflexivity|].
  apply (proj2 (@getGeneralSchema_cached Examples.constants _ Examples.memory
                  (Examples.world MoreExamples.plain_dataset None) [("name", TEXT)]
                  eq_refl eq_refl)).
  discriminate.
Defined.

Lemma createDataset_index_without_schema_witness :
  @Manager.createDataset Examples.constants _ Examples.memory
    [("schema", Js.VObj [("uniqueIndex", Js.VArr [Js.VObj [("asc", Js.VStr "name")]])])]
    (Examples.world None None)
  = (Examples.world None None, Throw Manager.index_doesnt_match).
Proof.
  apply (@createDataset_index_without_schema Examples.constants _ Examples.memory
           [("schema", Js.VObj [("uniqueIndex", Js.VArr [Js.VObj [("asc", Js.VStr "name")]])])]
           (Examples.world None None)
           [("uniqueIndex", Js.VArr [Js.VObj [("asc", Js.VStr "name")]])]
           (Js.VObj [("asc", Js.VStr "name")]) []); reflexivity.
Defined.

Lemma createDataset_new_id_witness :
  snd (@Manager.createDataset Examples.constants _ Examples.memory
         [("schema", Js.VObj [("dataSchema", Js.VObj [("tags", Js.VArr [])])])]
         (Examples.world None None))
  = Ok (Js.VStr "generated")
  /\ Js.VStr "generated"
     = Js.or_default
         (Js.get [("schema", Js.VObj [("dataSchema", Js.VObj [("tags", Js.VArr [])])])] "id")
         (Js.VStr (@Manager.shortid_generate _ Examples.memory
                     (Manager.conn (Examples.world None None)))).
Proof.
  split; [reflexivity|].
  exact (@createDataset_new_id Examples.constants _ Examples.memory
           [("schema", Js.VObj [("dataSchema", Js.VObj [("tags", Js.VArr [])])])]
           (Examples.world None None) (Js.VStr "generated") eq_refl eq_refl).
Defined.


Lemma getData_plain_rows_witness :
  @Manager.getData Examples.constants _
    (Examples.answering [[("name", Js.VStr "x")]; [("name", Js.VStr "y")]])
    None (Some [("name", Js.VNum 1)]) None
    (Examples.world MoreExamples.plain_dataset (Some [("name", TEXT); ("size", INTEGER)]))
  = (Manager.with_read
       (Examples.world MoreExamples.plain_dataset (Some [("name", TEXT); ("size", INTEGER)]))
       ("select from data", []),
     Ok (Manager.DatasetData [[("name", Js.VStr "x")]; [("name", Js.VStr "y")]]
                             (Js.VObj []) "")).
Proof.
  apply (@getData_plain_rows Examples.constants _
           (Examples.answering [[("name", Js.VStr "x")]; [("name", Js.VStr "y")]])
           None (Some [("name", Js.VNum 1)]) None
           (Examples.world MoreExamples.plain_dataset (Some [("name", TEXT); ("size", INTEGER)]))
           [("name", TEXT); ("size", INTEGER)] ("select from data", [])
           [[("name", Js.VStr "x")]; [("name", Js.VStr "y")]]); try reflexivity.
  - intros column ty [[= <- <-]|[[= <- <-]|[]]]; reflexivity.
  - intros o [=].
  - discriminate.
Defined.

Lemma convert_row_columns_witness :
  List.NoDup (Js.Object_keys [("name", Js.VStr "x"); ("tags", Js.VStr "[1,2]");
                              ("rowid", Js.VNum 7)])
  /\ @Manager.convert_row [("tags", ARRAY); ("name", TEXT)]
       [("name", Js.VStr "x"); ("tags", Js.VStr "[1,2]"); ("rowid", Js.VNum 7)]
     = Ok [("name", Js.VStr "x"); ("tags", Js.VArr [Js.VNum 1; Js.VNum 2]); ("rowid", Js.VNull)]
  /\ Js.Object_keys [("name", Js.VStr "x"); ("tags", Js.VArr [Js.VNum 1; Js.VNum 2]);
                     ("rowid", Js.VNull)]
     = Js.Object_keys [("name", Js.VStr "x"); ("tags", Js.VStr "[1,2]"); ("rowid", Js.VNum 7)].
Proof.
  assert (Hnd : List.NoDup (Js.Object_keys [("name", Js.VStr "x"); ("tags", Js.VStr "[1,2]");
                                            ("rowid", Js.VNum 7)])).
  { repeat constructor; simpl; intuition discriminate. }
  split; [exact Hnd|]. split; [reflexivity|].
  exact (proj1 (convert_row_columns [("tags", ARRAY); ("name", TEXT)]
                  [("name", Js.VStr "x"); ("tags", Js.VStr "[1,2]"); ("rowid", Js.VNum 7)]
                  [("name", Js.VStr "x"); ("tags", Js.VArr [Js.VNum 1; Js.VNum 2]);
                   ("rowid", Js.VNull)]
                  Hnd ltac:(simpl; intuition discriminate) eq_refl eq_refl)).
Defined.

Lemma query_order_rule_witness :
  List.NoDup (Js.Object_keys [("a", Js.VNum 1); ("b", Js.VNum 2); ("c", Js.VNum (-1))])
  /\ @Manager.query_order Examples.constants
       [("a", Js.VNum 1); ("b", Js.VNum 2); ("c", Js.VNum (-1))]
     = Some [("a", "ASC"); ("c", "DESC")].
Proof.
  assert (Hnd : List.NoDup (Js.Object_keys [("a", Js.VNum 1); ("b", Js.VNum 2);
                                            ("c", Js.VNum (-1))])).
  { repeat constructor; simpl; intuition discriminate. }
  split; [exact Hnd|].
  exact (@query_order_rule Examples.constants
           [("a", Js.VNum 1); ("b", Js.VNum 2); ("c", Js.VNum (-1))] Hnd
           ltac:(simpl; intuition discriminate) eq_refl).
Defined.

Lemma getResource_keys_witness :
  snd (@Manager.getResource Examples.constants _ Examples.memory false
         (Examples.world MoreExamples.plain_dataset None))
  = Ok (Js.VObj [("id", Js.VStr "d1");
                 ("schemaDefinition",
                  Js.VObj [("dataSchema",
                            Js.VObj [("name", Js.VObj [("__tdxType", Js.VArr [Js.VStr "string"])])]);
                           ("uniqueIndex", Js.VArr [])])])
  /\ fst (@Manager.getResource Examples.constants _ Examples.memory false
            (Examples.world MoreExamples.plain_dataset None))
     = Examples.world MoreExamples.plain_dataset None.
Proof.
  split; [reflexivity|].
  exact (proj1 (@getResource_keys Examples.constants _ Examples.memory
                  (Examples.world MoreExamples.plain_dataset None) _ eq_refl)).
Defined.

Lemma getDistinct_unknown_column_witness :
  Js.key_in "colour" [("name", TEXT)] = false
  /\ Manager.reads
       (fst (@Manager.getDistinct Examples.constants _ Examples.memory "colour" None
               (Examples.world MoreExamples.plain_dataset (Some [("name", TEXT)]))))
     = Manager.reads (Examples.world MoreExamples.plain_dataset (Some [("name", TEXT)])).
Proof.
  split; [reflexivity|].
  exact (proj1 (@getDistinct_unknown_column Examples.constants _ Examples.memory "colour" None
                  (Examples.world MoreExamples.plain_dataset (Some [("name", TEXT)]))
                  (Examples.world MoreExamples.plain_dataset (Some [("name", TEXT)]))
                  [("name", TEXT)] eq_refl (or_introl eq_refl))).
Defined.

Lemma addData_without_dataset_witness :
  @Manager.getInfoKeys _ Examples.memory (Manager.conn (Examples.world (Some []) None)) ["schema"]
  = Ok []
  /\ Manager.batches
       (fst (@Manager.addData Examples.constants _ Examples.memory
               (Manager.Rows [[("name", Js.VStr "x")]]) (Examples.world (Some []) None)))
     = Manager.batches (Examples.world (Some []) None).
Proof.
  split; [reflexivity|].
  exact (proj1 (proj2 (@addData_without_dataset Examples.constants _ Examples.memory
                         (Manager.Rows [[("name", Js.VStr "x")]])
                         (Examples.world (Some []) None) eq_refl eq_refl))).
Defined.

Lemma deleteData_without_index_witness :
  snd (@Updates.deleteData Examples.constants _ Examples.memory MoreExamples.statements
         (Manager.OneRow [("name", Js.VStr "x")]) false
         (Examples.world MoreExamples.plain_dataset None))
  = Throw Updates.no_uniqueIndex.
Proof.
  apply (proj1 (proj2 (proj2 (proj2
           (@deleteData_without_index Examples.constants _ Examples.memory MoreExamples.statements
              (Manager.OneRow [("name", Js.VStr "x")])
              (Examples.world MoreExamples.plain_dataset None)
              [("schema", Js.VObj [("dataSchema",
                                    Js.VObj [("name", Js.VObj [("__tdxType", Js.VArr [Js.VStr "string"])])]);
                                   ("uniqueIndex", Js.VArr [])])]
              []
              [("dataSchema", Js.VObj [("name", Js.VObj [("__tdxType", Js.VArr [Js.VStr "string"])])]);
               ("uniqueIndex", Js.VArr [])]
              eq_refl eq_refl eq_refl))))
           [("name", TEXT)] [[("name", Js.VStr "x")]]); reflexivity.
Defined.

Lemma updateData_reports_witness :
  snd (@Updates.updateData Examples.constants _ Examples.parsing MoreExamples.statements
         ("a", "b", "c") (Manager.OneRow []) (Some true) (Some false)
         (Examples.world MoreExamples.plain_dataset None))
  = Ok {| Updates.commandId := "abc"; Updates.response := Js.VNull; Updates.commit := [];
          Updates.errors := [Error "Error: SQLITE_ERROR: syntax error"] |}
  /\ snd (@Updates.updateData Examples.constants _ Examples.memory MoreExamples.statements
            ("a", "b", "c") (Manager.OneRow [("name", Js.VStr "x")]) None (Some false)
            (Examples.world MoreExamples.plain_dataset None))
     = Ok {| Updates.commandId := "abc"; Updates.response := Js.VStr "Success";
             Updates.commit := []; Updates.errors := [] |}.
Proof.
  split.
  - pose proof (proj1 (@updateData_reports Examples.constants _ Examples.parsing
                         MoreExamples.statements ("a", "b", "c") (Manager.OneRow [])
                         (Some true)
                         (Examples.world MoreExamples.plain_dataset None)
                         (Examples.world MoreExamples.plain_dataset (Some [("name", TEXT)]))
                         [("name", TEXT)] eq_refl)
                  [[]]
                  [[("schema", Js.VObj [("dataSchema",
                                         Js.VObj [("name", Js.VObj [("__tdxType", Js.VArr [Js.VStr "string"])])]);
                                        ("uniqueIndex", Js.VArr [])])]]
                  (Js.VArr []) eq_refl eq_refl eq_refl) as Hu.
    cbv zeta in Hu. destruct Hu as (_ & _ & Hu).
    exact (proj1 (Hu (Error "Error: SQLITE_ERROR: syntax error") eq_refl)).
  - pose proof (proj1 (@updateData_reports Examples.constants _ Examples.memory
                         MoreExamples.statements ("a", "b", "c")
                         (Manager.OneRow [("name", Js.VStr "x")]) None
                         (Examples.world MoreExamples.plain_dataset None)
                         (Examples.world MoreExamples.plain_dataset (Some [("name", TEXT)]))
                         [("name", TEXT)] eq_refl)
                  [[("name", Js.VStr "x")]]
                  [[("schema", Js.VObj [("dataSchema",
                                         Js.VObj [("name", Js.VObj [("__tdxType", Js.VArr [Js.VStr "string"])])]);
                                        ("uniqueIndex", Js.VArr [])])]]
                  (Js.VArr []) eq_refl eq_refl eq_refl) as Hu.
    cbv zeta in Hu. destruct Hu as (_ & Hu & _).
    exact (Hu (Some false) [Js.VUndefined] eq_refl).
Defined.

Lemma legacy_addData_round_trip_witness :
  exists stored,
    nth_error [Legacy.Value Js.VNull; Legacy.Value (Js.VStr "[1]")] 1
    = Some (Legacy.Value stored)
    /\ Converter.convertToTdx (Some ARRAY) stored = Ok (Js.VArr [Js.VNum 1]).
Proof.
  assert (Hnd : List.NoDup (Js.Object_keys [("name", TEXT); ("tags", ARRAY)])).
  { repeat constructor; simpl; intuition discriminate. }
  destruct (@legacy_addData_round_trip MoreExamples.null_value
              [("name", TEXT); ("tags", ARRAY)] [("tags", Js.VArr [Js.VNum 1])]
              [Legacy.Value Js.VNull; Legacy.Value (Js.VStr "[1]")] 1 "tags" ARRAY
              Hnd eq_refl eq_refl) as (bound & Hb & _ & Hv).
  destruct (Hv (Js.VArr [Js.VNum 1]) eq_refl eq_refl) as (stored & -> & Hs).
  exists stored. split; assumption.
Defined.

(** An element without a field named constructor inherits one: what is
    bound for a TEXT column of that name is the inherited member. *)
Example legacy_row_inherited :
  @Legacy.row_of MoreExamples.null_value [("name", TEXT); ("constructor", TEXT)]
    [("name", Js.VStr "x")]
  = Ok [Legacy.Value (Js.VStr "x"); Legacy.Inherited "constructor"].
Proof. reflexivity. Qed.

Lemma addData_extra_fields_witness :
  snd (@Manager.addData Examples.constants _ Examples.memory
         (Manager.Rows [[("id", Js.VStr "a"); ("count", Js.VNum 1)];
                        [("id", Js.VStr "b"); ("extra", Js.VBool true);
                         ("count", Js.VNum 2)]])
         (Examples.world (Some [("schema", Js.VObj [("uniqueIndex", Js.VArr [])])])
                         (Some [("id", TEXT); ("count", INTEGER)])))
  = Ok 2
  /\ Manager.batches
       (fst (@Manager.addData Examples.constants _ Examples.memory
               (Manager.Rows [[("id", Js.VStr "a"); ("count", Js.VNum 1)];
                              [("id", Js.VStr "b"); ("extra", Js.VBool true);
                               ("count", Js.VNum 2)]])
               (Examples.world (Some [("schema", Js.VObj [("uniqueIndex", Js.VArr [])])])
                               (Some [("id", TEXT); ("count", INTEGER)]))))
     = [[Helper.Run "BEGIN IMMEDIATE TRANSACTION;";
         Helper.Prepare 0 "INSERT INTO data (id,count) VALUES (...)";
         Helper.StatementRun 0 [Js.VStr "a"; Js.VNum 1];
         Helper.StatementRun 0 [Js.VStr "b"; Js.VNum 2];
         Helper.Run "COMMIT TRANSACTION;";
         Helper.Finalize 0]].
Proof.
  pose proof (@addData_extra_fields Examples.constants _ Examples.memory
                (Manager.Rows [[("id", Js.VStr "a"); ("count", Js.VNum 1)];
                               [("id", Js.VStr "b"); ("extra", Js.VBool true);
                                ("count", Js.VNum 2)]])
                (Examples.world (Some [("schema", Js.VObj [("uniqueIndex", Js.VArr [])])])
                                (Some [("id", TEXT); ("count", INTEGER)]))
                (Examples.world (Some [("schema", Js.VObj [("uniqueIndex", Js.VArr [])])])
                                (Some [("id", TEXT); ("count", INTEGER)]))
                [("id", TEXT); ("count", INTEGER)]
                (Some [("schema", Js.VObj [("uniqueIndex", Js.VArr [])])])
                [[("id", Js.VStr "a"); ("count", Js.VNum 1)];
                 [("id", Js.VStr "b"); ("count", Js.VNum 2)]]
                [[("id", Js.VStr "a"); ("count", Js.VNum 1)];
                 [("id", Js.VStr "b"); ("count", Js.VNum 2)]]
                [[("schema", Js.VObj [("uniqueIndex", Js.VArr [])])]]
                (Js.VArr [])
                eq_refl eq_refl eq_refl eq_refl eq_refl eq_refl eq_refl) as Hadd.
  cbv zeta in Hadd. destruct Hadd as (_ & _ & Hbatch & _ & _ & _ & Hresolves & _).
  split.
  - apply Hresolves.
    + intros row _. eexists. reflexivity.
    + intros pos. reflexivity.
  - exact Hbatch.
Defined.

(** C10, as stated, fails: a call does not always resolve. A row that has
    only extra fields is left without a field, and the insert of a row
    without columns is refused by the engine, so the call rejects. *)
Lemma addData_only_extra_fields_counterexample :
  ~ @resolves_with_count Examples.constants _ Examples.parsing
      (Manager.Rows [[("extra", Js.VBool true)]])
      (Examples.world (Some [("schema", Js.VObj [("uniqueIndex", Js.VArr [])])])
                      (Some [("id", TEXT); ("count", INTEGER)])).
Proof. unfold resolves_with_count. vm_compute. discriminate. Qed.

Example addData_only_extra_fields :
  snd (@Manager.addData Examples.constants _ Examples.parsing
         (Manager.Rows [[("extra", Js.VBool true)]])
         (Examples.world (Some [("schema", Js.VObj [("uniqueIndex", Js.VArr [])])])
                         (Some [("id", TEXT); ("count", INTEGER)])))
  = Throw (Error "Error: SQLITE_ERROR: syntax error").
Proof. vm_compute. reflexivity. Qed.

(** The batch of the witness: the extra field is gone before the rows are
    written, both rows share one statement, one warning is emitted. *)
Example addData_extra_field_batch :
  let after :=
    fst (@Manager.addData Examples.constants _ Examples.memory
           (Manager.Rows [[("id", Js.VStr "a"); ("count", Js.VNum 1)];
                          [("id", Js.VStr "b"); ("extra", Js.VBool true);
                           ("count", Js.VNum 2)]])
           (Examples.world (Some [("schema", Js.VObj [("uniqueIndex", Js.VArr [])])])
                           (Some [("id", TEXT); ("count", INTEGER)]))) in
  Manager.batches after
  = [[Helper.Run "BEGIN IMMEDIATE TRANSACTION;";
      Helper.Prepare 0 "INSERT INTO data (id,count) VALUES (...)";
      Helper.StatementRun 0 [Js.VStr "a"; Js.VNum 1];
      Helper.StatementRun 0 [Js.VStr "b"; Js.VNum 2];
      Helper.Run "COMMIT TRANSACTION;";
      Helper.Finalize 0]]
  /\ map warning_code (Manager.emitted after) = ["AddDataExtraFields"].
Proof. vm_compute. auto. Qed.

(** A row with a numeric [length] is walked as an array: the converted row
    has the indices as keys, and none of the row's fields. *)
Example convert_row_array_like :
  @Manager.convert_row [("length", INTEGER); ("tags", ARRAY)]
    [("length", Js.VNum 2); ("tags", Js.VStr "[1,2]")]
  = Ok [("0", Js.VNull); ("1", Js.VNull)].
Proof. reflexivity. Qed.

(** So is a sort object: its keys give no order. *)
Example query_order_array_like :
  @Manager.query_order Examples.constants [("length", Js.VNum 1); ("a", Js.VNum (-1))] = None.
Proof. reflexivity. Qed.

(** The sort order of an index is looked up in an object literal, where
    the name of an inherited member finds that member. *)
Example primaryKeyStr_inherited :
  @Manager.primaryKeyStr Examples.constants (Js.VObj [("toString", Js.VStr "x")])
  = Ok "x function toString() { [native code] }".
Proof. reflexivity. Qed.
